(** * Google Workspace admin scripts: inactivity classifier, action
    executors and the resumable groups audit

    A shallow embedding of the Apps Script sources

    - [Inactive users/Inactive users 180 days - Auto Run.js]  (module [AutoRun])
    - the license-first audit script                           (module [LicenseFirst])
    - [Inactive users/Suspend and Manage Licenses.js]          (module [ManageLicenses])
    - [Inactive users/Suspend Inactive Eplus Users.js]         (module [SuspendEplus])
    - [website/scripts/groups-batch.js]                        (module [GroupsBatch])

    together with the properties their specification states about them,
    and, after these, the main functions of the scripts, their license
    listing, exclusion rules, triggers and report summaries, and the
    Reports-only audit ([Licensing], [Exclusion], [Selection],
    [ManageLicensesMain], [SuspendEplusMain], [AutoRunMain],
    [LicenseFirstMain], [ReportsOnly], [Triggers], [GroupsReport]) with
    further properties of the code.

    Conventions of the embedding.
    - An instant ([Date], or the ISO string the Admin SDK returns for one) is
      the number of milliseconds since the epoch, a [Z]; [new Date(s).getTime()]
      is the identity on it.  An absent or empty field is [None].
    - A JavaScript object used as a dictionary is a [gmap string _]; the
      Script Properties store is a [gmap string string].
    - A paginated provider listing is the finite tree of what the provider
      answers to the successive page requests ([Listing]).
    - A provider call that can throw has an [Outcome]; the mutating calls
      an executor makes are collected in a trace. *)

From Stdlib Require Import ZArith String Ascii List Lia Bool.
From Stdlib Require Import Decimal DecimalString DecimalNat DecimalFacts.
From stdpp Require Import gmap strings list fin_maps.

Local Open Scope Z_scope.

(* ================================================================== *)
(** * Platform: the JavaScript and Apps Script built-ins the scripts use *)
(* ================================================================== *)

Module JS.

(** What a call that may throw does: it returns, or throws an error
    carrying [e.message]. *)
Inductive Outcome (A : Type) : Type :=
| Returns (a : A)
| Throws (message : string).
Arguments Returns {A} a.
Arguments Throws {A} message.

(** The behaviour of a paginated listing, seen from the caller's
    [do { ... } while (pageToken)] loop: a request throws, or answers a
    page without [nextPageToken], or answers a page with one, after which
    the next request behaves as [next].  [items] is the page's array
    field ([users], [items], [groups], [members]); it may be absent. *)
Inductive Listing (A : Type) : Type :=
| Fails (message : string)
| LastPage (items : option (list A))
| MorePage (items : option (list A)) (next : Listing A).
Arguments Fails {A} message.
Arguments LastPage {A} items.
Arguments MorePage {A} items next.

(** [String.prototype.toLowerCase], on the ASCII letters. *)
Definition lower_ascii (c : ascii) : ascii :=
  let n := nat_of_ascii c in
  if ((65 <=? n)%nat && (n <=? 90)%nat)%bool then ascii_of_nat (n + 32) else c.

Fixpoint toLowerCase (s : string) : string :=
  match s with
  | EmptyString => EmptyString
  | String c s' => String (lower_ascii c) (toLowerCase s')
  end.

(** Truthiness of a string: every string but the empty one. *)
Definition truthy (s : string) : bool := negb (String.eqb s EmptyString).

(** [x || d] for an optional string [x]. *)
Definition or_default (x : option string) (d : string) : string :=
  match x with
  | Some s => if truthy s then s else d
  | None => d
  end.

(** [Utilities.formatDate(d, 'GMT', "yyyy-MM-dd'T'HH:mm:ss'Z'")]: the
    pattern has no milliseconds, so the text denotes the whole second
    that contains [d].  The text is represented by that instant. *)
Definition formatDate (d : Z) : Z := 1000 * (d / 1000).

End JS.

Import JS.

(* ================================================================== *)
(** * Data model shared by the inactive-user scripts                    *)
(* ================================================================== *)

Module Directory.

(** A directory user, with the fields the scripts read or attach. *)
Record User : Type := mkUser {
primaryEmail : string;
fullName : option string;          (* user.name.fullName, when user.name is there *)
orgUnitPath : option string;
lastLoginTime : option Z;
creationTime : Z;
suspended : bool;
isAdmin : bool;
isDelegatedAdmin : bool;
licenseString : option string      (* attached by the scripts *)
}.

Definition set_lastLoginTime (t : option Z) (u : User) : User :=
{| primaryEmail := primaryEmail u; fullName := fullName u;
   orgUnitPath := orgUnitPath u; lastLoginTime := t;
   creationTime := creationTime u; suspended := suspended u;
   isAdmin := isAdmin u; isDelegatedAdmin := isDelegatedAdmin u;
   licenseString := licenseString u |}.

(** A login event of the Reports API: [activity.actor.email] (absent for
  system events) and [activity.id.time]. *)
Record Activity : Type := mkActivity {
actor_email : option string;
id_time : Z
}.

(** The window of an [AdminReports.Activities.list('all', 'login', ...)]
  request: the instants its [startTime] and [endTime] texts denote. *)
Record ReportsQuery : Type := mkQuery {
startTime : Z;
endTime : Z
}.

(** A cell of the report: a value, or a text such as ['Never']. *)
Inductive Cell : Type :=
| CellTime (t : Z)
| CellText (s : string).

(** [user.lastLoginTime || 'Never'] *)
Definition lastLoginCell (t : option Z) : Cell :=
match t with
| Some t => CellTime t
| None => CellText "Never"
end.

(** The providers of one run of an inactive-user script. *)
Record Providers : Type := mkProviders {
Activities_list : ReportsQuery -> Listing Activity;   (* AdminReports.Activities.list *)
Users_list : Listing User                             (* AdminDirectory.Users.list *)
}.

End Directory.

Import Directory.

(* ================================================================== *)
(** * Inactive users 180 days - Auto Run.js                             *)
(* ================================================================== *)

Module AutoRun.

(** [180 * 24 * 60 * 60 * 1000] *)
Definition reportsRetention : Z := 180 * 24 * 60 * 60 * 1000.

(** Lines 219-222 of [getLoginActivityFromReports]:
    [maxReportsHistory = new Date(now.getTime() - 180 days)],
    [startDate = cutoffDate > maxReportsHistory ? cutoffDate : maxReportsHistory]. *)
Definition maxReportsHistory (now : Z) : Z := now - reportsRetention.

Definition startDate (now cutoffDate : Z) : Z :=
  if cutoffDate >? maxReportsHistory now then cutoffDate else maxReportsHistory now.

(** Lines 224-225 and 235-236: the window that is sent. *)
Definition reportsQuery (now cutoffDate : Z) : ReportsQuery :=
  {| startTime := formatDate (startDate now cutoffDate);
     endTime := formatDate now |}.

(** The [forEach] callback of lines 243-256: keep the most recent login
    time per lower-cased actor email. *)
Definition recordActivity (loginMap : gmap string Z) (activity : Activity)
  : gmap string Z :=
  match actor_email activity with
  | None => loginMap
  | Some e =>
      if truthy e then
        let email := toLowerCase e in
        let activityTime := id_time activity in
        match loginMap !! email with
        | None => <[email := activityTime]> loginMap
        | Some t =>
            if activityTime >? t then <[email := activityTime]> loginMap
            else loginMap
        end
      else loginMap
  end.

Definition recordPage (loginMap : gmap string Z) (items : option (list Activity))
  : gmap string Z :=
  match items with
  | Some l => fold_left recordActivity l loginMap
  | None => loginMap
  end.

(** The [do ... while (pageToken)] loop inside the [try]: a throwing
    request ends the loop and the map built so far is returned. *)
Fixpoint collectLogins (pages : Listing Activity) (loginMap : gmap string Z)
  : gmap string Z :=
  match pages with
  | Fails _ => loginMap
  | LastPage items => recordPage loginMap items
  | MorePage items next => collectLogins next (recordPage loginMap items)
  end.

Definition getLoginActivityFromReports (P : Providers) (now cutoffDate : Z)
  : gmap string Z :=
  collectLogins (Activities_list P (reportsQuery now cutoffDate)) ∅.

(** The [filter] callback of [getInactiveUsers], lines 294-323.  [None]:
    the callback returns [false] (the user is ACTIVE and dropped).
    [Some u']: it returns [true] (INACTIVE) and [u'] is the user object as
    the callback leaves it, with [lastLoginTime] overwritten when the
    Reports map has an entry. *)
Definition inactiveFilter (reportsLoginData : gmap string Z) (cutoffDate : Z)
           (user : User) : option User :=
  let userEmail := toLowerCase (primaryEmail user) in
  if match reportsLoginData !! userEmail with
     | Some reportsLastLogin => reportsLastLogin >=? cutoffDate
     | None => false
     end
  then None
  else if match lastLoginTime user with
          | Some directoryLastLogin => directoryLastLogin >=? cutoffDate
          | None => false
          end
  then None
  else Some match reportsLoginData !! userEmail with
            | Some t => set_lastLoginTime (Some t) user
            | None => user
            end.

Definition filterPage (reportsLoginData : gmap string Z) (cutoffDate : Z)
           (users : option (list User)) : list User :=
  match users with
  | Some l => omap (inactiveFilter reportsLoginData cutoffDate) l
  | None => []
  end.

(** The directory loop of [getInactiveUsers]: [users = users.concat(filtered)]
    per page; a throwing request breaks out with what was collected. *)
Fixpoint collectInactive (reportsLoginData : gmap string Z) (cutoffDate : Z)
         (pages : Listing User) (users : list User) : list User :=
  match pages with
  | Fails _ => users
  | LastPage us => users ++ filterPage reportsLoginData cutoffDate us
  | MorePage us next =>
      collectInactive reportsLoginData cutoffDate next
        (users ++ filterPage reportsLoginData cutoffDate us)
  end.

Definition getInactiveUsers (P : Providers) (now cutoffDate : Z) : list User :=
  let reportsLoginData := getLoginActivityFromReports P now cutoffDate in
  collectInactive reportsLoginData cutoffDate (Users_list P) [].

(** A data row of [exportToSheet], lines 370-378. *)
Record Row : Type := mkRow {
  row_name : string;
  row_email : string;
  row_orgUnitPath : string;
  row_lastLogin : Cell;
  row_creationTime : Z;
  row_suspended : bool;
  row_licenses : option string
}.

Definition exportRow (user : User) : Row :=
  {| row_name := match fullName user with Some n => n | None => "N/A" end;
     row_email := primaryEmail user;
     row_orgUnitPath := or_default (orgUnitPath user) "/";
     row_lastLogin := lastLoginCell (lastLoginTime user);
     row_creationTime := creationTime user;
     row_suspended := suspended user;
     row_licenses := licenseString user |}.

Definition exportRows (users : list User) : list Row := map exportRow users.

End AutoRun.

(* ================================================================== *)
(** * The license-first audit (checkIfUserInactive)                     *)
(* ================================================================== *)

Module LicenseFirst.

(** [checkIfUserInactive(user, reportsLoginData, cutoffDate)]:
    [true] when the user is inactive, [false] when active. *)
Definition checkIfUserInactive (user : User) (reportsLoginData : gmap string Z)
           (cutoffDate : Z) : bool :=
  let userEmail := toLowerCase (primaryEmail user) in
  if match reportsLoginData !! userEmail with
     | Some reportsLastLogin => reportsLastLogin >=? cutoffDate
     | None => false
     end
  then false
  else if match lastLoginTime user with
          | Some directoryLastLogin => directoryLastLogin >=? cutoffDate
          | None => false
          end
  then false
  else true.

(** The window clamp is the same text as in the auto-run script. *)
Definition startDate (now cutoffDate : Z) : Z :=
  let maxReportsHistory := now - 180 * 24 * 60 * 60 * 1000 in
  if cutoffDate >? maxReportsHistory then cutoffDate else maxReportsHistory.

Definition reportsQuery (now cutoffDate : Z) : ReportsQuery :=
  {| startTime := formatDate (startDate now cutoffDate);
     endTime := formatDate now |}.

(** The body of the [for] loop of [auditInactiveLicensedUsers] for a user
    fetched from the directory: [None] when the user is active, else the
    user with the Reports time stored over [lastLoginTime]. *)
Definition auditStep (reportsLoginData : gmap string Z) (inactiveDate : Z)
           (userEmail : string) (user : User) : option User :=
  if checkIfUserInactive user reportsLoginData inactiveDate then
    Some match reportsLoginData !! toLowerCase userEmail with
         | Some t => set_lastLoginTime (Some t) user
         | None => user
         end
  else None.

End LicenseFirst.

(* ================================================================== *)
(** * The action executors                                              *)
(* ================================================================== *)

(** [SKU_CATALOG], in the order of its entries, and [getSkuName]: the
    first name whose id is [skuId], else [skuId] itself. *)
Definition SKU_CATALOG : list (string * list (string * string)) :=
  [ ("Google-Apps",
     [ ("Enterprise Plus", "1010020020");
       ("Enterprise Standard", "1010020028");
       ("Business Starter", "1010020027");
       ("Business Standard", "1010020028");
       ("Business Plus", "1010020025");
       ("Enterprise Essentials", "1010060003");
       ("Essentials Starter", "1010060001");
       ("Cloud Identity Free", "1010010001");
       ("Cloud Identity Premium", "1010050001");
       ("Education Plus Legacy (Student)", "1010310003");
       ("Google-Apps-For-Education", "101031");
       ("Google-Vault", "1010330003");
       ("Google-Vault-Former-Employee", "1010330004") ]) ].

Fixpoint findSkuName (skus : list (string * string)) (skuId : string) : option string :=
  match skus with
  | [] => None
  | (name, id) :: rest => if String.eqb id skuId then Some name else findSkuName rest skuId
  end.

Fixpoint getSkuName_in (catalog : list (string * list (string * string)))
         (skuId : string) : string :=
  match catalog with
  | [] => skuId
  | (_, skus) :: rest =>
      match findSkuName skus skuId with
      | Some name => name
      | None => getSkuName_in rest skuId
      end
  end.

Definition getSkuName (skuId : string) : string := getSkuName_in SKU_CATALOG skuId.

(** The mutating provider calls, as they appear in a run's trace. *)
Inductive Call : Type :=
| CallUpdate (userKey : string)                      (* AdminDirectory.Users.update({suspended: true}, userKey) *)
| CallRemove (productId skuId userId : string)       (* AdminLicenseManager.LicenseAssignments.remove *)
| CallInsert (userId productId skuId : string).      (* AdminLicenseManager.LicenseAssignments.insert *)

(** What the providers answer to the mutating calls of one run. *)
Record Mutators : Type := mkMutators {
  Users_update : string -> Outcome unit;
  LicenseAssignments_remove : string -> string -> string -> Outcome unit;
  LicenseAssignments_insert : string -> string -> string -> Outcome unit
}.

(** [if (!result.error)]: no error yet, or an empty message. *)
Definition noError (error : option string) : bool :=
  match error with
  | Some m => negb (truthy m)
  | None => true
  end.

(* ------------------------------------------------------------------ *)
(** ** Suspend and Manage Licenses.js                                   *)
(* ------------------------------------------------------------------ *)

Module ManageLicenses.

Record Config : Type := mkConfig {
  TARGET_SKU_ID : string;
  CLOUD_IDENTITY_FREE_SKU_ID : string;
  PRODUCT_ID : string;
  DRY_RUN : bool;
  ASSIGN_CLOUD_IDENTITY_FREE : bool;
  MAX_SUSPEND_COUNT : nat
}.

(** The configuration the file ships with. *)
Definition CONFIG : Config :=
  {| TARGET_SKU_ID := "1010020020";
     CLOUD_IDENTITY_FREE_SKU_ID := "1010010001";
     PRODUCT_ID := "Google-Apps";
     DRY_RUN := false;
     ASSIGN_CLOUD_IDENTITY_FREE := false;
     MAX_SUSPEND_COUNT := 50 |}.

Record Result : Type := mkResult {
  email : string;
  name : string;
  orgUnitPath : string;
  lastLoginTime : Cell;
  originalLicenses : option string;
  suspended : bool;
  suspensionStatus : string;
  licenseRemoved : bool;
  licenseRemovalStatus : string;
  licenseAssigned : bool;
  licenseAssignmentStatus : string;
  newLicenses : string;
  error : option string
}.

Definition set_suspended v r :=
  let '(mkResult a b c d e _ g h i j k l m) := r in mkResult a b c d e v g h i j k l m.
Definition set_suspensionStatus v r :=
  let '(mkResult a b c d e f _ h i j k l m) := r in mkResult a b c d e f v h i j k l m.
Definition set_licenseRemoved v r :=
  let '(mkResult a b c d e f g _ i j k l m) := r in mkResult a b c d e f g v i j k l m.
Definition set_licenseRemovalStatus v r :=
  let '(mkResult a b c d e f g h _ j k l m) := r in mkResult a b c d e f g h v j k l m.
Definition set_licenseAssigned v r :=
  let '(mkResult a b c d e f g h i _ k l m) := r in mkResult a b c d e f g h i v k l m.
Definition set_licenseAssignmentStatus v r :=
  let '(mkResult a b c d e f g h i j _ l m) := r in mkResult a b c d e f g h i j v l m.
Definition set_newLicenses v r :=
  let '(mkResult a b c d e f g h i j k _ m) := r in mkResult a b c d e f g h i j k v m.
Definition set_error v r :=
  let '(mkResult a b c d e f g h i j k l _) := r in mkResult a b c d e f g h i j k l v.

(** [if (!result.error) result.error = e.message] *)
Definition keepFirstError (message : string) (r : Result) : Result :=
  if noError (error r) then set_error (Some message) r else r.

(** The object literal of lines 257-271. *)
Definition pendingResult (user : User) : Result :=
  {| email := primaryEmail user;
     name := match fullName user with Some n => n | None => "N/A" end;
     orgUnitPath := or_default (Directory.orgUnitPath user) "/";
     lastLoginTime := lastLoginCell (Directory.lastLoginTime user);
     originalLicenses := licenseString user;
     suspended := false;
     suspensionStatus := "Pending";
     licenseRemoved := false;
     licenseRemovalStatus := "Pending";
     licenseAssigned := false;
     licenseAssignmentStatus := "Pending";
     newLicenses := "";
     error := None |}.

(** The dry-run branch, lines 273-286. *)
Definition dryRunResult (cfg : Config) (result : Result) : Result :=
  let result := set_suspensionStatus "🔍 DRY RUN - Would suspend" result in
  let result :=
    set_licenseRemovalStatus
      ("🔍 DRY RUN - Would remove " +:+ getSkuName (TARGET_SKU_ID cfg)) result in
  if ASSIGN_CLOUD_IDENTITY_FREE cfg then
    set_newLicenses (getSkuName (CLOUD_IDENTITY_FREE_SKU_ID cfg))
      (set_licenseAssignmentStatus
         ("🔍 DRY RUN - Would assign " +:+ getSkuName (CLOUD_IDENTITY_FREE_SKU_ID cfg))
         result)
  else
    set_newLicenses "No license assigned"
      (set_licenseAssignmentStatus "ℹ️ Skipped (disabled in config)" result).

(** STEP 2, lines 307-322. *)
Definition removeStep (cfg : Config) (M : Mutators) (userEmail : string)
           (result : Result) : Result * list Call :=
  let call := CallRemove (PRODUCT_ID cfg) (TARGET_SKU_ID cfg) userEmail in
  match LicenseAssignments_remove M (PRODUCT_ID cfg) (TARGET_SKU_ID cfg) userEmail with
  | Returns _ =>
      (set_licenseRemovalStatus ("✅ Removed " +:+ getSkuName (TARGET_SKU_ID cfg))
         (set_licenseRemoved true result), [call])
  | Throws message =>
      (keepFirstError message
         (set_licenseRemovalStatus ("❌ Failed: " +:+ message) result), [call])
  end.

(** STEP 3, lines 324-349. *)
Definition assignStep (cfg : Config) (M : Mutators) (userEmail : string)
           (result : Result) : Result * list Call :=
  if ASSIGN_CLOUD_IDENTITY_FREE cfg then
    let call := CallInsert userEmail (PRODUCT_ID cfg) (CLOUD_IDENTITY_FREE_SKU_ID cfg) in
    match LicenseAssignments_insert M userEmail (PRODUCT_ID cfg)
            (CLOUD_IDENTITY_FREE_SKU_ID cfg) with
    | Returns _ =>
        (set_newLicenses (getSkuName (CLOUD_IDENTITY_FREE_SKU_ID cfg))
           (set_licenseAssignmentStatus
              ("✅ Assigned " +:+ getSkuName (CLOUD_IDENTITY_FREE_SKU_ID cfg))
              (set_licenseAssigned true result)), [call])
    | Throws message =>
        (set_newLicenses "License assignment failed"
           (keepFirstError message
              (set_licenseAssignmentStatus ("❌ Failed: " +:+ message) result)), [call])
    end
  else
    (set_newLicenses "No license assigned"
       (set_licenseAssignmentStatus "ℹ️ Skipped (disabled in config)" result), []).

(** The [forEach] callback of [suspendAndChangeLicenses]: the record it
    pushes and the mutating calls it makes, in order. *)
Definition processUser (cfg : Config) (M : Mutators) (user : User)
  : Result * list Call :=
  let userEmail := primaryEmail user in
  let result := pendingResult user in
  if DRY_RUN cfg then (dryRunResult cfg result, [])
  else
    (* STEP 1, lines 288-305 *)
    match Users_update M userEmail with
    | Throws message =>
        (set_error (Some message)
           (set_suspensionStatus ("❌ Failed: " +:+ message) result),
         [CallUpdate userEmail])
    | Returns _ =>
        let result :=
          set_suspensionStatus "✅ Successfully suspended" (set_suspended true result) in
        let '(result, removeCalls) := removeStep cfg M userEmail result in
        let '(result, assignCalls) := assignStep cfg M userEmail result in
        (result, CallUpdate userEmail :: removeCalls ++ assignCalls)
    end.

Fixpoint suspendAndChangeLicenses (cfg : Config) (M : Mutators) (users : list User)
  : list Result * list Call :=
  match users with
  | [] => ([], [])
  | user :: rest =>
      let '(result, calls) := processUser cfg M user in
      let '(results, trace) := suspendAndChangeLicenses cfg M rest in
      (result :: results, calls ++ trace)
  end.

(** "4. Apply safety limit", lines 192-196:
    [if (usersToProcess.length > MAX) usersToProcess.splice(MAX)]. *)
Definition applySafetyLimit (cfg : Config) (usersToProcess : list User) : list User :=
  if (MAX_SUSPEND_COUNT cfg <? length usersToProcess)%nat
  then take (MAX_SUSPEND_COUNT cfg) usersToProcess
  else usersToProcess.

(** Steps 4 and 5 of [suspendAndManageLicenses], from the candidate list
    [usersToProcess] that step 3 built: the processing results (the rows of
    the second sheet) and the mutating calls made. *)
Definition processCandidates (cfg : Config) (M : Mutators) (usersToProcess : list User)
  : list Result * list Call :=
  suspendAndChangeLicenses cfg M (applySafetyLimit cfg usersToProcess).

End ManageLicenses.

(* ------------------------------------------------------------------ *)
(** ** Suspend Inactive Eplus Users.js                                  *)
(* ------------------------------------------------------------------ *)

Module SuspendEplus.

Record Config : Type := mkConfig {
  DRY_RUN : bool;
  MAX_SUSPEND_COUNT : nat
}.

Definition CONFIG : Config := {| DRY_RUN := true; MAX_SUSPEND_COUNT := 50 |}.

Record Result : Type := mkResult {
  email : string;
  name : string;
  orgUnitPath : string;
  lastLoginTime : Cell;
  licenseString : option string;
  suspended : bool;
  status : string;
  error : option string
}.

(** The [forEach] callback of [suspendUsers], lines 246-285. *)
Definition suspendUser (cfg : Config) (M : Mutators) (user : User)
  : Result * list Call :=
  let userEmail := primaryEmail user in
  let result (suspended : bool) (status : string) (error : option string) :=
    {| email := userEmail;
       name := match fullName user with Some n => n | None => "N/A" end;
       orgUnitPath := or_default (Directory.orgUnitPath user) "/";
       lastLoginTime := lastLoginCell (Directory.lastLoginTime user);
       licenseString := Directory.licenseString user;
       suspended := suspended;
       status := status;
       error := error |} in
  if DRY_RUN cfg then (result false "🔍 DRY RUN - Would suspend" None, [])
  else
    match Users_update M userEmail with
    | Returns _ => (result true "✅ Successfully suspended" None, [CallUpdate userEmail])
    | Throws message =>
        (result false "❌ Failed to suspend" (Some message), [CallUpdate userEmail])
    end.

Fixpoint suspendUsers (cfg : Config) (M : Mutators) (users : list User)
  : list Result * list Call :=
  match users with
  | [] => ([], [])
  | user :: rest =>
      let '(result, calls) := suspendUser cfg M user in
      let '(results, trace) := suspendUsers cfg M rest in
      (result :: results, calls ++ trace)
  end.

(** "4. Apply safety limit", lines 183-187. *)
Definition applySafetyLimit (cfg : Config) (usersToSuspend : list User) : list User :=
  if (MAX_SUSPEND_COUNT cfg <? length usersToSuspend)%nat
  then take (MAX_SUSPEND_COUNT cfg) usersToSuspend
  else usersToSuspend.

Definition processCandidates (cfg : Config) (M : Mutators) (usersToSuspend : list User)
  : list Result * list Call :=
  suspendUsers cfg M (applySafetyLimit cfg usersToSuspend).

End SuspendEplus.


(* ================================================================== *)
(** * Platform: numbers, [parseInt], [toString], [slice], JSON         *)
(* ================================================================== *)

Module Num.

(** The numbers the audit computes with: an integer, or [NaN]. *)
Inductive JSNum : Type :=
| NaN
| Num (z : Z).

(** [a + b], [Math.min(a, b)] and [a >= b]: [NaN] is contagious and
    compares false. *)
Definition add (a b : JSNum) : JSNum :=
  match a, b with
  | Num x, Num y => Num (x + y)
  | _, _ => NaN
  end.

Definition Math_min (a b : JSNum) : JSNum :=
  match a, b with
  | Num x, Num y => Num (Z.min x y)
  | _, _ => NaN
  end.

Definition ge (a b : JSNum) : bool :=
  match a, b with
  | Num x, Num y => x >=? y
  | _, _ => false
  end.

Definition isWhiteSpace (c : ascii) : bool :=
  let n := nat_of_ascii c in
  ((n =? 32) || ((9 <=? n) && (n <=? 13)))%nat%bool.

Fixpoint trimStart (s : string) : string :=
  match s with
  | String c s' => if isWhiteSpace c then trimStart s' else s
  | EmptyString => EmptyString
  end.

(** The value of a character as a digit of a radix up to 36. *)
Definition digitValue (c : ascii) : option Z :=
  let n := nat_of_ascii c in
  if ((48 <=? n) && (n <=? 57))%nat%bool then Some (Z.of_nat (n - 48))
  else if ((97 <=? n) && (n <=? 122))%nat%bool then Some (Z.of_nat (n - 87))
  else if ((65 <=? n) && (n <=? 90))%nat%bool then Some (Z.of_nat (n - 55))
  else None.

(** The longest prefix of digits of the radix, as a number; [None] when
    that prefix is empty. *)
Fixpoint parseDigits (radix : Z) (s : string) (acc : Z) (seen : bool) : option Z :=
  let stop := if seen then Some acc else None in
  match s with
  | EmptyString => stop
  | String c s' =>
      match digitValue c with
      | Some d => if d <? radix then parseDigits radix s' (acc * radix + d) true else stop
      | None => stop
      end
  end.

(** [parseInt(s)] without a radix: leading white space, a sign, an
    optional [0x] prefix, then the longest run of digits; [NaN] when there
    is none. *)
Definition parseInt (s : string) : JSNum :=
  let s := trimStart s in
  let '(sign, s) :=
    match s with
    | String "-" r => (-1, r)
    | String "+" r => (1, r)
    | _ => (1, s)
    end in
  let '(radix, s) :=
    match s with
    | String "0" (String "x" r) => (16, r)
    | String "0" (String "X" r) => (16, r)
    | _ => (10, s)
    end in
  match parseDigits radix s 0 false with
  | Some v => Num (sign * v)
  | None => NaN
  end.

(** [n.toString()] *)
Definition natToString (n : nat) : string := NilZero.string_of_uint (Nat.to_uint n).

Definition toString (x : JSNum) : string :=
  match x with
  | NaN => "NaN"
  | Num z => if z <? 0 then "-" +:+ natToString (Z.to_nat (- z)) else natToString (Z.to_nat z)
  end.

(** [Array.prototype.slice(start, end)]: [NaN] counts as 0, a negative
    index counts from the end, and both are clamped to the array. *)
Definition toInteger (x : JSNum) : Z :=
  match x with
  | NaN => 0
  | Num z => z
  end.

Definition relativeIndex (len : nat) (k : Z) : nat :=
  if k <? 0 then Z.to_nat (Z.max (Z.of_nat len + k) 0)
  else Z.to_nat (Z.min k (Z.of_nat len)).

Definition slice {A : Type} (l : list A) (start finish : JSNum) : list A :=
  let from := relativeIndex (length l) (toInteger start) in
  let to := relativeIndex (length l) (toInteger finish) in
  take (to - from) (drop from l).

End Num.

Import Num.

(** [JSON.stringify] and [JSON.parse] at the type of the values a property
    holds.  [parse] answers [None] where [JSON.parse] throws a
    [SyntaxError]. *)
Record Codec (A : Type) : Type := mkCodec {
  stringify : A -> string;
  parse : string -> option A
}.
Arguments stringify {A} _ _.
Arguments parse {A} _ _.

(** What the audit relies on from the platform's JSON functions: a value
    that was stringified parses back to itself, and its text is not
    empty. *)
Definition Lawful {A : Type} (J : Codec A) : Prop :=
  forall a, parse J (stringify J a) = Some a /\ truthy (stringify J a) = true.

(** The text ['[]'] is the empty array. *)
Definition ParsesEmpty {A : Type} (J : Codec (list A)) : Prop :=
  parse J "[]" = Some [].

(* ================================================================== *)
(** * website/scripts/groups-batch.js                                   *)
(* ================================================================== *)

Module GroupsBatch.

Record Config : Type := mkConfig {
  BATCH_SIZE : nat;
  MAX_EXECUTION_TIME : Z        (* seconds *)
}.

Definition CONFIG : Config := {| BATCH_SIZE := 500; MAX_EXECUTION_TIME := 300 |}.

(** A group of the directory, with the fields the audit reads. *)
Record Group : Type := mkGroup {
  email : string;
  name : string;
  description : option string;
  directMembersCount : option Z;
  adminCreated : option bool
}.

Record Member : Type := mkMember {
  member_email : string
}.

(** An entry of the audit results, lines 112-121. *)
Record AuditResult : Type := mkAuditResult {
  groupName : string;
  groupEmail : string;
  res_description : string;
  res_directMembersCount : Z;
  res_adminCreated : bool;
  hasOwner : bool;
  hasManager : bool;
  missingRoles : string
}.

(** What one invocation meets: the answers of the directory, and the clock.
    [elapsed_ms i] is [new Date().getTime() - startTime] as read at the top
    of iteration [i] of the batch loop. *)
Record Env : Type := mkEnv {
  Groups_list : Listing Group;                        (* AdminDirectory.Groups.list *)
  Members_list : string -> string -> Listing Member;  (* AdminDirectory.Members.list(groupEmail, {roles}) *)
  elapsed_ms : nat -> Z
}.

(** The report the sink receives: [generateFinalReport(groups, totalGroupsScanned)]. *)
Record FinalReport : Type := mkReport {
  report_groups : list AuditResult;
  totalGroupsScanned : nat
}.

(** How an invocation ends: it returns, leaving the properties [props] and
    possibly having generated the final report; or an exception escapes
    it, with the properties as they were at that point. *)
Inductive RunResult : Type :=
| Finished (props : gmap string string) (report : option FinalReport)
| Raised (message : string) (props : gmap string string).

(** [response.members && response.members.length > 0] *)
Definition hasMembers (members : option (list Member)) : bool :=
  match members with
  | Some (_ :: _) => true
  | _ => false
  end.

(** The loop of [checkGroupHasRole], lines 295-314. *)
Fixpoint hasRoleIn (pages : Listing Member) : bool :=
  match pages with
  | Fails _ => false                       (* catch (e) { ...; return false; } *)
  | LastPage members => hasMembers members (* return true, or leave the loop and return false *)
  | MorePage members next => if hasMembers members then true else hasRoleIn next
  end.

Definition checkGroupHasRole (E : Env) (groupEmail role : string) : bool :=
  hasRoleIn (Members_list E groupEmail role).

(** [missingRoles.join(', ')] for the roles pushed at lines 108-110. *)
Definition joinMissingRoles (hasOwner hasManager : bool) : string :=
  match hasOwner, hasManager with
  | false, false => "OWNER, MANAGER"
  | false, true => "OWNER"
  | true, false => "MANAGER"
  | true, true => ""
  end.

(** Lines 102-122: the two role checks for a group, and the entry pushed
    when a role is missing. *)
Definition checkGroup (E : Env) (group : Group) : option AuditResult :=
  let hasOwner := checkGroupHasRole E (email group) "OWNER" in
  let hasManager := checkGroupHasRole E (email group) "MANAGER" in
  if (negb hasOwner || negb hasManager)%bool then
    Some {| groupName := name group;
            groupEmail := email group;
            res_description := or_default (description group) "N/A";
            res_directMembersCount :=
              match directMembersCount group with Some n => n | None => 0 end;
            res_adminCreated :=
              match adminCreated group with Some b => b | None => false end;
            hasOwner := hasOwner;
            hasManager := hasManager;
            missingRoles := joinMissingRoles hasOwner hasManager |}
  else None.

(** The [for] loop of lines 84-126 from iteration [i] on: [batchGroups] is
    what is left of the batch.  It yields [batchResults] and
    [currentIndex]. *)
Fixpoint processBatch (cfg : Config) (E : Env) (batchGroups : list Group) (i : nat)
         (batchResults : list AuditResult) (currentIndex : nat)
  : list AuditResult * nat :=
  match batchGroups with
  | [] => (batchResults, currentIndex)
  | group :: rest =>
      if elapsed_ms E i >? 1000 * MAX_EXECUTION_TIME cfg
      then (batchResults, currentIndex)      (* time limit reached: break *)
      else
        let currentIndex := S i in
        let batchResults :=
          match checkGroup E group with
          | Some entry => batchResults ++ [entry]
          | None => batchResults
          end in
        processBatch cfg E rest (S i) batchResults currentIndex
  end.

(** The fetch loop of [getAllGroups], lines 259-280. *)
Fixpoint collectGroups (pages : Listing Group) (groups : list Group) : list Group :=
  match pages with
  | Fails _ => groups
  | LastPage gs => groups ++ default [] gs
  | MorePage gs next => collectGroups next (groups ++ default [] gs)
  end.

(** [getAllGroups()]: the cached list when the property is there, else the
    fetched list, which is then cached. *)
Definition getAllGroups (JG : Codec (list Group)) (E : Env)
           (scriptProps : gmap string string)
  : Outcome (list Group) * gmap string string :=
  let fetch :=
    let groups := collectGroups (Groups_list E) [] in
    (Returns groups, <["groupsCache" := stringify JG groups]> scriptProps) in
  match scriptProps !! "groupsCache" with
  | Some cachedGroups =>
      if truthy cachedGroups then
        (match parse JG cachedGroups with
         | Some groups => Returns groups
         | None => Throws "SyntaxError"
         end, scriptProps)
      else fetch
  | None => fetch
  end.

(** Lines 66 and 180: [parseInt(scriptProps.getProperty('processedIndex') || '0')]. *)
Definition loadProcessedIndex (scriptProps : gmap string string) : JSNum :=
  parseInt (or_default (scriptProps !! "processedIndex") "0").

(** Lines 67 and 181: [JSON.parse(scriptProps.getProperty('auditResults') || '[]')];
    [None] when the parse throws. *)
Definition loadAuditResults (JR : Codec (list AuditResult))
           (scriptProps : gmap string string) : option (list AuditResult) :=
  parse JR (or_default (scriptProps !! "auditResults") "[]").

(** [auditGroupsWithoutOwners()] *)
Definition auditGroupsWithoutOwners (cfg : Config) (JG : Codec (list Group))
           (JR : Codec (list AuditResult)) (E : Env) (scriptProps : gmap string string)
  : RunResult :=
  match getAllGroups JG E scriptProps with
  | (Throws message, scriptProps) => Raised message scriptProps
  | (Returns allGroups, scriptProps) =>
      let totalGroups := length allGroups in
      let processedIndex := loadProcessedIndex scriptProps in
      match loadAuditResults JR scriptProps with
      | None => Raised "SyntaxError" scriptProps
      | Some allResults =>
          let batchStart := processedIndex in
          let batchEnd :=
            Math_min (add processedIndex (Num (Z.of_nat (BATCH_SIZE cfg))))
                     (Num (Z.of_nat totalGroups)) in
          let batchGroups := slice allGroups batchStart batchEnd in
          let '(batchResults, currentIndex) := processBatch cfg E batchGroups 0 [] 0 in
          let allResults := allResults ++ batchResults in
          let processedIndex := add batchStart (Num (Z.of_nat currentIndex)) in
          let scriptProps := <["processedIndex" := toString processedIndex]> scriptProps in
          let scriptProps := <["auditResults" := stringify JR allResults]> scriptProps in
          if ge processedIndex (Num (Z.of_nat totalGroups)) then
            Finished
              (delete "auditResults" (delete "processedIndex" scriptProps))
              (Some {| report_groups := allResults; totalGroupsScanned := totalGroups |})
          else Finished scriptProps None
      end
  end.

(** [resetAudit()] *)
Definition resetAudit (scriptProps : gmap string string) : gmap string string :=
  delete "groupsCache" (delete "auditResults" (delete "processedIndex" scriptProps)).

(** What [checkAuditProgress()] loads at lines 180-181; [None] when the
    parse of the results throws. *)
Definition checkAuditProgress (JR : Codec (list AuditResult))
           (scriptProps : gmap string string) : option (JSNum * list AuditResult) :=
  match loadAuditResults JR scriptProps with
  | Some allResults => Some (loadProcessedIndex scriptProps, allResults)
  | None => None
  end.

(** Successive invocations, each with its own environment, on the
    properties the previous one left. *)
Fixpoint auditRuns (cfg : Config) (JG : Codec (list Group))
         (JR : Codec (list AuditResult)) (envs : list Env)
         (scriptProps : gmap string string) : list RunResult :=
  match envs with
  | [] => []
  | E :: rest =>
      let r := auditGroupsWithoutOwners cfg JG JR E scriptProps in
      r :: auditRuns cfg JG JR rest
             match r with
             | Finished props _ => props
             | Raised _ props => props
             end
  end.

End GroupsBatch.


(* ================================================================== *)
(** * A reference codec                                                 *)
(* ================================================================== *)

(** The theorems about the audit hold for every codec that is [Lawful];
    the platform's JSON functions are one.  To run the audit inside Rocq
    a codec is needed that computes.  This one writes an array between
    brackets as its length followed by its elements, field after field: a
    number in unary, a text as its length and its characters, an optional
    field after a mark.  The empty array is ['[]']. *)

Module RefCodec.

Import GroupsBatch.

(** A format writes a value in front of a text and reads it back off. *)
Record Fmt (A : Type) : Type := mkFmt {
  put : A -> string -> string;
  get : string -> option (A * string)
}.
Arguments put {A} _ _ _.
Arguments get {A} _ _.

Fixpoint put_nat (n : nat) (rest : string) : string :=
  match n with
  | O => String "0" rest
  | S m => String "1" (put_nat m rest)
  end.

Fixpoint get_nat (s : string) : option (nat * string) :=
  match s with
  | EmptyString => None
  | String c r =>
      if Ascii.eqb c "0" then Some (O, r)
      else if Ascii.eqb c "1" then
        match get_nat r with
        | Some (n, r') => Some (S n, r')
        | None => None
        end
      else None
  end.

Definition fmt_nat : Fmt nat := {| put := put_nat; get := get_nat |}.

Definition fmt_Z : Fmt Z :=
  {| put := fun (z : Z) rest =>
       String (if z <? 0 then "-"%char else "+"%char) (put_nat (Z.abs_nat z) rest);
     get := fun s =>
       match s with
       | EmptyString => None
       | String c r =>
           match get_nat r with
           | Some (n, r') =>
               if Ascii.eqb c "-" then Some (- Z.of_nat n, r')
               else if Ascii.eqb c "+" then Some (Z.of_nat n, r')
               else None
           | None => None
           end
       end |}.

Definition fmt_bool : Fmt bool :=
  {| put := fun (b : bool) rest => String (if b then "t"%char else "f"%char) rest;
     get := fun s =>
       match s with
       | EmptyString => None
       | String c r =>
           if Ascii.eqb c "t" then Some (true, r)
           else if Ascii.eqb c "f" then Some (false, r)
           else None
       end |}.

Fixpoint take_chars (n : nat) (s : string) : option (string * string) :=
  match n with
  | O => Some (EmptyString, s)
  | S m =>
      match s with
      | EmptyString => None
      | String c r =>
          match take_chars m r with
          | Some (a, b) => Some (String c a, b)
          | None => None
          end
      end
  end.

Definition fmt_string : Fmt string :=
  {| put := fun s rest => put_nat (String.length s) (s +:+ rest);
     get := fun s =>
       match get_nat s with
       | Some (n, r) => take_chars n r
       | None => None
       end |}.

Definition fmt_option {A : Type} (F : Fmt A) : Fmt (option A) :=
  {| put := fun x rest =>
       match x with
       | Some a => String "S" (put F a rest)
       | None => String "N" rest
       end;
     get := fun s =>
       match s with
       | EmptyString => None
       | String c r =>
           if Ascii.eqb c "N" then Some (None, r)
           else if Ascii.eqb c "S" then
             match get F r with
             | Some (a, r') => Some (Some a, r')
             | None => None
             end
           else None
       end |}.

Definition fmt_pair {A B : Type} (F : Fmt A) (F' : Fmt B) : Fmt (A * B) :=
  {| put := fun x rest => put F (fst x) (put F' (snd x) rest);
     get := fun s =>
       match get F s with
       | Some (a, r) =>
           match get F' r with
           | Some (b, r') => Some ((a, b), r')
           | None => None
           end
       | None => None
       end |}.

(** A format carried along a pair of conversions. *)
Definition fmt_map {A B : Type} (to : B -> A) (from : A -> B) (F : Fmt A) : Fmt B :=
  {| put := fun b rest => put F (to b) rest;
     get := fun s =>
       match get F s with
       | Some (a, r) => Some (from a, r)
       | None => None
       end |}.

Fixpoint get_n {A : Type} (F : Fmt A) (n : nat) (s : string) : option (list A * string) :=
  match n with
  | O => Some ([], s)
  | S m =>
      match get F s with
      | Some (a, r) =>
          match get_n F m r with
          | Some (l, r') => Some (a :: l, r')
          | None => None
          end
      | None => None
      end
  end.

Definition fmt_list {A : Type} (F : Fmt A) : Fmt (list A) :=
  {| put := fun l rest => put_nat (length l) (fold_right (put F) rest l);
     get := fun s =>
       match get_nat s with
       | Some (n, r) => get_n F n r
       | None => None
       end |}.

Definition fmt_Group : Fmt Group :=
  fmt_map
    (fun g => (email g, (name g, (description g, (directMembersCount g, adminCreated g)))))
    (fun t => let '(a, (b, (c, (d, e)))) := t in mkGroup a b c d e)
    (fmt_pair fmt_string
       (fmt_pair fmt_string
          (fmt_pair (fmt_option fmt_string)
             (fmt_pair (fmt_option fmt_Z) (fmt_option fmt_bool))))).

Definition fmt_AuditResult : Fmt AuditResult :=
  fmt_map
    (fun r => (groupName r, (groupEmail r, (res_description r,
               (res_directMembersCount r, (res_adminCreated r,
               (hasOwner r, (hasManager r, missingRoles r))))))))
    (fun t => let '(a, (b, (c, (d, (e, (f, (g, h))))))) := t in
              mkAuditResult a b c d e f g h)
    (fmt_pair fmt_string
       (fmt_pair fmt_string
          (fmt_pair fmt_string
             (fmt_pair fmt_Z
                (fmt_pair fmt_bool
                   (fmt_pair fmt_bool (fmt_pair fmt_bool fmt_string))))))).

(** The codec of the arrays of a format. *)
Definition codec {A : Type} (F : Fmt A) : Codec (list A) :=
  {| stringify := fun l =>
       match l with
       | [] => "[]"
       | _ => String "[" (put (fmt_list F) l EmptyString)
       end;
     parse := fun s =>
       if String.eqb s "[]" then Some []
       else match s with
            | String c r =>
                if Ascii.eqb c "[" then
                  match get (fmt_list F) r with
                  | Some (l, EmptyString) => Some l
                  | _ => None
                  end
                else None
            | EmptyString => None
            end |}.

(** Reading back what was written yields the value and the text that
    followed it. *)
Definition fmt_law {A : Type} (F : Fmt A) : Prop :=
  forall a rest, get F (put F a rest) = Some (a, rest).

Definition JG : Codec (list Group) := codec fmt_Group.
Definition JR : Codec (list AuditResult) := codec fmt_AuditResult.

End RefCodec.

(* ================================================================== *)
(** * Vocabulary of the properties, and sample inputs                   *)
(* ================================================================== *)

(** The users a directory listing yields to the loop, up to the first
    request that throws. *)
Fixpoint listedUsers (pages : Listing User) : list User :=
  match pages with
  | Fails _ => []
  | LastPage us => default [] us
  | MorePage us next => default [] us ++ listedUsers next
  end.

(** The effective last login in the words of the specification: the later
    of the most recent login event found in the window and the directory's
    own field; absent when both are. *)
Definition effectiveLastLogin (reports directory : option Z) : option Z :=
  match reports, directory with
  | Some r, Some d => Some (Z.max r d)
  | Some r, None => Some r
  | None, d => d
  end.

(** The user a mutating call acts on. *)
Definition callUser (c : Call) : string :=
  match c with
  | CallUpdate userKey => userKey
  | CallRemove _ _ userId => userId
  | CallInsert userId _ _ => userId
  end.

(** What a dry-run record of the license executor says. *)
Definition dryRunRecord (cfg : ManageLicenses.Config) (r : ManageLicenses.Result) : Prop :=
  ManageLicenses.suspended r = false
  /\ ManageLicenses.licenseRemoved r = false
  /\ ManageLicenses.licenseAssigned r = false
  /\ ManageLicenses.error r = None
  /\ ManageLicenses.suspensionStatus r = "🔍 DRY RUN - Would suspend"
  /\ ManageLicenses.licenseRemovalStatus r
     = "🔍 DRY RUN - Would remove " +:+ getSkuName (ManageLicenses.TARGET_SKU_ID cfg)
  /\ ManageLicenses.licenseAssignmentStatus r
     = (if ManageLicenses.ASSIGN_CLOUD_IDENTITY_FREE cfg
        then "🔍 DRY RUN - Would assign "
             +:+ getSkuName (ManageLicenses.CLOUD_IDENTITY_FREE_SKU_ID cfg)
        else "ℹ️ Skipped (disabled in config)").

(** The message of a step, when the step threw. *)
Definition failure (outcome : Outcome unit) : list string :=
  match outcome with
  | Returns _ => []
  | Throws message => [message]
  end.

(** The error a record retains from the messages of the steps that
    failed, in the order of the steps: the first message that is not
    empty; when every message is empty, the last one; none when no step
    failed. *)
Fixpoint retainedError (messages : list string) : option string :=
  match messages with
  | [] => None
  | message :: rest =>
      if truthy message then Some message
      else match retainedError rest with
           | Some later => Some later
           | None => Some message
           end
  end.

(** What the license executor leaves for one user, by the outcome of its
    steps.  [r] is the record pushed, [calls] the mutating calls made.
    Every status field of the record is said, for every outcome of the
    three calls. *)
Definition stepwise (cfg : ManageLicenses.Config) (M : Mutators) (user : User)
           (r : ManageLicenses.Result) (calls : list Call) : Prop :=
  let e := primaryEmail user in
  let removeCall :=
    CallRemove (ManageLicenses.PRODUCT_ID cfg) (ManageLicenses.TARGET_SKU_ID cfg) e in
  let insertCall :=
    CallInsert e (ManageLicenses.PRODUCT_ID cfg) (ManageLicenses.CLOUD_IDENTITY_FREE_SKU_ID cfg) in
  let removal :=
    LicenseAssignments_remove M (ManageLicenses.PRODUCT_ID cfg)
      (ManageLicenses.TARGET_SKU_ID cfg) e in
  let assignment :=
    LicenseAssignments_insert M e (ManageLicenses.PRODUCT_ID cfg)
      (ManageLicenses.CLOUD_IDENTITY_FREE_SKU_ID cfg) in
  match Users_update M e with
  | Throws m =>
      (* the suspension failed: no license call, the later steps stay pending *)
      calls = [CallUpdate e]
      /\ ManageLicenses.suspended r = false
      /\ ManageLicenses.suspensionStatus r = "❌ Failed: " +:+ m
      /\ ManageLicenses.licenseRemoved r = false
      /\ ManageLicenses.licenseRemovalStatus r = "Pending"
      /\ ManageLicenses.licenseAssigned r = false
      /\ ManageLicenses.licenseAssignmentStatus r = "Pending"
      /\ ManageLicenses.newLicenses r = EmptyString
      /\ ManageLicenses.error r = Some m
  | Returns _ =>
      ManageLicenses.suspended r = true
      /\ ManageLicenses.suspensionStatus r = "✅ Successfully suspended"
      /\ calls = CallUpdate e :: removeCall
                 :: (if ManageLicenses.ASSIGN_CLOUD_IDENTITY_FREE cfg then [insertCall] else [])
      (* the removal step *)
      /\ match removal with
         | Throws m =>
             ManageLicenses.licenseRemoved r = false
             /\ ManageLicenses.licenseRemovalStatus r = "❌ Failed: " +:+ m
         | Returns _ =>
             ManageLicenses.licenseRemoved r = true
             /\ ManageLicenses.licenseRemovalStatus r
                = "✅ Removed " +:+ getSkuName (ManageLicenses.TARGET_SKU_ID cfg)
         end
      (* the assignment step, attempted whatever the removal did *)
      /\ (if ManageLicenses.ASSIGN_CLOUD_IDENTITY_FREE cfg then
            match assignment with
            | Throws m =>
                ManageLicenses.licenseAssigned r = false
                /\ ManageLicenses.licenseAssignmentStatus r = "❌ Failed: " +:+ m
                /\ ManageLicenses.newLicenses r = "License assignment failed"
            | Returns _ =>
                ManageLicenses.licenseAssigned r = true
                /\ ManageLicenses.licenseAssignmentStatus r
                   = "✅ Assigned "
                     +:+ getSkuName (ManageLicenses.CLOUD_IDENTITY_FREE_SKU_ID cfg)
                /\ ManageLicenses.newLicenses r
                   = getSkuName (ManageLicenses.CLOUD_IDENTITY_FREE_SKU_ID cfg)
            end
          else
            ManageLicenses.licenseAssigned r = false
            /\ ManageLicenses.licenseAssignmentStatus r = "ℹ️ Skipped (disabled in config)"
            /\ ManageLicenses.newLicenses r = "No license assigned")
      (* the error retained from the steps that failed *)
      /\ ManageLicenses.error r
         = retainedError
             (failure removal
              ++ (if ManageLicenses.ASSIGN_CLOUD_IDENTITY_FREE cfg
                  then failure assignment else []))
  end.

(** A property of the store is missing: it is absent, or empty. *)
Definition missing (x : option string) : Prop := x = None \/ x = Some EmptyString.

(** The loop of [checkGroupHasRole] reaches a request that throws: the
    pages answered before it carried no member. *)
Fixpoint reachesThrow (pages : Listing GroupsBatch.Member) : Prop :=
  match pages with
  | Fails _ => True
  | LastPage _ => False
  | MorePage members next => GroupsBatch.hasMembers members = false /\ reachesThrow next
  end.

(** The environment in which the listing for [groupEmail] and [role]
    answers one page without members: the group has no such member. *)
Definition withNoMembers (E : GroupsBatch.Env) (groupEmail role : string) : GroupsBatch.Env :=
  {| GroupsBatch.Groups_list := GroupsBatch.Groups_list E;
     GroupsBatch.Members_list := fun g r =>
       if (String.eqb g groupEmail && String.eqb r role)%bool
       then LastPage (Some [])
       else GroupsBatch.Members_list E g r;
     GroupsBatch.elapsed_ms := GroupsBatch.elapsed_ms E |}.

(** What a sequence of runs of the audit over the cached list [G] looks
    like, from the properties [props]: every run returns; a run that does
    not generate the report leaves an index that has not decreased and is
    within the list, and results that extend the previous ones; a run that
    generates the report passes it the previous results extended, and
    leaves neither index nor results. *)
Inductive CycleRuns (JR : Codec (list GroupsBatch.AuditResult)) (G : list GroupsBatch.Group)
  : gmap string string -> list GroupsBatch.RunResult -> Prop :=
| cycle_end props : CycleRuns JR G props []
| cycle_batch props props' (n n' : nat) rs rs' rest :
    GroupsBatch.loadProcessedIndex props = Num (Z.of_nat n) ->
    GroupsBatch.loadAuditResults JR props = Some rs ->
    GroupsBatch.loadProcessedIndex props' = Num (Z.of_nat n') ->
    GroupsBatch.loadAuditResults JR props' = Some rs' ->
    (n <= n' <= length G)%nat ->
    rs `prefix_of` rs' ->
    CycleRuns JR G props' rest ->
    CycleRuns JR G props (GroupsBatch.Finished props' None :: rest)
| cycle_flush props props' (n : nat) rs batch rest :
    GroupsBatch.loadProcessedIndex props = Num (Z.of_nat n) ->
    GroupsBatch.loadAuditResults JR props = Some rs ->
    props' !! "processedIndex" = None ->
    props' !! "auditResults" = None ->
    CycleRuns JR G props' rest ->
    CycleRuns JR G props
      (GroupsBatch.Finished props'
         (Some {| GroupsBatch.report_groups := rs ++ batch;
                  GroupsBatch.totalGroupsScanned := length G |}) :: rest).

(** The list the first of a sequence of runs fetches when the properties
    hold no cached list. *)
Definition fetchedBy (envs : list GroupsBatch.Env) : list GroupsBatch.Group :=
  match envs with
  | E :: _ => GroupsBatch.collectGroups (GroupsBatch.Groups_list E) []
  | [] => []
  end.

(** [G] is the list a sequence of runs works on: the one cached in the
    properties, or, when none is cached, the one the first run fetches and
    caches. *)
Definition CycleList (JG : Codec (list GroupsBatch.Group)) (G : list GroupsBatch.Group)
           (envs : list GroupsBatch.Env) (props : gmap string string) : Prop :=
  props !! "groupsCache" = Some (stringify JG G)
  \/ (missing (props !! "groupsCache") /\ G = fetchedBy envs).

(** ** Sample inputs *)


(** The scenarios of the classifier: the run is at [day 1000], the cutoff
    180 days before.  [userA] logged in 5 days ago according to the Reports
    API; [userB] is unknown to it and logged in 400 days ago according to
    the directory; [userC] was never seen by either. *)
Definition day (n : Z) : Z := n * (24 * 60 * 60 * 1000).
Definition scenarioUser (e : string) (directoryLogin : option Z) : User :=
  {| primaryEmail := e; fullName := None; orgUnitPath := None;
     lastLoginTime := directoryLogin; creationTime := 0; suspended := false;
     isAdmin := false; isDelegatedAdmin := false; licenseString := None |}.
Definition userA : User := scenarioUser "A@example.com" (Some (day 700)).
Definition userB : User := scenarioUser "B@example.com" (Some (day 600)).
Definition userC : User := scenarioUser "C@example.com" None.
Definition scenarioLogins : gmap string Z := {[ "a@example.com" := day 995 ]}.

(** Two candidates for the executors; providers that suspend everyone,
    refuse to remove a license and assign one; providers that refuse to
    suspend ann and refuse every license call; providers that refuse to
    suspend ann. *)
Definition ann : User :=
  {| primaryEmail := "ann@example.com"; fullName := Some "Ann";
     orgUnitPath := Some "/Sales"; lastLoginTime := None;
     creationTime := 1600000000000; suspended := false; isAdmin := false;
     isDelegatedAdmin := false; licenseString := Some "Enterprise Plus" |}.
Definition bob : User :=
  {| primaryEmail := "bob@example.com"; fullName := None;
     orgUnitPath := None; lastLoginTime := Some 1650000000000;
     creationTime := 1600000000000; suspended := false; isAdmin := false;
     isDelegatedAdmin := false; licenseString := Some "Enterprise Plus" |}.
Definition removalRefused : Mutators :=
  {| Users_update := fun _ => Returns tt;
     LicenseAssignments_remove := fun _ _ _ => Throws "Quota exceeded";
     LicenseAssignments_insert := fun _ _ _ => Returns tt |}.
Definition licenseCallsRefused : Mutators :=
  {| Users_update := fun u => if String.eqb u "ann@example.com"
                              then Throws "Not Authorized" else Returns tt;
     LicenseAssignments_remove := fun _ _ _ => Throws "Quota exceeded";
     LicenseAssignments_insert := fun _ _ _ => Throws "No seats left" |}.
Definition suspendRefusedForAnn : Mutators :=
  {| Users_update := fun u => if String.eqb u "ann@example.com"
                              then Throws "Not Authorized" else Returns tt;
     LicenseAssignments_remove := fun _ _ _ => Returns tt;
     LicenseAssignments_insert := fun _ _ _ => Returns tt |}.
Definition assigning : ManageLicenses.Config :=
  {| ManageLicenses.TARGET_SKU_ID := "1010020020";
     ManageLicenses.CLOUD_IDENTITY_FREE_SKU_ID := "1010010001";
     ManageLicenses.PRODUCT_ID := "Google-Apps";
     ManageLicenses.DRY_RUN := false;
     ManageLicenses.ASSIGN_CLOUD_IDENTITY_FREE := true;
     ManageLicenses.MAX_SUSPEND_COUNT := 50 |}.
Definition dryRun : ManageLicenses.Config :=
  {| ManageLicenses.TARGET_SKU_ID := "1010020020";
     ManageLicenses.CLOUD_IDENTITY_FREE_SKU_ID := "1010010001";
     ManageLicenses.PRODUCT_ID := "Google-Apps";
     ManageLicenses.DRY_RUN := true;
     ManageLicenses.ASSIGN_CLOUD_IDENTITY_FREE := true;
     ManageLicenses.MAX_SUSPEND_COUNT := 50 |}.

(** Five groups for the audit.  The directory answers them in two pages;
    [staff] has an owner and a manager, the members of [ops] cannot be
    listed, the others have no member with either role. *)
Definition grp (e n : string) : GroupsBatch.Group :=
  {| GroupsBatch.email := e; GroupsBatch.name := n; GroupsBatch.description := None;
     GroupsBatch.directMembersCount := Some 3; GroupsBatch.adminCreated := Some true |}.
Definition fiveGroups : list GroupsBatch.Group :=
  [ grp "staff@example.com" "Staff"; grp "ops@example.com" "Ops";
    grp "sales@example.com" "Sales"; grp "legal@example.com" "Legal";
    grp "hr@example.com" "HR" ].
Definition domain : GroupsBatch.Env :=
  {| GroupsBatch.Groups_list :=
       MorePage (Some (take 3 fiveGroups)) (LastPage (Some (drop 3 fiveGroups)));
     GroupsBatch.Members_list := fun g _ =>
       if String.eqb g "staff@example.com"
       then LastPage (Some [ {| GroupsBatch.member_email := "kim@example.com" |} ])
       else if String.eqb g "ops@example.com"
       then Fails "Service unavailable"
       else LastPage None;
     GroupsBatch.elapsed_ms := fun i => 1000 * Z.of_nat i |}.
Definition batchesOfTwo : GroupsBatch.Config :=
  {| GroupsBatch.BATCH_SIZE := 2; GroupsBatch.MAX_EXECUTION_TIME := 300 |}.
Definition cachedFive : gmap string string :=
  {[ "groupsCache" := stringify RefCodec.JG fiveGroups ]}.


(* ================================================================== *)
(** * Further functions of the scripts                                  *)
(* ================================================================== *)

(** The items a paginated listing yields to its loop, page after page, up
    to the first request that throws. *)
Fixpoint itemsRead {A : Type} (pages : Listing A) : list A :=
  match pages with
  | Fails _ => []
  | LastPage items => default [] items
  | MorePage items next => default [] items ++ itemsRead next
  end.

(** [names.join(sep)] *)
Fixpoint join (sep : string) (names : list string) : string :=
  match names with
  | [] => EmptyString
  | x :: rest =>
      match rest with
      | [] => x
      | _ :: _ => x +:+ sep +:+ join sep rest
      end
  end.

(** [user.licenseString = s] *)
Definition set_licenseString (s : option string) (u : User) : User :=
  {| primaryEmail := primaryEmail u; fullName := fullName u;
     orgUnitPath := orgUnitPath u; lastLoginTime := lastLoginTime u;
     creationTime := creationTime u; suspended := suspended u;
     isAdmin := isAdmin u; isDelegatedAdmin := isDelegatedAdmin u;
     licenseString := s |}.

(** [AdminDirectory.Customers.get('my_customer')] inside its [try]: the
    canonical customer id, or ['my_customer'] when the call throws. *)
Definition canonicalCustomerId (Customers_get : Outcome string) : string :=
  match Customers_get with
  | Returns id => id
  | Throws _ => "my_customer"
  end.

(* ------------------------------------------------------------------ *)
(** ** getAllLicenseAssignments (the same text in every script)         *)
(* ------------------------------------------------------------------ *)

Module Licensing.

(** An item of [LicenseAssignments.listForProduct]. *)
Record Assignment : Type := mkAssignment {
  userId : string;
  skuId : string;
  skuName : option string
}.

(** An entry of the license map: [{skuId, skuName}]. *)
Record License : Type := mkLicense {
  lic_skuId : string;
  lic_skuName : string
}.

Definition toLicense (item : Assignment) : License :=
  {| lic_skuId := skuId item;
     lic_skuName := or_default (skuName item) (getSkuName (skuId item)) |}.

(** The [forEach] callback: create the user's array when there is none,
    then push.  The keys are mail addresses; none of them names a property
    that a JavaScript object inherits. *)
Definition recordAssignment (licenseMap : gmap string (list License)) (item : Assignment)
  : gmap string (list License) :=
  let userEmail := toLowerCase (userId item) in
  let licenseMap :=
    match licenseMap !! userEmail with
    | Some _ => licenseMap
    | None => <[userEmail := []]> licenseMap
    end in
  alter (fun licenses => licenses ++ [toLicense item]) userEmail licenseMap.

Definition recordItems (licenseMap : gmap string (list License))
           (items : option (list Assignment)) : gmap string (list License) :=
  match items with
  | Some l => fold_left recordAssignment l licenseMap
  | None => licenseMap
  end.

(** The [do ... while (pageToken)] loop; a request that throws breaks out
    of it and the map built so far is returned. *)
Fixpoint collectLicenses (pages : Listing Assignment)
         (licenseMap : gmap string (list License)) : gmap string (list License) :=
  match pages with
  | Fails _ => licenseMap
  | LastPage items => recordItems licenseMap items
  | MorePage items next => collectLicenses next (recordItems licenseMap items)
  end.

Definition getAllLicenseAssignments
           (listForProduct : string -> string -> Listing Assignment)
           (productId customerId : string) : gmap string (list License) :=
  collectLicenses (listForProduct productId customerId) ∅.

(** [userLicenses.map(l => getSkuName(l.skuId)).join(', ')] *)
Definition licenseNames (userLicenses : list License) : string :=
  join ", " (map (fun l => getSkuName (lic_skuId l)) userLicenses).

(** [userLicenses.some(l => l.skuId === TARGET_SKU_ID)] *)
Definition hasTarget (TARGET_SKU_ID : string) (userLicenses : list License) : bool :=
  existsb (fun l => String.eqb (lic_skuId l) TARGET_SKU_ID) userLicenses.

End Licensing.

(* ------------------------------------------------------------------ *)
(** ** shouldExcludeUser and getExclusionReason (both suspension scripts) *)
(* ------------------------------------------------------------------ *)

Module Exclusion.

(** The exclusion settings of [CONFIG]. *)
Record Rules : Type := mkRules {
  EXCLUDED_OU_PATHS : list string;
  EXCLUDE_ADMINS : bool
}.

(** The rules the scripts ship with. *)
Definition shipped : Rules :=
  {| EXCLUDED_OU_PATHS := ["/LH - legal hold"]; EXCLUDE_ADMINS := true |}.

(** [user.orgUnitPath || '/'] *)
Definition userOU (user : User) : string := or_default (orgUnitPath user) "/".

(** [shouldExcludeUser(user)]; [userOU.startsWith(excludedOU)] is
    [String.prefix excludedOU userOU]. *)
Definition shouldExcludeUser (R : Rules) (user : User) : bool :=
  if (EXCLUDE_ADMINS R && (isAdmin user || isDelegatedAdmin user))%bool then true
  else if (0 <? length (EXCLUDED_OU_PATHS R))%nat then
    if existsb (fun excludedOU => String.prefix excludedOU (userOU user))
               (EXCLUDED_OU_PATHS R)
    then true else false
  else false.

(** [getExclusionReason(user)]; [if (matchedOU)] holds of a matched path
    that is not the empty text. *)
Definition getExclusionReason (R : Rules) (user : User) : string :=
  if (EXCLUDE_ADMINS R && (isAdmin user || isDelegatedAdmin user))%bool then "Admin user"
  else
    let byPath :=
      if (0 <? length (EXCLUDED_OU_PATHS R))%nat then
        match find (fun excludedOU => String.prefix excludedOU (userOU user))
                   (EXCLUDED_OU_PATHS R) with
        | Some matchedOU =>
            if truthy matchedOU then Some ("In excluded OU: " +:+ matchedOU) else None
        | None => None
        end
      else None in
    match byPath with
    | Some reason => reason
    | None => "Unknown"
    end.

End Exclusion.

(* ------------------------------------------------------------------ *)
(** ** Step 3 of the suspension scripts: licenses and candidates        *)
(* ------------------------------------------------------------------ *)

Module Selection.

Import Licensing Exclusion.

(** An inactive user after step 3: the user object with [licenseString]
    attached, and the fields [hasTargetLicense], [excluded] and
    [exclusionReason] the step sets on it. *)
Record Inactive : Type := mkInactive {
  inactiveUser : User;
  hasTargetLicense : bool;
  excluded : bool;
  exclusionReason : option string
}.

(** The [forEach] callback of step 3: the user as annotated, and the user
    pushed on the candidate list, if any. *)
Definition attachLicenses (TARGET_SKU_ID : string) (R : Rules)
           (licenseMap : gmap string (list License)) (u : User)
  : Inactive * option User :=
  let userEmail := toLowerCase (primaryEmail u) in
  match licenseMap !! userEmail with
  | Some userLicenses =>
      let u := set_licenseString (Some (licenseNames userLicenses)) u in
      let target := hasTarget TARGET_SKU_ID userLicenses in
      if (target && negb (suspended u))%bool then
        if shouldExcludeUser R u then
          ({| inactiveUser := u; hasTargetLicense := target; excluded := true;
              exclusionReason := Some (getExclusionReason R u) |}, None)
        else
          ({| inactiveUser := u; hasTargetLicense := target; excluded := false;
              exclusionReason := None |}, Some u)
      else
        ({| inactiveUser := u; hasTargetLicense := target; excluded := false;
            exclusionReason := None |}, None)
  | None =>
      ({| inactiveUser := set_licenseString (Some "No licenses") u; hasTargetLicense := false;
          excluded := false; exclusionReason := None |}, None)
  end.

(** Step 3 over the inactive users: all of them as annotated, and the
    candidate list in the order of the pushes. *)
Definition selectCandidates (TARGET_SKU_ID : string) (R : Rules)
           (licenseMap : gmap string (list License)) (inactiveUsers : list User)
  : list Inactive * list User :=
  (map (fun u => fst (attachLicenses TARGET_SKU_ID R licenseMap u)) inactiveUsers,
   omap (fun u => snd (attachLicenses TARGET_SKU_ID R licenseMap u)) inactiveUsers).

(** A row of the first sheet, "All Inactive Users". *)
Record Sheet1Row : Type := mkSheet1Row {
  s1_name : string;
  s1_email : string;
  s1_orgUnitPath : string;
  s1_lastLogin : Cell;
  s1_creationTime : Z;
  s1_suspended : string;
  s1_licenses : string;
  s1_hasTargetLicense : string;
  s1_excluded : string;
  s1_exclusionReason : string
}.

Definition yesNo (b : bool) : string := if b then "Yes" else "No".

Definition sheet1Row (i : Inactive) : Sheet1Row :=
  {| s1_name := match fullName (inactiveUser i) with Some n => n | None => "N/A" end;
     s1_email := primaryEmail (inactiveUser i);
     s1_orgUnitPath := or_default (orgUnitPath (inactiveUser i)) "/";
     s1_lastLogin := lastLoginCell (lastLoginTime (inactiveUser i));
     s1_creationTime := creationTime (inactiveUser i);
     s1_suspended := yesNo (suspended (inactiveUser i));
     s1_licenses := or_default (licenseString (inactiveUser i)) "No licenses";
     s1_hasTargetLicense := yesNo (hasTargetLicense i);
     s1_excluded := yesNo (excluded i);
     s1_exclusionReason := or_default (exclusionReason i) EmptyString |}.

End Selection.

(* ------------------------------------------------------------------ *)
(** ** The main functions of the two suspension scripts                 *)
(* ------------------------------------------------------------------ *)

(** What the read-only providers answer during one run. *)
Record Services : Type := mkServices {
  Customers_get : Outcome string;                                              (* AdminDirectory.Customers.get('my_customer').id *)
  listForProduct : string -> string -> Listing Licensing.Assignment;          (* LicenseAssignments.listForProduct(productId, customerId) *)
  providers : Providers
}.

Module ManageLicensesMain.

Import Licensing Exclusion Selection.

(** The exclusion settings of the file's [CONFIG]. *)
Definition RULES : Rules :=
  {| EXCLUDED_OU_PATHS := ["/LH - legal hold"]; EXCLUDE_ADMINS := true |}.

(** What [exportLicenseManagementReport] writes: the data rows of the two
    sheets. *)
Record Report : Type := mkReport {
  sheet1 : list Sheet1Row;
  sheet2 : list ManageLicenses.Result
}.

(** The counts of [sendLicenseManagementEmailReport], lines 691-694. *)
Record Summary : Type := mkSummary {
  totalInactiveCount : nat;
  successfulSuspensions : nat;
  successfulRemovals : nat;
  successfulAssignments : nat;
  failCount : nat
}.

Definition summary (totalInactiveCount : nat)
           (processingResults : list ManageLicenses.Result) : Summary :=
  {| totalInactiveCount := totalInactiveCount;
     successfulSuspensions := length (filter (fun r => ManageLicenses.suspended r = true) processingResults);
     successfulRemovals := length (filter (fun r => ManageLicenses.licenseRemoved r = true) processingResults);
     successfulAssignments := length (filter (fun r => ManageLicenses.licenseAssigned r = true) processingResults);
     failCount := length (filter (fun r => noError (ManageLicenses.error r) = false) processingResults) |}.

(** [suspendAndManageLicenses()], run at [now] with the cutoff
    [inactiveDate]: the report written, if any, and the mutating calls
    made. *)
Definition suspendAndManageLicenses (cfg : ManageLicenses.Config) (R : Rules)
           (S : Services) (M : Mutators) (now inactiveDate : Z)
  : option Report * list Call :=
  let customerId := canonicalCustomerId (Customers_get S) in
  let licenseMap :=
    getAllLicenseAssignments (listForProduct S) (ManageLicenses.PRODUCT_ID cfg) customerId in
  let inactiveUsers := AutoRun.getInactiveUsers (providers S) now inactiveDate in
  if (length inactiveUsers =? 0)%nat then (None, [])
  else
    let '(annotated, usersToProcess) :=
      selectCandidates (ManageLicenses.TARGET_SKU_ID cfg) R licenseMap inactiveUsers in
    let '(processingResults, calls) :=
      ManageLicenses.processCandidates cfg M usersToProcess in
    (Some {| sheet1 := map sheet1Row annotated; sheet2 := processingResults |}, calls).

End ManageLicensesMain.

Module SuspendEplusMain.

Import Licensing Exclusion Selection.

(** [TARGET_SKU_ID] and [PRODUCT_ID] of the file's [CONFIG]. *)
Record Target : Type := mkTarget {
  TARGET_SKU_ID : string;
  PRODUCT_ID : string
}.

Definition TARGET : Target :=
  {| TARGET_SKU_ID := "1010020020"; PRODUCT_ID := "Google-Apps" |}.

(** The exclusion settings of the file's [CONFIG]: no path is listed. *)
Definition RULES : Rules :=
  {| EXCLUDED_OU_PATHS := []; EXCLUDE_ADMINS := true |}.

Record Report : Type := mkReport {
  sheet1 : list Sheet1Row;
  sheet2 : list SuspendEplus.Result
}.

(** The counts of [sendSuspensionEmailReport], lines 602-603. *)
Definition successCount (suspensionResults : list SuspendEplus.Result) : nat :=
  length (filter (fun r => SuspendEplus.suspended r = true) suspensionResults).

Definition failCount (suspensionResults : list SuspendEplus.Result) : nat :=
  length (filter (fun r => noError (SuspendEplus.error r) = false) suspensionResults).

(** [suspendInactiveEnterpriseUsers()] *)
Definition suspendInactiveEnterpriseUsers (cfg : SuspendEplus.Config) (T : Target)
           (R : Rules) (S : Services) (M : Mutators) (now inactiveDate : Z)
  : option Report * list Call :=
  let customerId := canonicalCustomerId (Customers_get S) in
  let licenseMap := getAllLicenseAssignments (listForProduct S) (PRODUCT_ID T) customerId in
  let inactiveUsers := AutoRun.getInactiveUsers (providers S) now inactiveDate in
  if (length inactiveUsers =? 0)%nat then (None, [])
  else
    let '(annotated, usersToSuspend) :=
      selectCandidates (TARGET_SKU_ID T) R licenseMap inactiveUsers in
    let '(suspensionResults, calls) :=
      SuspendEplus.processCandidates cfg M usersToSuspend in
    (Some {| sheet1 := map sheet1Row annotated; sheet2 := suspensionResults |}, calls).

End SuspendEplusMain.

(* ------------------------------------------------------------------ *)
(** ** auditInactiveEnterpriseUsers of the auto-run script              *)
(* ------------------------------------------------------------------ *)

Module AutoRunMain.

Import Licensing.

(** Step 3, lines 131-146: the license text attached to an inactive
    user, and [hasTargetLicense]. *)
Definition attachLicenses (TARGET_SKU_ID : string)
           (licenseMap : gmap string (list License)) (user : User) : User * bool :=
  let userEmail := toLowerCase (primaryEmail user) in
  match licenseMap !! userEmail with
  | Some userLicenses =>
      (set_licenseString (Some (licenseNames userLicenses)) user,
       hasTarget TARGET_SKU_ID userLicenses)
  | None => (set_licenseString (Some "No licenses") user, false)
  end.

(** [auditInactiveEnterpriseUsers()]: the rows exported, if any. *)
Definition auditInactiveEnterpriseUsers (TARGET_SKU_ID PRODUCT_ID : string)
           (S : Services) (now inactiveDate : Z) : option (list AutoRun.Row) :=
  let customerId := canonicalCustomerId (Customers_get S) in
  let licenseMap := getAllLicenseAssignments (listForProduct S) PRODUCT_ID customerId in
  let inactiveUsers := AutoRun.getInactiveUsers (providers S) now inactiveDate in
  if (length inactiveUsers =? 0)%nat then None
  else
    Some (AutoRun.exportRows
            (map (fun user => fst (attachLicenses TARGET_SKU_ID licenseMap user))
                 inactiveUsers)).

End AutoRunMain.

(* ------------------------------------------------------------------ *)
(** ** The license-first audit: its main function                      *)
(* ------------------------------------------------------------------ *)

Module LicenseFirstMain.

Import Licensing.

(** The [forEach] callback and the loop of [getLicensedUsers]. *)
Definition recordLicensed (targetSkuId : string) (licensedUsers : list string)
           (item : Assignment) : list string :=
  if String.eqb (skuId item) targetSkuId then licensedUsers ++ [userId item]
  else licensedUsers.

Definition recordItems (targetSkuId : string) (licensedUsers : list string)
           (items : option (list Assignment)) : list string :=
  match items with
  | Some l => fold_left (recordLicensed targetSkuId) l licensedUsers
  | None => licensedUsers
  end.

Fixpoint collectLicensed (targetSkuId : string) (pages : Listing Assignment)
         (licensedUsers : list string) : list string :=
  match pages with
  | Fails _ => licensedUsers
  | LastPage items => recordItems targetSkuId licensedUsers items
  | MorePage items next =>
      collectLicensed targetSkuId next (recordItems targetSkuId licensedUsers items)
  end.

Definition getLicensedUsers (listForProduct : string -> string -> Listing Assignment)
           (productId targetSkuId customerId : string) : list string :=
  collectLicensed targetSkuId (listForProduct productId customerId) [].

(** [getLoginActivityFromReports(cutoffDate)]: the loop is the text of
    the auto-run script. *)
Definition getLoginActivityFromReports (P : Providers) (now cutoffDate : Z)
  : gmap string Z :=
  AutoRun.collectLogins (Activities_list P (LicenseFirst.reportsQuery now cutoffDate)) ∅.

(** What [AdminDirectory.Users.get(userEmail, {projection: 'full'})]
    answers: in the main loop the user, in [getManager] the value of the
    user's manager relation, when there is one. *)
Record Lookup : Type := mkLookup {
  Users_get : string -> Outcome User;
  Users_get_manager : string -> Outcome (option string)
}.

(** [getManager(userEmail)]: [None] is [null]. *)
Definition getManager (L : Lookup) (userEmail : string) : option string :=
  match Users_get_manager L userEmail with
  | Returns manager => manager
  | Throws _ => None
  end.

(** An entry of [inactiveLicensedUsers]. *)
Record Entry : Type := mkEntry {
  entry_user : User;
  managerEmail : string
}.

(** The body of the [for] loop, lines 126-151: a fetch that throws is
    logged and the loop goes on. *)
Definition auditUser (TARGET_SKU_ID : string) (L : Lookup)
           (reportsLoginData : gmap string Z) (inactiveDate : Z) (userEmail : string)
  : option Entry :=
  match Users_get L userEmail with
  | Throws _ => None
  | Returns user =>
      match LicenseFirst.auditStep reportsLoginData inactiveDate userEmail
              (set_licenseString (Some (getSkuName TARGET_SKU_ID)) user) with
      | Some user =>
          Some {| entry_user := user;
                  managerEmail := or_default (getManager L userEmail) "N/A" |}
      | None => None
      end
  end.

(** [auditInactiveLicensedUsers()]: the users exported. *)
Definition auditInactiveLicensedUsers (TARGET_SKU_ID PRODUCT_ID : string)
           (S : Services) (L : Lookup) (now inactiveDate : Z) : list Entry :=
  let customerId := canonicalCustomerId (Customers_get S) in
  let licensedUserEmails :=
    getLicensedUsers (listForProduct S) PRODUCT_ID TARGET_SKU_ID customerId in
  if (length licensedUserEmails =? 0)%nat then []
  else
    let reportsLoginData := getLoginActivityFromReports (providers S) now inactiveDate in
    omap (auditUser TARGET_SKU_ID L reportsLoginData inactiveDate) licensedUserEmails.

End LicenseFirstMain.

(* ------------------------------------------------------------------ *)
(** ** The Reports-only audit (second script of the Eplus file)         *)
(* ------------------------------------------------------------------ *)

Module ReportsOnly.

Import Licensing.

(** [formatDateForReports] of the cutoff and of the present: the window
    is not clamped. *)
Definition reportsQuery (now cutoffDate : Z) : ReportsQuery :=
  {| startTime := formatDate cutoffDate; endTime := formatDate now |}.

(** The [forEach] callback, lines 1108-1115.  [None]: the callback throws,
    at [activity.actor.email.toLowerCase()] when the event has no actor
    email. *)
Definition recordActivity (loginMap : gmap string Z) (activity : Activity)
  : option (gmap string Z) :=
  match actor_email activity with
  | None => None
  | Some e =>
      let email := toLowerCase e in
      let activityTime := id_time activity in
      Some match loginMap !! email with
           | None => <[email := activityTime]> loginMap
           | Some t =>
               if activityTime >? t then <[email := activityTime]> loginMap
               else loginMap
           end
  end.

(** The items of a page, until the callback throws: the map, and whether
    the page was gone through. *)
Fixpoint recordItems (loginMap : gmap string Z) (items : list Activity)
  : gmap string Z * bool :=
  match items with
  | [] => (loginMap, true)
  | activity :: rest =>
      match recordActivity loginMap activity with
      | Some loginMap => recordItems loginMap rest
      | None => (loginMap, false)
      end
  end.

(** The loop inside the [try]: what escapes the callback or a request
    ends it, and the map built so far is returned. *)
Fixpoint collectLogins (pages : Listing Activity) (loginMap : gmap string Z)
  : gmap string Z :=
  match pages with
  | Fails _ => loginMap
  | LastPage items => fst (recordItems loginMap (default [] items))
  | MorePage items next =>
      let '(loginMap, completed) := recordItems loginMap (default [] items) in
      if completed then collectLogins next loginMap else loginMap
  end.

Definition getLoginActivityFromReports (P : Providers) (now cutoffDate : Z)
  : gmap string Z :=
  collectLogins (Activities_list P (reportsQuery now cutoffDate)) ∅.

(** [getAllUsers()] *)
Fixpoint collectUsers (pages : Listing User) (users : list User) : list User :=
  match pages with
  | Fails _ => users
  | LastPage us => users ++ default [] us
  | MorePage us next => collectUsers next (users ++ default [] us)
  end.

Definition getAllUsers (P : Providers) : list User := collectUsers (Users_list P) [].

(** The [forEach] callback of step 4, lines 984-1003: the entry pushed on
    [targetUsers], if any. *)
Definition auditUser (TARGET_SKU_ID : string) (licenseMap : gmap string (list License))
           (loginActivity : gmap string Z) (inactiveDate : Z) (user : User)
  : option User :=
  let userEmail := toLowerCase (primaryEmail user) in
  match licenseMap !! userEmail with
  | Some userLicenses =>
      if hasTarget TARGET_SKU_ID userLicenses then
        let lastLogin := loginActivity !! userEmail in
        let isInactive :=
          match lastLogin with
          | None => true
          | Some t => t <? inactiveDate
          end in
        if isInactive then
          Some (set_licenseString (Some (licenseNames userLicenses))
                  (set_lastLoginTime lastLogin user))
        else None
      else None
  | None => None
  end.

(** [auditInactiveEnterpriseUsers()]: [targetUsers]. *)
Definition auditInactiveEnterpriseUsers (TARGET_SKU_ID PRODUCT_ID : string)
           (S : Services) (now inactiveDate : Z) : list User :=
  let customerId := canonicalCustomerId (Customers_get S) in
  let licenseMap := getAllLicenseAssignments (listForProduct S) PRODUCT_ID customerId in
  let allUsers := getAllUsers (providers S) in
  let loginActivity := getLoginActivityFromReports (providers S) now inactiveDate in
  omap (auditUser TARGET_SKU_ID licenseMap loginActivity inactiveDate) allUsers.

End ReportsOnly.

(* ------------------------------------------------------------------ *)
(** ** Installable triggers                                             *)
(* ------------------------------------------------------------------ *)

Module Triggers.

Inductive Schedule : Type :=
| EveryDays (n : nat)
| EveryMinutes (n : nat).

(** A trigger of the project: [ScriptApp.getProjectTriggers()] is a list
    of them. *)
Record Trigger : Type := mkTrigger {
  handlerFunction : string;
  schedule : Schedule
}.

Definition handles (functionName : string) (trigger : Trigger) : bool :=
  String.eqb (handlerFunction trigger) functionName.

(** [setupMonthlyTrigger], [setupMonthlySuspensionTrigger] and
    [setupMonthlyLicenseManagementTrigger], for their [functionName]. *)
Definition setupMonthly (functionName : string) (triggers : list Trigger) : list Trigger :=
  if existsb (handles functionName) triggers then triggers
  else triggers ++ [ {| handlerFunction := functionName; schedule := EveryDays 30 |} ].

(** The [forEach] of [deleteAllSuspensionTriggers],
    [deleteAllLicenseManagementTriggers] and [deleteAutoBatchTrigger]: the
    triggers left and the count. *)
Fixpoint deleteAll (functionName : string) (triggers : list Trigger) : list Trigger * nat :=
  match triggers with
  | [] => ([], 0%nat)
  | trigger :: rest =>
      let '(kept, deletedCount) := deleteAll functionName rest in
      if handles functionName trigger then (kept, S deletedCount)
      else (trigger :: kept, deletedCount)
  end.

(** [createAutoBatchTrigger()] *)
Definition createAutoBatchTrigger (triggers : list Trigger) : list Trigger :=
  fst (deleteAll "auditGroupsWithoutOwners" triggers)
  ++ [ {| handlerFunction := "auditGroupsWithoutOwners"; schedule := EveryMinutes 10 |} ].

End Triggers.

(* ------------------------------------------------------------------ *)
(** ** generateFinalReport of the groups audit                          *)
(* ------------------------------------------------------------------ *)

Module GroupsReport.

Import GroupsBatch.

(** The summary rows, lines 343-352. *)
Record Summary : Type := mkSummary {
  scanned : nat;
  withIssues : nat;
  noOwners : nat;
  noManagers : nat;
  noBoth : nat
}.

Definition summary (report : FinalReport) : Summary :=
  let groups := report_groups report in
  {| scanned := totalGroupsScanned report;
     withIssues := length groups;
     noOwners := length (filter (fun g => hasOwner g = false) groups);
     noManagers := length (filter (fun g => hasManager g = false) groups);
     noBoth := length (filter (fun g => hasOwner g = false /\ hasManager g = false) groups) |}.

(** The final reports among the results of a sequence of runs. *)
Definition reports (runs : list RunResult) : list FinalReport :=
  omap (fun r => match r with
                 | Finished _ report => report
                 | Raised _ _ => None
                 end) runs.

End GroupsReport.

(* ------------------------------------------------------------------ *)
(** ** Vocabulary of the further properties, and their sample inputs    *)
(* ------------------------------------------------------------------ *)

(** The times of the login events of [activities] that
    [getLoginActivityFromReports] records under the key [email]: those of
    the events whose actor email is there and lower-cases to [email]. *)
Definition loginTimes (email : string) (activities : list Activity) : list Z :=
  omap (fun activity =>
          match actor_email activity with
          | Some e =>
              if (truthy e && String.eqb (toLowerCase e) email)%bool
              then Some (id_time activity) else None
          | None => None
          end) activities.

(** The entry of a key after one more login time recorded under it. *)
Definition later (entry : option Z) (t : Z) : option Z :=
  match entry with
  | None => Some t
  | Some t0 => if t >? t0 then Some t else Some t0
  end.

(** [t] is the latest of [times]. *)
Definition latestOf (times : list Z) (t : Z) : Prop :=
  t ∈ times /\ Forall (fun t' => t' <= t) times.

(** The directory places the user's last login before the cutoff, or
    knows of none. *)
Definition directoryInactive (cutoffDate : Z) (user : User) : bool :=
  match lastLoginTime user with
  | Some directoryLastLogin => directoryLastLogin <? cutoffDate
  | None => true
  end.

(** The user is an administrator. *)
Definition administrator (user : User) : bool := (isAdmin user || isDelegatedAdmin user)%bool.

(** ** Sample domain of the inactive-user scripts

    The run is at [day 1000], the cutoff 180 days before.  Ann logged in
    ten days ago according to the Reports API, which writes her address in
    lower case; the directory knows no recent login of anyone.  The other
    users are inactive: bob holds the target license; cat holds it and is
    an administrator; dan holds another license; eve holds the target
    license and is suspended already; fay holds it and is on legal hold;
    gil holds no license. *)
Definition person (e : string) (ou : option string) (login : option Z)
           (isSuspended admin : bool) : User :=
  {| primaryEmail := e; fullName := None; orgUnitPath := ou;
     lastLoginTime := login; creationTime := 0; suspended := isSuspended;
     isAdmin := admin; isDelegatedAdmin := false; licenseString := None |}.

Definition fay : User :=
  person "fay@example.com" (Some "/LH - legal hold/2024") None false false.
Definition gil : User := person "gil@example.com" None None false false.

Definition staff : list User :=
  [ person "Ann@Example.com" None (Some (day 100)) false false;
    person "bob@example.com" None None false false;
    person "cat@example.com" None (Some (day 500)) false true;
    person "dan@example.com" (Some "/Sales") None false false;
    person "eve@example.com" None None true false;
    fay;
    gil ].

Definition staffEvents : list Activity :=
  [ {| actor_email := Some "ann@example.com"; id_time := day 985 |};
    {| actor_email := None; id_time := day 986 |};
    {| actor_email := Some "ann@example.com"; id_time := day 990 |};
    {| actor_email := Some "Bob@example.com"; id_time := day 700 |} ].

Definition staffLicenses : list Licensing.Assignment :=
  [ Licensing.mkAssignment "ann@example.com" "1010020020" None;
    Licensing.mkAssignment "Bob@example.com" "1010020020" (Some "Google Workspace Enterprise Plus");
    Licensing.mkAssignment "cat@example.com" "1010020020" None;
    Licensing.mkAssignment "dan@example.com" "1010020027" None;
    Licensing.mkAssignment "eve@example.com" "1010020020" None;
    Licensing.mkAssignment "fay@example.com" "1010020020" None;
    Licensing.mkAssignment "bob@example.com" "1010330003" None ].

Definition staffProviders : Providers :=
  {| Activities_list := fun _ => MorePage (Some (take 2 staffEvents))
                                   (LastPage (Some (drop 2 staffEvents)));
     Users_list := MorePage (Some (take 4 staff)) (LastPage (Some (drop 4 staff))) |}.

Definition staffServices : Services :=
  {| Customers_get := Returns "C01abc";
     listForProduct := fun _ _ => MorePage (Some (take 3 staffLicenses))
                                   (LastPage (Some (drop 3 staffLicenses)));
     providers := staffProviders |}.

(** The same domain when the Reports API refuses the request. *)
Definition staffWithoutReports : Providers :=
  {| Activities_list := fun _ => Fails "Reports API unavailable";
     Users_list := Users_list staffProviders |}.

(** Providers that accept every mutating call. *)
Definition accepting : Mutators :=
  {| Users_update := fun _ => Returns tt;
     LicenseAssignments_remove := fun _ _ _ => Returns tt;
     LicenseAssignments_insert := fun _ _ _ => Returns tt |}.

(** Exclusion rules in which a blank path was left in the list. *)
Definition blankPathRules : Exclusion.Rules :=
  {| Exclusion.EXCLUDED_OU_PATHS := ["/Executives"; EmptyString];
     Exclusion.EXCLUDE_ADMINS := true |}.

(** The address belongs to an inactive user who may be acted on: the user
    holds the target license, is not suspended, and is not excluded. *)
Definition eligible (TARGET_SKU_ID : string) (R : Exclusion.Rules)
           (licenseMap : gmap string (list Licensing.License))
           (inactiveUsers : list User) (userEmail : string) : Prop :=
  exists user licenses,
    user ∈ inactiveUsers
    /\ primaryEmail user = userEmail
    /\ licenseMap !! toLowerCase (primaryEmail user) = Some licenses
    /\ Licensing.hasTarget TARGET_SKU_ID licenses = true
    /\ suspended user = false
    /\ Exclusion.shouldExcludeUser R user = false.

(** A row of the first sheet that shows a candidate: the target license,
    not suspended, not excluded. *)
Definition candidateRow (row : Selection.Sheet1Row) : Prop :=
  Selection.s1_hasTargetLicense row = "Yes"
  /\ Selection.s1_suspended row = "No"
  /\ Selection.s1_excluded row = "No".

(** The suspension of the user is accepted. *)
Definition accepted (M : Mutators) (user : User) : bool :=
  match Users_update M (primaryEmail user) with
  | Returns _ => true
  | Throws _ => false
  end.

(** The suspension of the user is refused with an error that has a message. *)
Definition refusedWithMessage (M : Mutators) (user : User) : bool :=
  match Users_update M (primaryEmail user) with
  | Returns _ => false
  | Throws message => truthy message
  end.

(** The mutating calls the license executor makes for a user, by what the
    providers answer to the suspension. *)
Definition licenseCalls (cfg : ManageLicenses.Config) (M : Mutators) (user : User)
  : list Call :=
  let e := primaryEmail user in
  if negb (accepted M user) then [CallUpdate e]
  else
      CallUpdate e
      :: CallRemove (ManageLicenses.PRODUCT_ID cfg) (ManageLicenses.TARGET_SKU_ID cfg) e
      :: (if ManageLicenses.ASSIGN_CLOUD_IDENTITY_FREE cfg
          then [CallInsert e (ManageLicenses.PRODUCT_ID cfg)
                           (ManageLicenses.CLOUD_IDENTITY_FREE_SKU_ID cfg)]
          else []).

(** Providers that fail with an error whose message is empty. *)
Definition silentlyRefusing : Mutators :=
  {| Users_update := fun _ => Throws EmptyString;
     LicenseAssignments_remove := fun _ _ _ => Returns tt;
     LicenseAssignments_insert := fun _ _ _ => Returns tt |}.

(** The suspension script in live mode. *)
Definition live : SuspendEplus.Config :=
  {| SuspendEplus.DRY_RUN := false; SuspendEplus.MAX_SUSPEND_COUNT := 50 |}.

(** An entry of the audit results misses a role. *)
Definition missesRole (entry : GroupsBatch.AuditResult) : Prop :=
  GroupsBatch.hasOwner entry = false \/ GroupsBatch.hasManager entry = false.

(** The run's clock stays within the time limit for the length of a batch. *)
Definition inTime (cfg : GroupsBatch.Config) (E : GroupsBatch.Env) : Prop :=
  forall j, (j < GroupsBatch.BATCH_SIZE cfg)%nat ->
            GroupsBatch.elapsed_ms E j <= 1000 * GroupsBatch.MAX_EXECUTION_TIME cfg.

(** The single pass over a list of groups that the batches add up to. *)
Definition singlePass (E : GroupsBatch.Env) (G : list GroupsBatch.Group)
  : GroupsBatch.FinalReport :=
  {| GroupsBatch.report_groups := omap (GroupsBatch.checkGroup E) G;
     GroupsBatch.totalGroupsScanned := length G |}.

(** The sample domain seen by a later run: the directory now lists one
    group only, and the run is cut short after one group. *)
Definition laterDomain : GroupsBatch.Env :=
  {| GroupsBatch.Groups_list := LastPage (Some (take 1 fiveGroups));
     GroupsBatch.Members_list := GroupsBatch.Members_list domain;
     GroupsBatch.elapsed_ms := fun i => 400000 * Z.of_nat i |}.

(** Properties left over from an interrupted audit of other groups. *)
Definition leftOver : gmap string string :=
  {[ "groupsCache" := stringify RefCodec.JG (take 2 fiveGroups);
     "processedIndex" := "1";
     "auditResults" := "[]";
     "ownerNote" := "kept" ]}.

(** The user holds the target license according to the license map. *)
Definition holdsTarget (TARGET_SKU_ID : string)
           (licenseMap : gmap string (list Licensing.License)) (user : User) : bool :=
  match licenseMap !! toLowerCase (primaryEmail user) with
  | Some userLicenses => Licensing.hasTarget TARGET_SKU_ID userLicenses
  | None => false
  end.

(** The login event names its actor. *)
Definition namesActor (activity : Activity) : bool :=
  match actor_email activity with
  | Some e => truthy e
  | None => false
  end.

(** The services of the sample domain when the Reports API refuses the
    request. *)
Definition staffServicesWithoutReports : Services :=
  {| Customers_get := Customers_get staffServices;
     listForProduct := listForProduct staffServices;
     providers := staffWithoutReports |}.

(** The directory as [Users.get] sees the sample domain; nobody's manager
    can be read. *)
Definition staffLookup : LicenseFirstMain.Lookup :=
  {| LicenseFirstMain.Users_get := fun e =>
       match find (fun u => String.eqb (toLowerCase (primaryEmail u)) (toLowerCase e)) staff with
       | Some u => Returns u
       | None => Throws "Resource Not Found: userKey"
       end;
     LicenseFirstMain.Users_get_manager := fun _ => Throws "Not Authorized" |}.

(** The same directory when the record of cat cannot be fetched; the
    manager of bob can be read, eve has none, and nobody else's can be
    read. *)
Definition staffLookupPartial : LicenseFirstMain.Lookup :=
  {| LicenseFirstMain.Users_get := fun e =>
       if String.eqb (toLowerCase e) "cat@example.com"
       then Throws "Service unavailable"
       else LicenseFirstMain.Users_get staffLookup e;
     LicenseFirstMain.Users_get_manager := fun e =>
       if String.eqb (toLowerCase e) "bob@example.com"
       then Returns (Some "boss@example.com")
       else if String.eqb (toLowerCase e) "eve@example.com"
       then Returns None
       else Throws "Not Authorized" |}.

(** The manager cell of the license-first audit for a licensed address:
    the manager the lookup reads; 'N/A' when it reads none, or an empty
    one, or throws. *)
Definition managerCell (L : LicenseFirstMain.Lookup) (userEmail : string) : string :=
  match LicenseFirstMain.Users_get_manager L userEmail with
  | Returns (Some manager) => if truthy manager then manager else "N/A"
  | Returns None => "N/A"
  | Throws _ => "N/A"
  end.

(** The record of a licensed address can be fetched and the hybrid
    classifier finds the user inactive. *)
Definition exportable (L : LicenseFirstMain.Lookup) (reportsLoginData : gmap string Z)
           (inactiveDate : Z) (userEmail : string) : bool :=
  match LicenseFirstMain.Users_get L userEmail with
  | Returns user => LicenseFirst.checkIfUserInactive user reportsLoginData inactiveDate
  | Throws _ => false
  end.

(** A user with the target license whose only recent login is the one the
    directory holds: the Reports API has no event of hal. *)
Definition hal : User := person "hal@example.com" None (Some (day 900)) false false.
Definition halLicenses : gmap string (list Licensing.License) :=
  {[ "hal@example.com" := [ Licensing.mkLicense "1010020020" "Enterprise Plus" ] ]}.


(* ================================================================== *)
(** * Properties of the inactivity classifier                           *)
(* ================================================================== *)

Section Classifier.

Variables (reportsLoginData : gmap string Z) (cutoffDate : Z).

(** The two tests of the classifier, as booleans. *)
Lemma reports_test (userEmail : string) :
  match reportsLoginData !! userEmail with
  | Some t => t >=? cutoffDate
  | None => false
  end = true <->
  exists t, reportsLoginData !! userEmail = Some t /\ cutoffDate <= t.
Proof.
  destruct (reportsLoginData !! userEmail) as [t|].
  - rewrite Z.geb_le. split.
    + intros H. exists t. split; [reflexivity | exact H].
    + intros (t' & Heq & Hle). injection Heq as ->. exact Hle.
  - split; [discriminate | intros (t' & Heq & _); discriminate].
Qed.

Lemma directory_test (user : User) :
  match lastLoginTime user with
  | Some t => t >=? cutoffDate
  | None => false
  end = true <->
  exists t, lastLoginTime user = Some t /\ cutoffDate <= t.
Proof.
  destruct (lastLoginTime user) as [t|].
  - rewrite Z.geb_le. split.
    + intros H. exists t. split; [reflexivity | exact H].
    + intros (t' & Heq & Hle). injection Heq as ->. exact Hle.
  - split; [discriminate | intros (t' & Heq & _); discriminate].
Qed.

(** The filter callback of [getInactiveUsers] and [checkIfUserInactive]
    take the same decision. *)
Lemma inactiveFilter_checkIfUserInactive (user : User) :
  LicenseFirst.checkIfUserInactive user reportsLoginData cutoffDate
  = bool_decide (is_Some (AutoRun.inactiveFilter reportsLoginData cutoffDate user)).
Proof.
  unfold LicenseFirst.checkIfUserInactive, AutoRun.inactiveFilter.
  destruct (match reportsLoginData !! toLowerCase (primaryEmail user) with
            | Some t => t >=? cutoffDate | None => false end).
  - symmetry. apply bool_decide_eq_false. intros [x Hx]. discriminate.
  - destruct (match lastLoginTime user with
              | Some t => t >=? cutoffDate | None => false end).
    + symmetry. apply bool_decide_eq_false. intros [x Hx]. discriminate.
    + symmetry. apply bool_decide_eq_true. eexists. reflexivity.
Qed.

(** What an inactive user's record carries once the filter has run: the
    Reports time when the map has one, else the directory's field. *)
Lemma inactiveFilter_lastLoginTime (user user' : User) :
  AutoRun.inactiveFilter reportsLoginData cutoffDate user = Some user' ->
  lastLoginTime user' =
    match reportsLoginData !! toLowerCase (primaryEmail user) with
    | Some t => Some t
    | None => lastLoginTime user
    end.
Proof.
  unfold AutoRun.inactiveFilter.
  destruct (reportsLoginData !! toLowerCase (primaryEmail user)) as [t|] eqn:Hr.
  - destruct (t >=? cutoffDate); [discriminate |].
    destruct (match lastLoginTime user with
              | Some d => d >=? cutoffDate | None => false end); [discriminate |].
    intros [= <-]. reflexivity.
  - destruct (match lastLoginTime user with
              | Some d => d >=? cutoffDate | None => false end); [discriminate |].
    intros [= <-]. reflexivity.
Qed.

(** C1. For every user the classifier answers ACTIVE exactly when the
    Reports login map has an entry for the lower-cased email with a time at
    or after the cutoff, or the directory's last-login field is present with
    a time at or after the cutoff; in every other case, and so when both
    signals are absent, it answers INACTIVE.  This holds of
    [checkIfUserInactive] and of the filter of [getInactiveUsers]. *)
Theorem C1_active_iff_either_source_recent (user : User) :
  let recent :=
    (exists t, reportsLoginData !! toLowerCase (primaryEmail user) = Some t
               /\ cutoffDate <= t)
    \/ (exists t, lastLoginTime user = Some t /\ cutoffDate <= t) in
  (LicenseFirst.checkIfUserInactive user reportsLoginData cutoffDate = false <-> recent)
  /\ (LicenseFirst.checkIfUserInactive user reportsLoginData cutoffDate = true <-> ~ recent)
  /\ (AutoRun.inactiveFilter reportsLoginData cutoffDate user = None <-> recent)
  /\ (is_Some (AutoRun.inactiveFilter reportsLoginData cutoffDate user) <-> ~ recent)
  /\ ((reportsLoginData !! toLowerCase (primaryEmail user) = None
       /\ lastLoginTime user = None) ->
      LicenseFirst.checkIfUserInactive user reportsLoginData cutoffDate = true
      /\ AutoRun.inactiveFilter reportsLoginData cutoffDate user = Some user).
Proof.
  intros recent.
  assert (Hcheck :
    LicenseFirst.checkIfUserInactive user reportsLoginData cutoffDate = false <-> recent).
  { unfold recent.
    rewrite <- (reports_test (toLowerCase (primaryEmail user))).
    rewrite <- (directory_test user).
    unfold LicenseFirst.checkIfUserInactive.
    destruct (match reportsLoginData !! toLowerCase (primaryEmail user) with
              | Some t => t >=? cutoffDate | None => false end);
      destruct (match lastLoginTime user with
                | Some t => t >=? cutoffDate | None => false end);
      intuition congruence. }
  assert (Hfilter :
    AutoRun.inactiveFilter reportsLoginData cutoffDate user = None <-> recent).
  { rewrite <- Hcheck, inactiveFilter_checkIfUserInactive.
    rewrite bool_decide_eq_false, <- eq_None_not_Some. reflexivity. }
  split; [exact Hcheck |].
  split; [rewrite <- Hcheck, not_false_iff_true; reflexivity |].
  split; [exact Hfilter |].
  split.
  - rewrite <- Hfilter, <- not_eq_None_Some. reflexivity.
  - intros [Hr Hd].
    unfold LicenseFirst.checkIfUserInactive, AutoRun.inactiveFilter.
    rewrite Hr, Hd. split; reflexivity.
Qed.

End Classifier.

(** The scenarios of the specification: A is active; B and C are
    inactive, and C is reported as never logged in. *)
Example classifier_scenarios :
  AutoRun.filterPage scenarioLogins (day 820) (Some [userA; userB; userC]) = [userB; userC]
  /\ map (fun u => LicenseFirst.checkIfUserInactive u scenarioLogins (day 820))
         [userA; userB; userC]
     = [false; true; true]
  /\ map AutoRun.row_lastLogin (AutoRun.exportRows [userB; userC])
     = [CellTime (day 600); CellText "Never"].
Proof. vm_compute. repeat split. Qed.

(** The whole enumeration keeps exactly the users its filter keeps, in the
    order of the listing, up to the first request that throws. *)
Lemma collectInactive_spec (reportsLoginData : gmap string Z) (cutoffDate : Z)
      (pages : Listing User) (users : list User) :
  AutoRun.collectInactive reportsLoginData cutoffDate pages users
  = users ++ omap (AutoRun.inactiveFilter reportsLoginData cutoffDate) (listedUsers pages).
Proof.
  revert users. induction pages as [m | us | us next IH]; intros users; simpl.
  - rewrite app_nil_r. reflexivity.
  - destruct us; reflexivity.
  - rewrite IH, omap_app, app_assoc. destruct us; reflexivity.
Qed.


(** Where the record does carry the effective last login: whenever the
    directory's field is absent or not later than the Reports entry, and
    whenever the Reports map has no entry. *)
Lemma recorded_is_effective_unless_directory_later
      (reportsLoginData : gmap string Z) (cutoffDate : Z) (user user' : User) :
  AutoRun.inactiveFilter reportsLoginData cutoffDate user = Some user' ->
  (forall r d, reportsLoginData !! toLowerCase (primaryEmail user) = Some r ->
               lastLoginTime user = Some d -> d <= r) ->
  lastLoginTime user'
  = effectiveLastLogin (reportsLoginData !! toLowerCase (primaryEmail user))
                       (lastLoginTime user).
Proof.
  intros Hf Hle.
  rewrite (inactiveFilter_lastLoginTime reportsLoginData cutoffDate user user' Hf).
  destruct (reportsLoginData !! toLowerCase (primaryEmail user)) as [r|];
    [| reflexivity].
  destruct (lastLoginTime user) as [d|]; simpl; [| reflexivity].
  specialize (Hle r d eq_refl eq_refl). f_equal. lia.
Qed.

(* ================================================================== *)
(** * Properties of the Reports query window                            *)
(* ================================================================== *)

Lemma formatDate_bounds (d : Z) : d - 1000 < formatDate d <= d.
Proof.
  unfold formatDate.
  pose proof (Z.div_mod d 1000 ltac:(lia)) as Hd.
  pose proof (Z.mod_pos_bound d 1000 ltac:(lia)) as Hm.
  lia.
Qed.

Lemma startDate_max (now cutoffDate : Z) :
  AutoRun.startDate now cutoffDate = Z.max cutoffDate (now - 15552000000).
Proof.
  unfold AutoRun.startDate, AutoRun.maxReportsHistory, AutoRun.reportsRetention.
  destruct (Z.gtb_spec cutoffDate (now - 180 * 24 * 60 * 60 * 1000)); lia.
Qed.

(** Whole seconds: the second of the later of two instants is the later
    of their seconds. *)
Lemma max_seconds (a b : Z) : Z.max a b / 1000 = Z.max (a / 1000) (b / 1000).
Proof.
  destruct (Z.le_ge_cases a b) as [Hab | Hba].
  - rewrite Z.max_r by exact Hab.
    rewrite Z.max_r by (apply Z.div_le_mono; [lia | exact Hab]). reflexivity.
  - rewrite Z.max_l by exact Hba.
    rewrite Z.max_l by (apply Z.div_le_mono; [lia | exact Hba]). reflexivity.
Qed.

Lemma formatDate_seconds (d : Z) : formatDate d / 1000 = d / 1000.
Proof.
  unfold formatDate. rewrite Z.mul_comm. apply Z.div_mul. lia.
Qed.

(** C3.  For every instant of the run and every cutoff, the start of the
    window the resolver selects is the cutoff when the cutoff is later than
    now minus 180 days, and now minus 180 days when the cutoff is as old or
    older: the later of the two, so the window never starts before the
    retention horizon.  The request carries that instant as a text of whole
    seconds.  Counted in seconds, the start that is sent is the second of
    the cutoff or the second of the horizon, whichever is later: the
    cutoff's when the cutoff is later than the horizon, the horizon's when
    it is older, and never a second before the horizon's.  The instant the
    text denotes is the selected instant cut to its second, less than one
    second before it.  Both scripts compute the same window. *)
Theorem C3_query_window_clamped (now cutoffDate : Z) :
  let horizon := AutoRun.maxReportsHistory now in
  let start := AutoRun.startDate now cutoffDate in
  let sent := startTime (AutoRun.reportsQuery now cutoffDate) in
  horizon = now - 180 * 24 * 60 * 60 * 1000
  (* the instant selected, lines 219-222 *)
  /\ (horizon < cutoffDate -> start = cutoffDate)
  /\ (cutoffDate <= horizon -> start = horizon)
  /\ start = Z.max cutoffDate horizon
  /\ horizon <= start
  /\ start <= Z.max cutoffDate now
  (* the start that is sent, in whole seconds *)
  /\ sent / 1000 = Z.max (cutoffDate / 1000) (horizon / 1000)
  /\ (horizon < cutoffDate -> sent / 1000 = cutoffDate / 1000)
  /\ (cutoffDate <= horizon -> sent / 1000 = horizon / 1000)
  /\ horizon / 1000 <= sent / 1000
  (* the instant its text denotes *)
  /\ sent = 1000 * (Z.max cutoffDate horizon / 1000)
  /\ Z.max cutoffDate horizon - 1000 < sent <= Z.max cutoffDate horizon
  /\ horizon - 1000 < sent
  (* the license-first script *)
  /\ LicenseFirst.startDate now cutoffDate = start
  /\ LicenseFirst.reportsQuery now cutoffDate = AutoRun.reportsQuery now cutoffDate.
Proof.
  intros horizon start sent.
  assert (Hh : horizon = now - 15552000000) by reflexivity.
  assert (Hs : start = Z.max cutoffDate horizon).
  { unfold start. rewrite Hh. apply startDate_max. }
  assert (Hsent : sent = formatDate start) by reflexivity.
  pose proof (formatDate_bounds start) as Hb.
  assert (Hsec : sent / 1000 = Z.max (cutoffDate / 1000) (horizon / 1000)).
  { rewrite Hsent, formatDate_seconds, Hs. apply max_seconds. }
  assert (Hlf : LicenseFirst.startDate now cutoffDate = start).
  { unfold LicenseFirst.startDate, start, AutoRun.startDate, AutoRun.maxReportsHistory,
      AutoRun.reportsRetention. reflexivity. }
  split; [rewrite Hh; lia |].
  split; [intros Hlt; rewrite Hs; lia |].
  split; [intros Hle; rewrite Hs; lia |].
  split; [exact Hs |].
  split; [rewrite Hs; lia |].
  split; [rewrite Hs, Hh; lia |].
  split; [exact Hsec |].
  split; [intros Hlt; rewrite Hsec; apply Z.max_l, Z.div_le_mono; lia |].
  split; [intros Hle; rewrite Hsec; apply Z.max_r, Z.div_le_mono; lia |].
  split; [rewrite Hsec; lia |].
  split; [rewrite Hsent, Hs; reflexivity |].
  split; [rewrite Hsent, <- Hs; lia |].
  split; [rewrite Hsent; lia |].
  split; [exact Hlf |].
  unfold LicenseFirst.reportsQuery, AutoRun.reportsQuery. fold start. rewrite Hlf.
  reflexivity.
Qed.

(* ================================================================== *)
(** * Properties of the action executors                                *)
(* ================================================================== *)

Lemma applySafetyLimit_take (cap : nat) (users : list User) :
  (if (cap <? length users)%nat then take cap users else users)
  = take (Nat.min (length users) cap) users.
Proof.
  destruct (Nat.ltb_spec cap (length users)).
  - f_equal. lia.
  - rewrite Nat.min_l by lia. symmetry. apply firstn_all.
Qed.

Module ManageLicensesFacts.

Import ManageLicenses.

(** The executor is the per-user callback applied to each user in turn:
    whatever happens for one user, the next is processed. *)
Lemma suspendAndChangeLicenses_map (cfg : Config) (M : Mutators) (users : list User) :
  suspendAndChangeLicenses cfg M users
  = (map (fun u => fst (processUser cfg M u)) users,
     concat (map (fun u => snd (processUser cfg M u)) users)).
Proof.
  induction users as [|u rest IH]; simpl.
  - reflexivity.
  - rewrite IH. destruct (processUser cfg M u). reflexivity.
Qed.

Lemma removeStep_frame (cfg : Config) (M : Mutators) (e : string) (r : Result) :
  email (fst (removeStep cfg M e r)) = email r
  /\ Forall (fun c => callUser c = e) (snd (removeStep cfg M e r)).
Proof.
  unfold removeStep, keepFirstError.
  destruct (LicenseAssignments_remove M _ _ e); destruct r; simpl.
  - split; [reflexivity | repeat constructor].
  - destruct (noError _); simpl; (split; [reflexivity | repeat constructor]).
Qed.

Lemma assignStep_frame (cfg : Config) (M : Mutators) (e : string) (r : Result) :
  email (fst (assignStep cfg M e r)) = email r
  /\ Forall (fun c => callUser c = e) (snd (assignStep cfg M e r)).
Proof.
  unfold assignStep, keepFirstError.
  destruct (ASSIGN_CLOUD_IDENTITY_FREE cfg).
  - destruct (LicenseAssignments_insert M e _ _); destruct r; simpl.
    + split; [reflexivity | repeat constructor].
    + destruct (noError _); simpl; (split; [reflexivity | repeat constructor]).
  - destruct r; simpl. split; [reflexivity | constructor].
Qed.

(** The record is the user's, and every call made acts on that user. *)
Lemma processUser_frame (cfg : Config) (M : Mutators) (user : User) :
  email (fst (processUser cfg M user)) = primaryEmail user
  /\ Forall (fun c => callUser c = primaryEmail user) (snd (processUser cfg M user)).
Proof.
  unfold processUser.
  destruct (DRY_RUN cfg).
  - unfold dryRunResult. destruct (ASSIGN_CLOUD_IDENTITY_FREE cfg); simpl;
      (split; [reflexivity | constructor]).
  - destruct (Users_update M (primaryEmail user)); simpl.
    + match goal with |- context [removeStep cfg M ?e ?r] =>
        pose proof (removeStep_frame cfg M e r) as [Hr1 Hr2];
        destruct (removeStep cfg M e r) as [r1 t1] end.
      pose proof (assignStep_frame cfg M (primaryEmail user) r1) as [Ha1 Ha2].
      destruct (assignStep cfg M (primaryEmail user) r1) as [r2 t2]. simpl in *.
      split; [congruence |].
      constructor; [reflexivity |]. apply Forall_app. split; assumption.
    + split; [reflexivity | repeat constructor].
Qed.

End ManageLicensesFacts.

Module SuspendEplusFacts.

Import SuspendEplus.

Lemma suspendUsers_map (cfg : Config) (M : Mutators) (users : list User) :
  suspendUsers cfg M users
  = (map (fun u => fst (suspendUser cfg M u)) users,
     concat (map (fun u => snd (suspendUser cfg M u)) users)).
Proof.
  induction users as [|u rest IH]; simpl.
  - reflexivity.
  - rewrite IH. destruct (suspendUser cfg M u). reflexivity.
Qed.

Lemma suspendUser_frame (cfg : Config) (M : Mutators) (user : User) :
  email (fst (suspendUser cfg M user)) = primaryEmail user
  /\ Forall (fun c => callUser c = primaryEmail user) (snd (suspendUser cfg M user)).
Proof.
  unfold suspendUser.
  destruct (DRY_RUN cfg); [split; [reflexivity | constructor] |].
  destruct (Users_update M (primaryEmail user)); simpl;
    (split; [reflexivity | repeat constructor]).
Qed.

End SuspendEplusFacts.

(** Calls that each act on a listed user act on listed users. *)
Lemma calls_on_listed (f : User -> list Call) (users : list User) :
  (forall u, Forall (fun c => callUser c = primaryEmail u) (f u)) ->
  Forall (fun c => callUser c ∈ map primaryEmail users) (concat (map f users)).
Proof.
  intros Hf. induction users as [|u rest IH]; simpl.
  - constructor.
  - apply Forall_app. split.
    + eapply Forall_impl; [apply Hf |]. simpl. intros c ->. left.
    + eapply Forall_impl; [apply IH |]. simpl. intros c Hc. right. exact Hc.
Qed.

(** C4. For a candidate list of length L and a cap C the executor runs on
    the first min(L, C) candidates and on nothing else: the results table
    has min(L, C) records, the records of those candidates in order, and
    every mutating call acts on one of them.  The candidates beyond the cap
    get no record, failed or otherwise, and no call.  This holds of
    [suspendAndManageLicenses] and of [suspendInactiveEnterpriseUsers]. *)
Theorem C4_safety_cap
        (cfg : ManageLicenses.Config) (cfg' : SuspendEplus.Config)
        (M : Mutators) (candidates : list User) :
  let processed :=
    take (Nat.min (length candidates) (ManageLicenses.MAX_SUSPEND_COUNT cfg)) candidates in
  let processed' :=
    take (Nat.min (length candidates) (SuspendEplus.MAX_SUSPEND_COUNT cfg')) candidates in
  (ManageLicenses.processCandidates cfg M candidates
   = ManageLicenses.suspendAndChangeLicenses cfg M processed
   /\ length (fst (ManageLicenses.processCandidates cfg M candidates))
      = Nat.min (length candidates) (ManageLicenses.MAX_SUSPEND_COUNT cfg)
   /\ map ManageLicenses.email (fst (ManageLicenses.processCandidates cfg M candidates))
      = map primaryEmail processed
   /\ Forall (fun c => callUser c ∈ map primaryEmail processed)
             (snd (ManageLicenses.processCandidates cfg M candidates)))
  /\ (SuspendEplus.processCandidates cfg' M candidates
      = SuspendEplus.suspendUsers cfg' M processed'
      /\ length (fst (SuspendEplus.processCandidates cfg' M candidates))
         = Nat.min (length candidates) (SuspendEplus.MAX_SUSPEND_COUNT cfg')
      /\ map SuspendEplus.email (fst (SuspendEplus.processCandidates cfg' M candidates))
         = map primaryEmail processed'
      /\ Forall (fun c => callUser c ∈ map primaryEmail processed')
                (snd (SuspendEplus.processCandidates cfg' M candidates))).
Proof.
  intros processed processed'.
  assert (Hlen : forall cap, length (take (Nat.min (length candidates) cap) candidates)
                             = Nat.min (length candidates) cap).
  { intros cap. rewrite length_take. lia. }
  split.
  - unfold ManageLicenses.processCandidates, ManageLicenses.applySafetyLimit.
    rewrite applySafetyLimit_take. fold processed.
    rewrite ManageLicensesFacts.suspendAndChangeLicenses_map. simpl.
    split; [reflexivity |].
    split; [rewrite length_map; apply Hlen |].
    split.
    + rewrite map_map. apply map_ext. intros u.
      apply ManageLicensesFacts.processUser_frame.
    + apply calls_on_listed. intros u. apply ManageLicensesFacts.processUser_frame.
  - unfold SuspendEplus.processCandidates, SuspendEplus.applySafetyLimit.
    rewrite applySafetyLimit_take. fold processed'.
    rewrite SuspendEplusFacts.suspendUsers_map. simpl.
    split; [reflexivity |].
    split; [rewrite length_map; apply Hlen |].
    split.
    + rewrite map_map. apply map_ext. intros u.
      apply SuspendEplusFacts.suspendUser_frame.
    + apply calls_on_listed. intros u. apply SuspendEplusFacts.suspendUser_frame.
Qed.

(** The scenario of the specification: 80 candidates and a cap of 50 give
    50 records, and the calls of 50 users. *)
Example eighty_candidates_cap_fifty :
  length (fst (ManageLicenses.processCandidates ManageLicenses.CONFIG removalRefused
                 (replicate 80 ann))) = 50%nat
  /\ length (snd (ManageLicenses.processCandidates ManageLicenses.CONFIG removalRefused
                    (replicate 80 ann))) = 100%nat
  /\ length (fst (SuspendEplus.processCandidates SuspendEplus.CONFIG removalRefused
                    (replicate 80 ann))) = 50%nat.
Proof. vm_compute. repeat split. Qed.

(** C5. With the dry-run flag set, an executor makes no mutating provider
    call at all, whatever the candidates and whatever the providers would
    answer: the trace of update, remove and insert calls is empty.  There
    is one record per candidate, and it carries the simulated status (would
    suspend, would remove, would assign) with nothing marked as done. *)
Theorem C5_dry_run_makes_no_call
        (cfg : ManageLicenses.Config) (cfg' : SuspendEplus.Config)
        (M : Mutators) (users : list User) :
  ManageLicenses.DRY_RUN cfg = true ->
  SuspendEplus.DRY_RUN cfg' = true ->
  (snd (ManageLicenses.suspendAndChangeLicenses cfg M users) = []
   /\ map ManageLicenses.email (fst (ManageLicenses.suspendAndChangeLicenses cfg M users))
      = map primaryEmail users
   /\ Forall (dryRunRecord cfg) (fst (ManageLicenses.suspendAndChangeLicenses cfg M users)))
  /\ (snd (SuspendEplus.suspendUsers cfg' M users) = []
      /\ map SuspendEplus.email (fst (SuspendEplus.suspendUsers cfg' M users))
         = map primaryEmail users
      /\ Forall (fun r => SuspendEplus.suspended r = false
                          /\ SuspendEplus.error r = None
                          /\ SuspendEplus.status r = "🔍 DRY RUN - Would suspend")
                (fst (SuspendEplus.suspendUsers cfg' M users))).
Proof.
  intros Hdry Hdry'. split.
  - rewrite ManageLicensesFacts.suspendAndChangeLicenses_map. simpl.
    assert (Hu : forall u, ManageLicenses.processUser cfg M u
                           = (ManageLicenses.dryRunResult cfg (ManageLicenses.pendingResult u), [])).
    { intros u. unfold ManageLicenses.processUser. rewrite Hdry. reflexivity. }
    split; [| split].
    + induction users as [|u rest IH]; simpl; [reflexivity |].
      rewrite Hu. simpl. exact IH.
    + rewrite map_map. apply map_ext. intros u.
      apply ManageLicensesFacts.processUser_frame.
    + apply Forall_map. apply Forall_forall. intros u _. rewrite Hu. simpl.
      unfold dryRunRecord, ManageLicenses.dryRunResult.
      destruct (ManageLicenses.ASSIGN_CLOUD_IDENTITY_FREE cfg); simpl;
        repeat split; reflexivity.
  - rewrite SuspendEplusFacts.suspendUsers_map. simpl.
    assert (Hu : forall u, snd (SuspendEplus.suspendUser cfg' M u) = []
                           /\ SuspendEplus.suspended (fst (SuspendEplus.suspendUser cfg' M u)) = false
                           /\ SuspendEplus.error (fst (SuspendEplus.suspendUser cfg' M u)) = None
                           /\ SuspendEplus.status (fst (SuspendEplus.suspendUser cfg' M u))
                              = "🔍 DRY RUN - Would suspend").
    { intros u. unfold SuspendEplus.suspendUser. rewrite Hdry'. simpl.
      repeat split; reflexivity. }
    split; [| split].
    + induction users as [|u rest IH]; simpl; [reflexivity |].
      rewrite (proj1 (Hu u)). simpl. exact IH.
    + rewrite map_map. apply map_ext. intros u.
      apply SuspendEplusFacts.suspendUser_frame.
    + apply Forall_map. apply Forall_forall. intros u _. apply (Hu u).
Qed.

Lemma C5_dry_run_witness :
  (snd (ManageLicenses.suspendAndChangeLicenses dryRun removalRefused [ann; bob]) = []
   /\ map ManageLicenses.email
          (fst (ManageLicenses.suspendAndChangeLicenses dryRun removalRefused [ann; bob]))
      = map primaryEmail [ann; bob]
   /\ Forall (dryRunRecord dryRun)
             (fst (ManageLicenses.suspendAndChangeLicenses dryRun removalRefused [ann; bob])))
  /\ (snd (SuspendEplus.suspendUsers SuspendEplus.CONFIG removalRefused [ann; bob]) = []
      /\ map SuspendEplus.email
             (fst (SuspendEplus.suspendUsers SuspendEplus.CONFIG removalRefused [ann; bob]))
         = map primaryEmail [ann; bob]
      /\ Forall (fun r => SuspendEplus.suspended r = false
                          /\ SuspendEplus.error r = None
                          /\ SuspendEplus.status r = "🔍 DRY RUN - Would suspend")
                (fst (SuspendEplus.suspendUsers SuspendEplus.CONFIG removalRefused [ann; bob]))).
Proof.
  apply (C5_dry_run_makes_no_call dryRun SuspendEplus.CONFIG removalRefused [ann; bob]);
    reflexivity.
Defined.

(** C6, as stated, fails at an input: the configuration assigns the
    replacement license, the suspension of ann succeeds and the removal of
    her license throws.  The assignment step is not skipped: the insert
    call is made and the record says the license was assigned. *)
Lemma C6_assignment_runs_after_failed_removal :
  snd (ManageLicenses.processUser assigning removalRefused ann)
  = [ CallUpdate "ann@example.com";
      CallRemove "Google-Apps" "1010020020" "ann@example.com";
      CallInsert "ann@example.com" "Google-Apps" "1010010001" ]
  /\ ManageLicenses.licenseRemoved (fst (ManageLicenses.processUser assigning removalRefused ann))
     = false
  /\ ManageLicenses.licenseRemovalStatus
       (fst (ManageLicenses.processUser assigning removalRefused ann))
     = "❌ Failed: Quota exceeded"
  /\ ManageLicenses.licenseAssigned (fst (ManageLicenses.processUser assigning removalRefused ann))
     = true
  /\ ManageLicenses.licenseAssignmentStatus
       (fst (ManageLicenses.processUser assigning removalRefused ann))
     = "✅ Assigned Cloud Identity Free".
Proof. vm_compute. repeat split. Qed.

Lemma processUser_stepwise (cfg : ManageLicenses.Config) (M : Mutators) (user : User) :
  ManageLicenses.DRY_RUN cfg = false ->
  stepwise cfg M user (fst (ManageLicenses.processUser cfg M user))
           (snd (ManageLicenses.processUser cfg M user)).
Proof.
  intros Hlive.
  unfold stepwise, ManageLicenses.processUser. rewrite Hlive.
  destruct (Users_update M (primaryEmail user)) as [[]|m]; simpl.
  2: { repeat split; reflexivity. }
  unfold ManageLicenses.removeStep, ManageLicenses.assignStep,
    ManageLicenses.keepFirstError.
  destruct (LicenseAssignments_remove M _ _ _) as [[]|m2];
    destruct (ManageLicenses.ASSIGN_CLOUD_IDENTITY_FREE cfg);
    try (destruct (LicenseAssignments_insert M _ _ _) as [[]|m3]);
    simpl; unfold noError;
    repeat match goal with
           | |- context [truthy ?m] => destruct (truthy m) eqn:?; simpl
           end;
    repeat split; reflexivity.
Qed.

(** C6, amended.  In the live mode the executor pushes one record per user,
    in order, whichever calls fail: a failure for one user does not stop the
    run.  If the suspension fails, the two license steps are skipped for
    that user (no license call; they stay pending) and the record keeps the
    failure and its message.  If the suspension succeeds, the removal is
    called, and the assignment is called whenever it is enabled, also after
    a failed removal.  Each step leaves its own status on the record,
    failed with its message or done, whatever the other steps did: after a
    failed removal the assignment step still leaves its failed or assigned
    status and the new license text.  The record's error is the message of
    the first failed step whose message is not empty, the last failed
    step's message when they are all empty, and none when no step
    failed. *)
Theorem C6_failed_steps (cfg : ManageLicenses.Config) (M : Mutators) (users : list User) :
  ManageLicenses.DRY_RUN cfg = false ->
  length (fst (ManageLicenses.suspendAndChangeLicenses cfg M users)) = length users
  /\ Forall2 (fun user r => exists calls,
                  ManageLicenses.processUser cfg M user = (r, calls)
                  /\ ManageLicenses.email r = primaryEmail user
                  /\ stepwise cfg M user r calls)
             users (fst (ManageLicenses.suspendAndChangeLicenses cfg M users))
  /\ snd (ManageLicenses.suspendAndChangeLicenses cfg M users)
     = concat (map (fun u => snd (ManageLicenses.processUser cfg M u)) users).
Proof.
  intros Hlive.
  rewrite ManageLicensesFacts.suspendAndChangeLicenses_map. simpl.
  split; [apply length_map |].
  split; [| reflexivity].
  induction users as [|u rest IH]; simpl; constructor; [| exact IH].
  exists (snd (ManageLicenses.processUser cfg M u)).
  split; [destruct (ManageLicenses.processUser cfg M u); reflexivity |].
  split; [apply ManageLicensesFacts.processUser_frame |].
  apply processUser_stepwise. exact Hlive.
Qed.

Lemma C6_failed_steps_witness :
  length (fst (ManageLicenses.suspendAndChangeLicenses assigning licenseCallsRefused [ann; bob]))
  = length [ann; bob]
  /\ Forall2 (fun user r => exists calls,
                  ManageLicenses.processUser assigning licenseCallsRefused user = (r, calls)
                  /\ ManageLicenses.email r = primaryEmail user
                  /\ stepwise assigning licenseCallsRefused user r calls)
             [ann; bob]
             (fst (ManageLicenses.suspendAndChangeLicenses assigning licenseCallsRefused [ann; bob]))
  /\ snd (ManageLicenses.suspendAndChangeLicenses assigning licenseCallsRefused [ann; bob])
     = concat (map (fun u => snd (ManageLicenses.processUser assigning licenseCallsRefused u))
                   [ann; bob]).
Proof.
  apply (C6_failed_steps assigning licenseCallsRefused [ann; bob]). reflexivity.
Defined.

(** The run on that sample: ann's suspension is refused and she gets no
    license call; bob is suspended after her, the removal of his license
    is refused, the assignment is attempted all the same and refused too,
    and his record keeps both failed statuses and the first message. *)
Example license_calls_refused_run :
  let run := ManageLicenses.suspendAndChangeLicenses assigning licenseCallsRefused [ann; bob] in
  snd run
  = [ CallUpdate "ann@example.com";
      CallUpdate "bob@example.com";
      CallRemove "Google-Apps" "1010020020" "bob@example.com";
      CallInsert "bob@example.com" "Google-Apps" "1010010001" ]
  /\ map (fun r => (ManageLicenses.suspended r, ManageLicenses.licenseRemovalStatus r,
                    ManageLicenses.licenseAssignmentStatus r, ManageLicenses.newLicenses r,
                    ManageLicenses.error r))
         (fst run)
     = [ (false, "Pending", "Pending", EmptyString, Some "Not Authorized");
         (true, "❌ Failed: Quota exceeded", "❌ Failed: No seats left",
          "License assignment failed", Some "Quota exceeded") ].
Proof. vm_compute. split; reflexivity. Qed.

(** The run on the sample: ann's suspension is refused, she gets no
    license call, and bob is processed in full after her. *)
Example suspension_refused_run :
  snd (ManageLicenses.suspendAndChangeLicenses assigning suspendRefusedForAnn [ann; bob])
  = [ CallUpdate "ann@example.com";
      CallUpdate "bob@example.com";
      CallRemove "Google-Apps" "1010020020" "bob@example.com";
      CallInsert "bob@example.com" "Google-Apps" "1010010001" ]
  /\ map ManageLicenses.error
         (fst (ManageLicenses.suspendAndChangeLicenses assigning suspendRefusedForAnn [ann; bob]))
     = [Some "Not Authorized"; None].
Proof. vm_compute. split; reflexivity. Qed.

(* ================================================================== *)
(** * Properties of the resumable groups audit                          *)
(* ================================================================== *)

Module GroupsBatchFacts.
Import GroupsBatch.
Ltac eval_digit :=
  match goal with
  | |- context [digitValue ?c] =>
      let v := eval vm_compute in (digitValue c) in
      change (digitValue c) with v; cbv iota beta
  end.

Lemma parseDigits_string_of_uint (d : uint) (acc : Z) :
  0 <= acc ->
  parseDigits 10 (NilEmpty.string_of_uint d) acc true
  = Some (Z.of_nat (Nat.of_uint_acc d (Z.to_nat acc))).
Proof.
  revert acc. induction d; intros acc Hacc; simpl NilEmpty.string_of_uint;
    cbn [parseDigits Nat.of_uint_acc].
  1: { rewrite Z2Nat.id by lia. reflexivity. }
  all: eval_digit; change (_ <? 10) with true; cbv iota;
    rewrite IHd by lia; do 2 f_equal; f_equal;
    rewrite Nat.tail_mul_spec; lia.
Qed.

Lemma to_uint_nonnil (n : nat) : Nat.to_uint n <> Nil.
Proof.
  rewrite <- (Unsigned.of_to n) at 1. rewrite Unsigned.to_of. apply unorm_nonnil.
Qed.

Lemma parseInt_decimal (d : uint) :
  d <> Nil ->
  parseInt (NilEmpty.string_of_uint d)
  = match parseDigits 10 (NilEmpty.string_of_uint d) 0 true with
    | Some v => Num (1 * v)
    | None => NaN
    end.
Proof.
  intros Hd.
  destruct d as [|d|d|d|d|d|d|d|d|d|d]; [contradiction | | reflexivity ..].
  destruct d as [|d|d|d|d|d|d|d|d|d|d]; reflexivity.
Qed.

Lemma parseInt_natToString (n : nat) : parseInt (natToString n) = Num (Z.of_nat n).
Proof.
  unfold natToString, NilZero.string_of_uint.
  pose proof (to_uint_nonnil n) as Hn.
  destruct (Nat.to_uint n) eqn:Hd; [contradiction | ..];
    rewrite <- Hd in *; rewrite parseInt_decimal by exact Hn;
    rewrite parseDigits_string_of_uint by lia;
    change (Nat.of_uint_acc (Nat.to_uint n) (Z.to_nat 0)) with (Nat.of_uint (Nat.to_uint n));
    rewrite Unsigned.of_to, Z.mul_1_l; reflexivity.
Qed.

Lemma natToString_truthy (n : nat) : truthy (natToString n) = true.
Proof.
  unfold natToString, NilZero.string_of_uint.
  pose proof (to_uint_nonnil n) as Hn.
  destruct (Nat.to_uint n); [contradiction | ..]; reflexivity.
Qed.

Lemma toString_nat (n : nat) : toString (Num (Z.of_nat n)) = natToString n.
Proof.
  unfold toString.
  destruct (Z.ltb_spec (Z.of_nat n) 0); [lia |].
  rewrite Nat2Z.id. reflexivity.
Qed.

Lemma relativeIndex_nat (len k : nat) :
  (k <= len)%nat -> relativeIndex len (Z.of_nat k) = k.
Proof.
  intros H. unfold relativeIndex.
  destruct (Z.ltb_spec (Z.of_nat k) 0); lia.
Qed.

Lemma slice_batch {A : Type} (l : list A) (n B : nat) :
  (n <= length l)%nat ->
  slice l (Num (Z.of_nat n))
        (Math_min (add (Num (Z.of_nat n)) (Num (Z.of_nat B))) (Num (Z.of_nat (length l))))
  = take B (drop n l).
Proof.
  intros Hn. unfold slice. simpl.
  rewrite relativeIndex_nat by exact Hn.
  replace (Z.min (Z.of_nat n + Z.of_nat B) (Z.of_nat (length l)))
    with (Z.of_nat (Nat.min (n + B) (length l))) by lia.
  rewrite relativeIndex_nat by lia.
  destruct (Nat.le_gt_cases (n + B) (length l)) as [Hle | Hgt].
  - f_equal. lia.
  - rewrite !take_ge; [reflexivity | rewrite length_drop; lia | rewrite length_drop; lia].
Qed.

Lemma processBatch_spec (cfg : Config) (E : Env) (batchGroups : list Group)
      (i : nat) (batchResults : list AuditResult) :
  exists k : nat,
    (k <= length batchGroups)%nat
    /\ processBatch cfg E batchGroups i batchResults i
       = (batchResults ++ omap (checkGroup E) (take k batchGroups), (i + k)%nat).
Proof.
  revert i batchResults.
  induction batchGroups as [|g rest IH]; intros i batchResults; simpl.
  - exists 0%nat. rewrite app_nil_r, Nat.add_0_r. split; [lia | reflexivity].
  - destruct (elapsed_ms E i >? 1000 * MAX_EXECUTION_TIME cfg).
    + exists 0%nat. simpl. rewrite app_nil_r, Nat.add_0_r. split; [lia | reflexivity].
    + destruct (IH (S i) (match checkGroup E g with
                          | Some entry => batchResults ++ [entry]
                          | None => batchResults
                          end)) as (k & Hk & Heq).
      exists (S k). split; [lia |].
      rewrite Heq. simpl. f_equal; [| lia].
      destruct (checkGroup E g); [rewrite <- app_assoc |]; reflexivity.
Qed.

(** With an unlimited clock the loop runs through the batch. *)
Lemma processBatch_in_time (cfg : Config) (E : Env) (batchGroups : list Group)
      (i : nat) (batchResults : list AuditResult) :
  (forall j, elapsed_ms E j <= 1000 * MAX_EXECUTION_TIME cfg) ->
  processBatch cfg E batchGroups i batchResults i
  = (batchResults ++ omap (checkGroup E) batchGroups, (i + length batchGroups)%nat).
Proof.
  intros Htime. revert i batchResults.
  induction batchGroups as [|g rest IH]; intros i batchResults; simpl.
  - rewrite app_nil_r, Nat.add_0_r. reflexivity.
  - destruct (Z.gtb_spec (elapsed_ms E i) (1000 * MAX_EXECUTION_TIME cfg)) as [Hgt|_].
    { specialize (Htime i). lia. }
    rewrite IH. f_equal; [| lia].
    destruct (checkGroup E g); [rewrite <- app_assoc |]; reflexivity.
Qed.

Section Audit.

Variables (JG : Codec (list Group)) (JR : Codec (list AuditResult)).
Hypothesis JG_lawful : Lawful JG.
Hypothesis JR_lawful : Lawful JR.
Hypothesis JR_empty : ParsesEmpty JR.

Lemma getAllGroups_cached (E : Env) (props : gmap string string) (G : list Group) :
  props !! "groupsCache" = Some (stringify JG G) ->
  getAllGroups JG E props = (Returns G, props).
Proof.
  intros Hc. unfold getAllGroups. rewrite Hc.
  destruct (JG_lawful G) as [-> ->]. reflexivity.
Qed.

Lemma audit_step (cfg : Config) (E : Env) (props : gmap string string)
      (G : list Group) (n : nat) (rs : list AuditResult) :
  props !! "groupsCache" = Some (stringify JG G) ->
  loadProcessedIndex props = Num (Z.of_nat n) ->
  (n <= length G)%nat ->
  loadAuditResults JR props = Some rs ->
  exists k : nat,
    (k <= BATCH_SIZE cfg)%nat /\ (n + k <= length G)%nat
    /\ auditGroupsWithoutOwners cfg JG JR E props
       = let allResults := rs ++ omap (checkGroup E) (take k (drop n G)) in
         let saved :=
           <["auditResults" := stringify JR allResults]>
             (<["processedIndex" := natToString (n + k)]> props) in
         if (length G <=? n + k)%nat
         then Finished (delete "auditResults" (delete "processedIndex" saved))
                       (Some {| report_groups := allResults;
                                totalGroupsScanned := length G |})
         else Finished saved None.
Proof.
  intros Hc Hi Hn Hr.
  unfold auditGroupsWithoutOwners.
  rewrite (getAllGroups_cached E props G Hc), Hi, Hr.
  rewrite slice_batch by exact Hn.
  destruct (processBatch_spec cfg E (take (BATCH_SIZE cfg) (drop n G)) 0 [])
    as (k & Hk & ->).
  rewrite length_take, length_drop in Hk.
  exists k. split; [lia |]. split; [lia |].
  rewrite take_take. replace (k `min` BATCH_SIZE cfg)%nat with k by lia.
  cbn [add]. rewrite <- Nat2Z.inj_add, toString_nat. cbn [ge].
  simpl app. cbv zeta.
  destruct (Nat.leb_spec (length G) (0 + k)%nat) as [H1|H1];
    destruct (Nat.leb_spec (length G) (n + k)%nat) as [H2|H2].
  all: destruct (Z.geb_spec (Z.of_nat (n + (0 + k))) (Z.of_nat (length G))) as [H3|H3];
    try lia; simpl; reflexivity.
Qed.

End Audit.

Lemma or_default_truthy (s d : string) : truthy s = true -> or_default (Some s) d = s.
Proof. intros H. unfold or_default. rewrite H. reflexivity. Qed.

Lemma or_default_missing (x : option string) (d : string) :
  missing x -> or_default x d = d.
Proof. intros [-> | ->]; reflexivity. Qed.

Section Checkpoint.

Variables (JG : Codec (list Group)) (JR : Codec (list AuditResult)).
Hypothesis JG_lawful : Lawful JG.
Hypothesis JR_lawful : Lawful JR.
Hypothesis JR_empty : ParsesEmpty JR.

Lemma load_saved (props : gmap string string) (n : nat) (rs : list AuditResult) :
  let saved := <["auditResults" := stringify JR rs]>
                 (<["processedIndex" := natToString n]> props) in
  loadProcessedIndex saved = Num (Z.of_nat n)
  /\ loadAuditResults JR saved = Some rs
  /\ saved !! "groupsCache" = props !! "groupsCache".
Proof.
  intros saved. unfold saved, loadProcessedIndex, loadAuditResults.
  rewrite lookup_insert_ne by discriminate.
  rewrite !lookup_insert_eq.
  rewrite lookup_insert_ne by discriminate.
  rewrite lookup_insert_ne by discriminate.
  rewrite or_default_truthy by apply natToString_truthy.
  rewrite or_default_truthy by apply JR_lawful.
  split; [apply parseInt_natToString |].
  split; [apply JR_lawful | reflexivity].
Qed.

Lemma load_cleared (props : gmap string string) :
  let cleared := delete "auditResults" (delete "processedIndex" props) in
  cleared !! "processedIndex" = None
  /\ cleared !! "auditResults" = None
  /\ cleared !! "groupsCache" = props !! "groupsCache"
  /\ loadProcessedIndex cleared = Num 0
  /\ loadAuditResults JR cleared = Some [].
Proof.
  intros cleared. unfold cleared, loadProcessedIndex, loadAuditResults.
  rewrite lookup_delete_ne by discriminate.
  rewrite !lookup_delete_eq.
  rewrite lookup_delete_ne by discriminate.
  rewrite lookup_delete_ne by discriminate.
  repeat split; try reflexivity. exact JR_empty.
Qed.

End Checkpoint.

(** Only the index and the results of the starting properties matter. *)
Lemma CycleRuns_same_start (JR : Codec (list AuditResult)) (G : list Group)
      (props props0 : gmap string string) (runs : list RunResult) :
  loadProcessedIndex props = loadProcessedIndex props0 ->
  loadAuditResults JR props = loadAuditResults JR props0 ->
  CycleRuns JR G props0 runs -> CycleRuns JR G props runs.
Proof.
  intros Hi Hr H.
  destruct H as [p | p p' n n' rs rs' rest Hi1 Hr1 Hi2 Hr2 Hle Hpre Hrest
                 | p p' n rs batch rest Hi1 Hr1 Hp1 Hp2 Hrest].
  - constructor.
  - apply (cycle_batch JR G props p' n n' rs rs' rest); congruence.
  - apply (cycle_flush JR G props p' n rs batch rest); congruence.
Qed.

Section AuditTheorems.

Variables (JG : Codec (list Group)) (JR : Codec (list AuditResult)).
Hypothesis JG_lawful : Lawful JG.
Hypothesis JR_lawful : Lawful JR.
Hypothesis JR_empty : ParsesEmpty JR.

(** Whatever the properties hold, a run that generates the final report
    leaves no index and no results, and leaves a groups cache. *)
Lemma report_run_clears_progress (cfg : Config) (E : Env)
      (props props' : gmap string string) (report : FinalReport) :
  auditGroupsWithoutOwners cfg JG JR E props = Finished props' (Some report) ->
  props' !! "processedIndex" = None
  /\ props' !! "auditResults" = None
  /\ is_Some (props' !! "groupsCache").
Proof.
  unfold auditGroupsWithoutOwners.
  assert (Hcache : is_Some (snd (getAllGroups JG E props) !! "groupsCache")).
  { unfold getAllGroups.
    destruct (props !! "groupsCache") as [c|] eqn:Hc.
    - destruct (truthy c); simpl.
      + rewrite Hc. eexists; reflexivity.
      + rewrite lookup_insert_eq. eexists; reflexivity.
    - simpl. rewrite lookup_insert_eq. eexists; reflexivity. }
  destruct (getAllGroups JG E props) as [[G|m] props1]; [| discriminate].
  simpl in Hcache.
  destruct (loadAuditResults JR props1) as [rs|]; [| discriminate].
  destruct (processBatch _ _ _ _ _ _) as [batch k].
  destruct (ge _ _); [| discriminate].
  intros [= <- _].
  rewrite lookup_delete_ne by discriminate.
  rewrite !lookup_delete_eq.
  rewrite lookup_delete_ne by discriminate.
  rewrite lookup_delete_ne by discriminate.
  rewrite lookup_insert_ne by discriminate.
  rewrite lookup_insert_ne by discriminate.
  repeat split; try reflexivity. exact Hcache.
Qed.

Lemma run_from_checkpoint (cfg : Config) (E : Env) (props : gmap string string)
        (G : list Group) (n : nat) (rs : list AuditResult) :
  props !! "groupsCache" = Some (stringify JG G) ->
  loadProcessedIndex props = Num (Z.of_nat n) ->
  (n <= length G)%nat ->
  loadAuditResults JR props = Some rs ->
  exists (k : nat) (props' : gmap string string) (report : option FinalReport),
    (n + k <= length G)%nat
    /\ auditGroupsWithoutOwners cfg JG JR E props = Finished props' report
    /\ props' !! "groupsCache" = Some (stringify JG G)
    /\ ((n + k)%nat = length G ->
        report = Some {| report_groups := rs ++ omap (checkGroup E) (take k (drop n G));
                         totalGroupsScanned := length G |}
        /\ props' !! "processedIndex" = None
        /\ props' !! "auditResults" = None
        /\ loadProcessedIndex props' = Num 0
        /\ loadAuditResults JR props' = Some []
        /\ resetAudit props' !! "groupsCache" = None)
    /\ ((n + k < length G)%nat ->
        report = None
        /\ loadProcessedIndex props' = Num (Z.of_nat (n + k))
        /\ loadAuditResults JR props'
           = Some (rs ++ omap (checkGroup E) (take k (drop n G)))).
Proof.
  intros Hc Hi Hn Hr.
  destruct (audit_step JG JR JG_lawful cfg E props G n rs Hc Hi Hn Hr)
    as (k & Hk & Hnk & Hrun).
  cbv zeta in Hrun.
  pose proof (load_saved JR JR_lawful props (n + k)
                (rs ++ omap (checkGroup E) (take k (drop n G)))) as Hsaved.
  cbv zeta in Hsaved. destruct Hsaved as (Hs1 & Hs2 & Hs3).
  destruct (Nat.leb_spec (length G) (n + k)) as [Hfull | Hpart].
  - pose proof (load_cleared JR JR_empty
                  (<["auditResults" := stringify JR
                       (rs ++ omap (checkGroup E) (take k (drop n G)))]>
                     (<["processedIndex" := natToString (n + k)]> props))) as Hcl.
    cbv zeta in Hcl. destruct Hcl as (Hc1 & Hc2 & Hc3 & Hc4 & Hc5).
    eexists k, _, _. split; [exact Hnk |]. split; [exact Hrun |].
    split; [rewrite Hc3, Hs3; exact Hc |].
    split; [| intros; lia].
    intros _. repeat split; try assumption.
    unfold resetAudit. apply lookup_delete_eq.
  - eexists k, _, _. split; [exact Hnk |]. split; [exact Hrun |].
    split; [rewrite Hs3; exact Hc |].
    split; [intros; lia |].
    intros _. repeat split; assumption.
Qed.

Lemma audit_fresh_start (cfg : Config) (E : Env) (props : gmap string string) :
  missing (props !! "groupsCache") ->
  auditGroupsWithoutOwners cfg JG JR E props
  = auditGroupsWithoutOwners cfg JG JR E
      (<["groupsCache" := stringify JG (collectGroups (Groups_list E) [])]> props).
Proof.
  intros Hc. unfold auditGroupsWithoutOwners.
  rewrite (getAllGroups_cached JG JG_lawful E
             (<["groupsCache" := stringify JG (collectGroups (Groups_list E) [])]> props)
             (collectGroups (Groups_list E) []))
    by apply lookup_insert_eq.
  unfold getAllGroups. destruct Hc as [-> | ->]; reflexivity.
Qed.

Lemma cycle_runs (cfg : Config) (G : list Group) (envs : list Env) :
  forall (props : gmap string string) (n : nat) (rs : list AuditResult),
    props !! "groupsCache" = Some (stringify JG G) ->
    loadProcessedIndex props = Num (Z.of_nat n) ->
    (n <= length G)%nat ->
    loadAuditResults JR props = Some rs ->
    CycleRuns JR G props (auditRuns cfg JG JR envs props).
Proof.
  induction envs as [|E rest IH]; intros props n rs Hc Hi Hn Hr; simpl.
  - constructor.
  - destruct (run_from_checkpoint cfg E props G n rs Hc Hi Hn Hr)
      as (k & props' & report & Hnk & Hrun & Hc' & Hfull & Hpart).
    rewrite Hrun.
    destruct (Nat.eq_dec (n + k)%nat (length G)) as [Heq | Hne].
    + destruct (Hfull Heq) as (-> & Hp1 & Hp2 & Hi' & Hr' & _).
      apply (cycle_flush JR G props props' n rs _ _ Hi Hr Hp1 Hp2).
      apply (IH props' 0%nat []); [exact Hc' | exact Hi' | lia | exact Hr'].
    + destruct (Hpart ltac:(lia)) as (-> & Hi' & Hr').
      apply (cycle_batch JR G props props' n (n + k)%nat rs _ _ Hi Hr Hi' Hr').
      * lia.
      * apply prefix_app_r. reflexivity.
      * eapply (IH props' (n + k)%nat); [exact Hc' | exact Hi' | lia | exact Hr'].
Qed.


(** C7, amended.  Take properties that hold the cached list [G], an index
    [n] within it and results [rs].  A run returns, having advanced the
    index by the number [k] of groups it processed.  When the index
    reaches the length of the list, the run passes the previous results
    extended by those of this batch, all of them, to the report, and then
    deletes the index and the results: the next run loads index 0 and no
    results.  The cached list is not deleted: it stays in the properties
    until [resetAudit]. *)
Theorem C7_terminal_flush (cfg : Config) (E : Env) (props : gmap string string)
        (G : list Group) (n : nat) (rs : list AuditResult) :
  props !! "groupsCache" = Some (stringify JG G) ->
  loadProcessedIndex props = Num (Z.of_nat n) ->
  (n <= length G)%nat ->
  loadAuditResults JR props = Some rs ->
  exists (k : nat) (props' : gmap string string) (report : option FinalReport),
    (n + k <= length G)%nat
    /\ auditGroupsWithoutOwners cfg JG JR E props = Finished props' report
    /\ props' !! "groupsCache" = Some (stringify JG G)
    /\ ((n + k)%nat = length G ->
        report = Some {| report_groups := rs ++ omap (checkGroup E) (take k (drop n G));
                         totalGroupsScanned := length G |}
        /\ props' !! "processedIndex" = None
        /\ props' !! "auditResults" = None
        /\ loadProcessedIndex props' = Num 0
        /\ loadAuditResults JR props' = Some []
        /\ resetAudit props' !! "groupsCache" = None)
    /\ ((n + k < length G)%nat ->
        report = None
        /\ loadProcessedIndex props' = Num (Z.of_nat (n + k))
        /\ loadAuditResults JR props'
           = Some (rs ++ omap (checkGroup E) (take k (drop n G)))).
Proof. apply run_from_checkpoint. Qed.

(** C8. Take properties with an index and results, and let [G] be the
    list the runs work on: the cached one or, on properties without a
    cache, the one the first run fetches; the index is within [G].  Run
    the audit any number of times, in any environments, without a reset.
    Every run returns.  After a run that does not generate the report the
    persisted index is a number that has not decreased and is at most the
    length of [G], and the persisted results are the previous ones with
    this run's appended.  A run that generates the report gives it the
    previous results extended and leaves neither index nor results; the
    runs after it are again such runs. *)
Theorem C8_checkpoint_monotone (cfg : Config) (G : list Group) (envs : list Env)
        (props : gmap string string) (n : nat) (rs : list AuditResult) :
  CycleList JG G envs props ->
  loadProcessedIndex props = Num (Z.of_nat n) ->
  (n <= length G)%nat ->
  loadAuditResults JR props = Some rs ->
  CycleRuns JR G props (auditRuns cfg JG JR envs props).
Proof.
  intros [Hc | [Hc HG]] Hi Hn Hr.
  - apply (cycle_runs cfg G envs props n rs Hc Hi Hn Hr).
  - destruct envs as [|E rest]; [constructor |].
    simpl in HG.
    set (props0 := <["groupsCache" := stringify JG G]> props).
    assert (Hi0 : loadProcessedIndex props0 = loadProcessedIndex props).
    { unfold loadProcessedIndex, props0. rewrite lookup_insert_ne by discriminate.
      reflexivity. }
    assert (Hr0 : loadAuditResults JR props0 = loadAuditResults JR props).
    { unfold loadAuditResults, props0. rewrite lookup_insert_ne by discriminate.
      reflexivity. }
    assert (Hrun : auditRuns cfg JG JR (E :: rest) props
                   = auditRuns cfg JG JR (E :: rest) props0).
    { simpl. rewrite (audit_fresh_start cfg E props Hc), <- HG. reflexivity. }
    rewrite Hrun.
    apply (CycleRuns_same_start JR G props props0); [congruence | congruence |].
    apply (cycle_runs cfg G (E :: rest) props0 n rs).
    + apply lookup_insert_eq.
    + rewrite Hi0. exact Hi.
    + exact Hn.
    + rewrite Hr0. exact Hr.
Qed.

(** C9, amended.  When the persisted index and results are missing (the
    property is absent, or empty), loading them yields the defaults, index
    0 and an empty list of results, and nothing is raised; with a cached
    list in the properties the run then returns, having processed the [k]
    first groups of the list, as from no progress. *)
Theorem C9_missing_state_loads_defaults (props : gmap string string) :
  missing (props !! "processedIndex") ->
  missing (props !! "auditResults") ->
  loadProcessedIndex props = Num 0
  /\ loadAuditResults JR props = Some []
  /\ checkAuditProgress JR props = Some (Num 0, [])
  /\ forall cfg E G,
      props !! "groupsCache" = Some (stringify JG G) ->
      exists (k : nat) (props' : gmap string string) (report : option FinalReport),
        auditGroupsWithoutOwners cfg JG JR E props = Finished props' report
        /\ (k <= length G)%nat
        /\ (k < length G ->
            loadProcessedIndex props' = Num (Z.of_nat k)
            /\ loadAuditResults JR props' = Some (omap (checkGroup E) (take k G)))%nat
        /\ (k = length G ->
            report = Some {| report_groups := omap (checkGroup E) G;
                             totalGroupsScanned := length G |}).
Proof.
  intros Hi Hr.
  assert (Hi0 : loadProcessedIndex props = Num 0).
  { unfold loadProcessedIndex. rewrite or_default_missing by exact Hi. reflexivity. }
  assert (Hr0 : loadAuditResults JR props = Some []).
  { unfold loadAuditResults. rewrite or_default_missing by exact Hr. exact JR_empty. }
  split; [exact Hi0 |]. split; [exact Hr0 |].
  split; [unfold checkAuditProgress; rewrite Hr0, Hi0; reflexivity |].
  intros cfg E G Hc.
  destruct (run_from_checkpoint cfg E props G 0%nat [] Hc Hi0 ltac:(lia) Hr0)
    as (k & props' & report & Hk & Hrun & _ & Hfull & Hpart).
  exists k, props', report. simpl in *.
  split; [exact Hrun |]. split; [exact Hk |].
  split.
  - intros Hlt. destruct (Hpart Hlt) as (_ & H1 & H2). split; assumption.
  - intros Heq. destruct (Hfull Heq) as (-> & _). subst k.
    rewrite firstn_all. reflexivity.
Qed.

(** A value that is present is used as it is: the index is what
    [parseInt] makes of the text, and a results text that does not parse
    ends the run with the exception. *)
Lemma present_state_is_not_defaulted (props : gmap string string) (s : string) :
  truthy s = true ->
  (props !! "processedIndex" = Some s -> loadProcessedIndex props = parseInt s)
  /\ (props !! "auditResults" = Some s -> parse JR s = None ->
      checkAuditProgress JR props = None
      /\ forall cfg E, exists m props',
          auditGroupsWithoutOwners cfg JG JR E props = Raised m props').
Proof.
  intros Ht. split.
  - intros Hs. unfold loadProcessedIndex. rewrite Hs, or_default_truthy by exact Ht.
    reflexivity.
  - intros Hs Hp.
    split.
    { unfold checkAuditProgress, loadAuditResults.
      rewrite Hs, or_default_truthy, Hp by exact Ht. reflexivity. }
    intros cfg E. unfold auditGroupsWithoutOwners.
    assert (Hkeep : snd (getAllGroups JG E props) !! "auditResults" = Some s).
    { unfold getAllGroups.
      destruct (props !! "groupsCache") as [c|]; [destruct (truthy c) |]; simpl;
        try exact Hs; rewrite lookup_insert_ne by discriminate; exact Hs. }
    destruct (getAllGroups JG E props) as [[G|m] props1]; simpl in Hkeep.
    + unfold loadAuditResults. rewrite Hkeep, or_default_truthy, Hp by exact Ht.
      eexists _, _. reflexivity.
    + eexists _, _. reflexivity.
Qed.

End AuditTheorems.

Lemma hasRoleIn_throw (pages : Listing Member) :
  reachesThrow pages -> hasRoleIn pages = false.
Proof.
  induction pages as [m | ms | ms next IH]; simpl.
  - reflexivity.
  - intros [].
  - intros [-> Hnext]. apply IH. exact Hnext.
Qed.

Lemma checkGroup_ext (E E' : Env) :
  (forall g r, checkGroupHasRole E g r = checkGroupHasRole E' g r) ->
  forall group, checkGroup E group = checkGroup E' group.
Proof.
  intros Hext group. unfold checkGroup. rewrite !Hext. reflexivity.
Qed.

Lemma processBatch_ext (cfg : Config) (E E' : Env) :
  (forall g r, checkGroupHasRole E g r = checkGroupHasRole E' g r) ->
  (forall i, elapsed_ms E i = elapsed_ms E' i) ->
  forall groups i rs k,
    processBatch cfg E groups i rs k = processBatch cfg E' groups i rs k.
Proof.
  intros Hext Htime groups.
  induction groups as [|g rest IH]; intros i rs k; simpl.
  - reflexivity.
  - rewrite Htime, (checkGroup_ext E E' Hext g). destruct (_ >? _); [reflexivity |].
    apply IH.
Qed.

Lemma audit_ext (cfg : Config) (JG : Codec (list Group)) (JR : Codec (list AuditResult))
      (E E' : Env) (props : gmap string string) :
  Groups_list E = Groups_list E' ->
  (forall g r, checkGroupHasRole E g r = checkGroupHasRole E' g r) ->
  (forall i, elapsed_ms E i = elapsed_ms E' i) ->
  auditGroupsWithoutOwners cfg JG JR E props = auditGroupsWithoutOwners cfg JG JR E' props.
Proof.
  intros Hg Hext Htime. unfold auditGroupsWithoutOwners.
  assert (Hget : getAllGroups JG E props = getAllGroups JG E' props).
  { unfold getAllGroups. rewrite Hg. reflexivity. }
  rewrite Hget.
  destruct (getAllGroups JG E' props) as [[G|m] props1]; [| reflexivity].
  destruct (loadAuditResults JR props1); [| reflexivity].
  rewrite (processBatch_ext cfg E E' Hext Htime). reflexivity.
Qed.

(** When the clock stays within the limit for the length of a batch, the
    loop goes through the batch. *)
Lemma processBatch_within (cfg : Config) (E : Env) (batchGroups : list Group)
      (i : nat) (batchResults : list AuditResult) :
  (forall j, (i <= j < i + length batchGroups)%nat ->
             elapsed_ms E j <= 1000 * MAX_EXECUTION_TIME cfg) ->
  processBatch cfg E batchGroups i batchResults i
  = (batchResults ++ omap (checkGroup E) batchGroups, (i + length batchGroups)%nat).
Proof.
  revert i batchResults.
  induction batchGroups as [|g rest IH]; intros i batchResults Htime; simpl.
  - rewrite app_nil_r, Nat.add_0_r. reflexivity.
  - destruct (Z.gtb_spec (elapsed_ms E i) (1000 * MAX_EXECUTION_TIME cfg)) as [Hgt|_].
    { specialize (Htime i). simpl in Htime. lia. }
    rewrite IH.
    + f_equal; [| lia].
      destruct (checkGroup E g); [rewrite <- app_assoc |]; reflexivity.
    + intros j Hj. apply Htime. simpl. lia.
Qed.

(** A run that is not cut short by the clock goes through its batch: the
    entries of the groups of the batch that miss a role join the results,
    which are saved, or passed to the report when the batch ends the
    list. *)
Lemma run_in_time (JG : Codec (list Group)) (JR : Codec (list AuditResult))
      (cfg : Config) (E : Env) (props : gmap string string)
      (G : list Group) (n : nat) (rs : list AuditResult) :
  Lawful JG -> Lawful JR ->
  props !! "groupsCache" = Some (stringify JG G) ->
  loadProcessedIndex props = Num (Z.of_nat n) ->
  (n <= length G)%nat ->
  loadAuditResults JR props = Some rs ->
  inTime cfg E ->
  exists props' : gmap string string,
    auditGroupsWithoutOwners cfg JG JR E props
    = Finished props'
        (if (length G <=? n + BATCH_SIZE cfg)%nat
         then Some {| report_groups :=
                        rs ++ omap (checkGroup E) (take (BATCH_SIZE cfg) (drop n G));
                      totalGroupsScanned := length G |}
         else None)
    /\ ((n + BATCH_SIZE cfg < length G)%nat ->
        loadAuditResults JR props'
        = Some (rs ++ omap (checkGroup E) (take (BATCH_SIZE cfg) (drop n G)))).
Proof.
  intros HJG HJR Hc Hi Hn Hr Htime.
  unfold auditGroupsWithoutOwners.
  rewrite (getAllGroups_cached JG HJG E props G Hc), Hi, Hr.
  rewrite slice_batch by exact Hn.
  rewrite (processBatch_within cfg E (take (BATCH_SIZE cfg) (drop n G)) 0 []).
  2: { intros j Hj. apply Htime. rewrite length_take in Hj. lia. }
  rewrite length_take, length_drop.
  cbn [add]. rewrite <- Nat2Z.inj_add, toString_nat. cbn [ge].
  simpl app. cbv zeta.
  pose proof (load_saved JR HJR props
                (n + (0 + BATCH_SIZE cfg `min` (length G - n)))
                (rs ++ omap (checkGroup E) (take (BATCH_SIZE cfg) (drop n G)))) as Hsaved.
  cbv zeta in Hsaved. destruct Hsaved as (_ & Hs2 & _).
  destruct (Nat.leb_spec (length G) (n + BATCH_SIZE cfg)) as [Hfull | Hpart];
    destruct (Z.geb_spec (Z.of_nat (n + (0 + BATCH_SIZE cfg `min` (length G - n))))
                         (Z.of_nat (length G))) as [H3 | H3]; try lia.
  - eexists. split; [reflexivity | intros; lia].
  - eexists. split; [reflexivity | intros _; exact Hs2].
Qed.

(** C10. Let the loop of [checkGroupHasRole] for a group and a role,
    OWNER or MANAGER, reach a members request that throws.  Then
    [checkGroupHasRole] answers [false] for that role, and the audit makes
    an entry for the group in which the role is missing.  The entry is
    recorded: a run that is not cut short by the clock and has the group
    in its batch puts the entry among the results, which it saves in the
    properties for the next run, or passes to the final report when the
    batch ends the list.  The entry, and with it every run of the audit,
    properties and report, is the same as when the listing answers that
    the group has no member with that role: the report cannot tell the
    provider error from a missing owner or manager. *)
Theorem C10_provider_error_reads_as_missing_role
        (E : Env) (group : Group) (role : string) :
  role = "OWNER" \/ role = "MANAGER" ->
  reachesThrow (Members_list E (email group) role) ->
  checkGroupHasRole E (email group) role = false
  /\ (exists entry,
         checkGroup E group = Some entry
         /\ groupEmail entry = email group
         /\ (role = "OWNER" ->
             hasOwner entry = false
             /\ (missingRoles entry = "OWNER" \/ missingRoles entry = "OWNER, MANAGER"))
         /\ (role = "MANAGER" ->
             hasManager entry = false
             /\ (missingRoles entry = "MANAGER" \/ missingRoles entry = "OWNER, MANAGER"))
         (* the entry is recorded by the run that has the group in its batch *)
         /\ (forall cfg JG JR props G n rs,
                Lawful JG -> Lawful JR ->
                props !! "groupsCache" = Some (stringify JG G) ->
                loadProcessedIndex props = Num (Z.of_nat n) ->
                (n <= length G)%nat ->
                loadAuditResults JR props = Some rs ->
                inTime cfg E ->
                group ∈ take (BATCH_SIZE cfg) (drop n G) ->
                exists props' report,
                  auditGroupsWithoutOwners cfg JG JR E props = Finished props' report
                  /\ match report with
                     | Some final => entry ∈ report_groups final
                     | None =>
                         exists saved,
                           loadAuditResults JR props' = Some saved /\ entry ∈ saved
                     end))
  /\ checkGroup E group = checkGroup (withNoMembers E (email group) role) group
  /\ (forall cfg JG JR props,
         auditGroupsWithoutOwners cfg JG JR E props
         = auditGroupsWithoutOwners cfg JG JR (withNoMembers E (email group) role) props).
Proof.
  intros Hrole Hthrow.
  assert (Hfalse : checkGroupHasRole E (email group) role = false).
  { apply hasRoleIn_throw. exact Hthrow. }
  assert (Hext : forall g r, checkGroupHasRole E g r
                             = checkGroupHasRole (withNoMembers E (email group) role) g r).
  { intros g r. unfold checkGroupHasRole, withNoMembers. simpl.
    destruct (String.eqb_spec g (email group)) as [-> | Hg]; simpl; [| reflexivity].
    destruct (String.eqb_spec r role) as [-> | Hr]; simpl; [| reflexivity].
    exact Hfalse. }
  assert (Hrecorded : forall entry,
             checkGroup E group = Some entry ->
             forall cfg JG JR props G n rs,
               Lawful JG -> Lawful JR ->
               props !! "groupsCache" = Some (stringify JG G) ->
               loadProcessedIndex props = Num (Z.of_nat n) ->
               (n <= length G)%nat ->
               loadAuditResults JR props = Some rs ->
               inTime cfg E ->
               group ∈ take (BATCH_SIZE cfg) (drop n G) ->
               exists props' report,
                 auditGroupsWithoutOwners cfg JG JR E props = Finished props' report
                 /\ match report with
                    | Some final => entry ∈ report_groups final
                    | None =>
                        exists saved,
                          loadAuditResults JR props' = Some saved /\ entry ∈ saved
                    end).
  { intros entry Hentry cfg JG JR props G n rs HJG HJR Hc Hi Hn Hr Htime Hin.
    destruct (run_in_time JG JR cfg E props G n rs HJG HJR Hc Hi Hn Hr Htime)
      as (props' & Hrun & Hsaved).
    assert (Hmem : entry ∈ rs ++ omap (checkGroup E) (take (BATCH_SIZE cfg) (drop n G))).
    { apply elem_of_app. right. apply list_elem_of_omap. exists group. split; assumption. }
    exists props'. eexists. split; [exact Hrun |].
    destruct (Nat.leb_spec (length G) (n + BATCH_SIZE cfg)) as [Hfull | Hpart].
    - exact Hmem.
    - eexists. split; [apply Hsaved; exact Hpart | exact Hmem]. }
  split; [exact Hfalse |].
  split.
  - revert Hrecorded. unfold checkGroup.
    destruct Hrole as [-> | ->]; rewrite Hfalse.
    + destruct (checkGroupHasRole E (email group) "MANAGER"); simpl; intros Hrecorded;
        eexists; (split; [reflexivity |]); simpl;
        (split; [reflexivity |]);
        (split; [intros; auto |]);
        (split; [intros; try discriminate; auto |]);
        apply Hrecorded; reflexivity.
    + destruct (checkGroupHasRole E (email group) "OWNER"); simpl; intros Hrecorded;
        eexists; (split; [reflexivity |]); simpl;
        (split; [reflexivity |]);
        (split; [intros; try discriminate; auto |]);
        (split; [intros; auto |]);
        apply Hrecorded; reflexivity.
  - split; [apply checkGroup_ext; exact Hext |].
    intros cfg JG JR props. apply audit_ext; [reflexivity | exact Hext | reflexivity].
Qed.


(** ** The reference codec is lawful *)

Module RefCodecFacts.

Import RefCodec.

Lemma law_nat : fmt_law fmt_nat.
Proof.
  intros n rest. induction n as [|n IH]; simpl in *; [reflexivity |].
  rewrite IH. reflexivity.
Qed.

Lemma law_Z : fmt_law fmt_Z.
Proof.
  intros z rest. simpl.
  pose proof (law_nat (Z.abs_nat z) rest) as Hn. simpl in Hn. rewrite Hn.
  destruct (Z.ltb_spec z 0); simpl; do 2 f_equal; lia.
Qed.

Lemma law_bool : fmt_law fmt_bool.
Proof. intros [] rest; reflexivity. Qed.

Lemma take_chars_app (s rest : string) :
  take_chars (String.length s) (s +:+ rest) = Some (s, rest).
Proof.
  induction s as [|c s IH]; simpl; [reflexivity |]. rewrite IH. reflexivity.
Qed.

Lemma law_string : fmt_law fmt_string.
Proof.
  intros s rest. simpl.
  pose proof (law_nat (String.length s) (s +:+ rest)) as Hn. simpl in Hn. rewrite Hn.
  apply take_chars_app.
Qed.

Lemma law_option {A : Type} (F : Fmt A) : fmt_law F -> fmt_law (fmt_option F).
Proof.
  intros HF [a|] rest; simpl; [| reflexivity]. rewrite HF. reflexivity.
Qed.

Lemma law_pair {A B : Type} (F : Fmt A) (F' : Fmt B) :
  fmt_law F -> fmt_law F' -> fmt_law (fmt_pair F F').
Proof.
  intros HF HF' [a b] rest. simpl. rewrite HF, HF'. reflexivity.
Qed.

Lemma law_map {A B : Type} (to : B -> A) (from : A -> B) (F : Fmt A) :
  (forall b, from (to b) = b) -> fmt_law F -> fmt_law (fmt_map to from F).
Proof.
  intros Hinv HF b rest. simpl. rewrite HF, Hinv. reflexivity.
Qed.

Lemma get_n_put {A : Type} (F : Fmt A) (l : list A) (rest : string) :
  fmt_law F -> get_n F (length l) (fold_right (put F) rest l) = Some (l, rest).
Proof.
  intros HF. induction l as [|a l IH]; simpl; [reflexivity |].
  rewrite HF, IH. reflexivity.
Qed.

Lemma law_list {A : Type} (F : Fmt A) : fmt_law F -> fmt_law (fmt_list F).
Proof.
  intros HF l rest. simpl.
  pose proof (law_nat (length l) (fold_right (put F) rest l)) as Hn.
  simpl in Hn. rewrite Hn. apply get_n_put. exact HF.
Qed.

Lemma law_Group : fmt_law fmt_Group.
Proof.
  apply law_map; [intros []; reflexivity |].
  repeat first [apply law_pair | apply law_option | apply law_string
               | apply law_Z | apply law_bool].
Qed.

Lemma law_AuditResult : fmt_law fmt_AuditResult.
Proof.
  apply law_map; [intros []; reflexivity |].
  repeat first [apply law_pair | apply law_option | apply law_string
               | apply law_Z | apply law_bool].
Qed.

Lemma codec_lawful {A : Type} (F : Fmt A) : fmt_law F -> Lawful (codec F).
Proof.
  intros HF l. destruct l as [|a l]; [split; reflexivity |].
  split; [| reflexivity].
  assert (Hne : String.eqb (String "[" (put (fmt_list F) (a :: l) EmptyString)) "[]"
                = false) by reflexivity.
  unfold codec. cbn [stringify parse]. rewrite Hne.
  change (Ascii.eqb "[" "[") with true. cbv iota.
  rewrite (law_list F HF (a :: l) EmptyString). reflexivity.
Qed.

End RefCodecFacts.

Lemma JG_lawful : Lawful RefCodec.JG.
Proof. apply RefCodecFacts.codec_lawful, RefCodecFacts.law_Group. Qed.

Lemma JR_lawful : Lawful RefCodec.JR.
Proof. apply RefCodecFacts.codec_lawful, RefCodecFacts.law_AuditResult. Qed.

Lemma JR_parses_empty : ParsesEmpty RefCodec.JR.
Proof. reflexivity. Qed.


(** ** The properties at the sample inputs *)

(** C7, as stated, fails at an input: the first run on empty properties,
    with the shipped batch size, fetches the five groups, processes them
    all and generates the report.  It leaves the properties [cachedFive]:
    the index and the results are gone, the cached list is still there. *)
Lemma C7_cache_survives_the_flush :
  (exists report,
      auditGroupsWithoutOwners CONFIG RefCodec.JG RefCodec.JR domain ∅
      = Finished cachedFive (Some report))
  /\ cachedFive !! "processedIndex" = None
  /\ cachedFive !! "auditResults" = None
  /\ cachedFive !! "groupsCache" = Some (stringify RefCodec.JG fiveGroups)
  /\ cachedFive !! "groupsCache" <> None.
Proof.
  split; [eexists; vm_compute; reflexivity |].
  split; [vm_compute; reflexivity |].
  split; [vm_compute; reflexivity |].
  split; [vm_compute; reflexivity |].
  vm_compute. discriminate.
Qed.

Lemma C7_terminal_flush_witness :
  exists (k : nat) (props' : gmap string string) (report : option FinalReport),
    (0 + k <= length fiveGroups)%nat
    /\ auditGroupsWithoutOwners CONFIG RefCodec.JG RefCodec.JR domain cachedFive
       = Finished props' report
    /\ props' !! "groupsCache" = Some (stringify RefCodec.JG fiveGroups)
    /\ ((0 + k)%nat = length fiveGroups ->
        report = Some {| report_groups :=
                           [] ++ omap (checkGroup domain) (take k (drop 0 fiveGroups));
                         totalGroupsScanned := length fiveGroups |}
        /\ props' !! "processedIndex" = None
        /\ props' !! "auditResults" = None
        /\ loadProcessedIndex props' = Num 0
        /\ loadAuditResults RefCodec.JR props' = Some []
        /\ resetAudit props' !! "groupsCache" = None)
    /\ ((0 + k < length fiveGroups)%nat ->
        report = None
        /\ loadProcessedIndex props' = Num (Z.of_nat (0 + k))
        /\ loadAuditResults RefCodec.JR props'
           = Some ([] ++ omap (checkGroup domain) (take k (drop 0 fiveGroups)))).
Proof.
  apply (C7_terminal_flush RefCodec.JG RefCodec.JR JG_lawful JR_lawful JR_parses_empty
           CONFIG domain cachedFive fiveGroups 0%nat []).
  - vm_compute. reflexivity.
  - vm_compute. reflexivity.
  - simpl. lia.
  - vm_compute. reflexivity.
Defined.

Lemma C8_checkpoint_monotone_witness :
  CycleRuns RefCodec.JR fiveGroups ∅
            (auditRuns batchesOfTwo RefCodec.JG RefCodec.JR
                       [domain; domain; domain; domain] ∅).
Proof.
  apply (C8_checkpoint_monotone RefCodec.JG RefCodec.JR JG_lawful JR_lawful JR_parses_empty
           batchesOfTwo fiveGroups [domain; domain; domain; domain] ∅ 0%nat []).
  - right. split; [left |]; vm_compute; reflexivity.
  - vm_compute. reflexivity.
  - simpl. lia.
  - vm_compute. reflexivity.
Defined.

(** The runs on the sample, the specification's scenario in
    small: five groups in batches of two.  The index is 2, then 4; the
    third run reaches 5, reports and clears; the fourth starts over. *)
Example batches_of_two :
  map (fun r => match r with
                | Finished props report =>
                    (props !! "processedIndex",
                     length <$> loadAuditResults RefCodec.JR props,
                     (fun rep => length (report_groups rep)) <$> report)
                | Raised _ _ => (None, None, None)
                end)
      (auditRuns batchesOfTwo RefCodec.JG RefCodec.JR [domain; domain; domain; domain] ∅)
  = [ (Some "2", Some 1%nat, None);
      (Some "4", Some 3%nat, None);
      (None, Some 0%nat, Some 4%nat);
      (Some "2", Some 1%nat, None) ].
Proof. vm_compute. reflexivity. Qed.

(** C9, as stated, fails at an input.  An index text that is not a number
    loads as [NaN], not as 0; the run then processes nothing and persists
    the text ['NaN'].  A results text that is not JSON makes the load
    throw: the run ends with the exception. *)
Lemma C9_corrupted_state_is_not_defaulted :
  loadProcessedIndex (<["processedIndex" := "abc"]> cachedFive) = NaN
  /\ loadProcessedIndex (<["processedIndex" := "abc"]> cachedFive) <> Num 0
  /\ (exists props',
         auditGroupsWithoutOwners CONFIG RefCodec.JG RefCodec.JR domain
           (<["processedIndex" := "abc"]> cachedFive) = Finished props' None
         /\ props' !! "processedIndex" = Some "NaN"
         /\ loadAuditResults RefCodec.JR props' = Some [])
  /\ checkAuditProgress RefCodec.JR (<["auditResults" := "{oops"]> cachedFive) = None
  /\ auditGroupsWithoutOwners CONFIG RefCodec.JG RefCodec.JR domain
       (<["auditResults" := "{oops"]> cachedFive)
     = Raised "SyntaxError" (<["auditResults" := "{oops"]> cachedFive).
Proof.
  split; [vm_compute; reflexivity |].
  split; [vm_compute; discriminate |].
  split; [eexists; split; [vm_compute; reflexivity | split; vm_compute; reflexivity] |].
  split; vm_compute; reflexivity.
Qed.

Lemma C9_missing_state_witness :
  loadProcessedIndex cachedFive = Num 0
  /\ loadAuditResults RefCodec.JR cachedFive = Some []
  /\ checkAuditProgress RefCodec.JR cachedFive = Some (Num 0, [])
  /\ forall cfg E G,
      cachedFive !! "groupsCache" = Some (stringify RefCodec.JG G) ->
      exists (k : nat) (props' : gmap string string) (report : option FinalReport),
        auditGroupsWithoutOwners cfg RefCodec.JG RefCodec.JR E cachedFive
        = Finished props' report
        /\ (k <= length G)%nat
        /\ (k < length G ->
            loadProcessedIndex props' = Num (Z.of_nat k)
            /\ loadAuditResults RefCodec.JR props' = Some (omap (checkGroup E) (take k G)))%nat
        /\ (k = length G ->
            report = Some {| report_groups := omap (checkGroup E) G;
                             totalGroupsScanned := length G |}).
Proof.
  apply (C9_missing_state_loads_defaults RefCodec.JG RefCodec.JR
           JG_lawful JR_lawful JR_parses_empty cachedFive).
  - left. vm_compute. reflexivity.
  - left. vm_compute. reflexivity.
Defined.

Lemma C10_provider_error_witness :
  checkGroupHasRole domain (email (grp "ops@example.com" "Ops")) "OWNER" = false
  /\ (exists entry props' report,
         checkGroup domain (grp "ops@example.com" "Ops") = Some entry
         /\ groupEmail entry = "ops@example.com"
         /\ hasOwner entry = false
         /\ auditGroupsWithoutOwners batchesOfTwo RefCodec.JG RefCodec.JR domain cachedFive
            = Finished props' report
         /\ match report with
            | Some final => entry ∈ report_groups final
            | None =>
                exists saved,
                  loadAuditResults RefCodec.JR props' = Some saved /\ entry ∈ saved
            end)
  /\ (forall cfg JG JR props,
         auditGroupsWithoutOwners cfg JG JR domain props
         = auditGroupsWithoutOwners cfg JG JR
             (withNoMembers domain (email (grp "ops@example.com" "Ops")) "OWNER") props).
Proof.
  destruct (C10_provider_error_reads_as_missing_role domain (grp "ops@example.com" "Ops")
              "OWNER") as (Hfalse & (entry & Hentry & Hmail & Howner & _ & Hrecorded) & _ & Hsame).
  - left. reflexivity.
  - simpl. exact I.
  - split; [exact Hfalse |]. split; [| exact Hsame].
    destruct (Hrecorded batchesOfTwo RefCodec.JG RefCodec.JR cachedFive fiveGroups 0%nat []
                JG_lawful JR_lawful) as (props' & report & Hrun & Hin).
    + vm_compute. reflexivity.
    + vm_compute. reflexivity.
    + simpl. lia.
    + vm_compute. reflexivity.
    + intros j Hj. unfold domain, batchesOfTwo in *.
      cbn [elapsed_ms MAX_EXECUTION_TIME BATCH_SIZE] in *. lia.
    + right. left.
    + exists entry, props', report.
      split; [exact Hentry |]. split; [exact Hmail |].
      split; [apply Howner; reflexivity |]. split; [exact Hrun | exact Hin].
Defined.

(** On the sample the run with the unreadable group in its batch saves
    the entry for the next run. *)
Example unreadable_group_is_saved :
  exists props',
    auditGroupsWithoutOwners batchesOfTwo RefCodec.JG RefCodec.JR domain cachedFive
    = Finished props' None
    /\ option_map (map (fun r => (groupEmail r, hasOwner r, hasManager r, missingRoles r)))
                  (loadAuditResults RefCodec.JR props')
       = Some [ ("ops@example.com", false, false, "OWNER, MANAGER") ].
Proof. eexists. split; vm_compute; reflexivity. Qed.

(** In the report of the sample domain the group whose members could not
    be listed reads like the groups that have no owner and no manager. *)
Example unreadable_group_in_report :
  exists props report,
    auditGroupsWithoutOwners CONFIG RefCodec.JG RefCodec.JR domain ∅
    = Finished props (Some report)
    /\ map (fun r => (groupEmail r, hasOwner r, hasManager r, missingRoles r))
           (report_groups report)
       = [ ("ops@example.com", false, false, "OWNER, MANAGER");
           ("sales@example.com", false, false, "OWNER, MANAGER");
           ("legal@example.com", false, false, "OWNER, MANAGER");
           ("hr@example.com", false, false, "OWNER, MANAGER") ].
Proof. eexists _, _. split; vm_compute; reflexivity. Qed.


End GroupsBatchFacts.

(* ================================================================== *)
(** * Further properties: what the scripts read                         *)
(* ================================================================== *)

Lemma listedUsers_itemsRead (pages : Listing User) : listedUsers pages = itemsRead pages.
Proof. induction pages as [m | us | us next IH]; simpl; congruence. Qed.

Lemma findSkuName_spec (skus : list (string * string)) (skuId : string) :
  match findSkuName skus skuId with
  | Some name =>
      exists before after,
        skus = before ++ (name, skuId) :: after /\ (skuId ∉ map snd before)
  | None => (skuId ∉ map snd skus)
  end.
Proof.
  induction skus as [|[name id] rest IH]; simpl.
  - apply not_elem_of_nil.
  - destruct (String.eqb_spec id skuId) as [-> | Hne].
    + exists [], rest. split; [reflexivity | apply not_elem_of_nil].
    + destruct (findSkuName rest skuId) as [n|].
      * destruct IH as (before & after & -> & Hnot).
        exists ((name, id) :: before), after. split; [reflexivity |].
        simpl. rewrite not_elem_of_cons. split; [congruence | exact Hnot].
      * simpl. rewrite not_elem_of_cons. split; [congruence | exact IH].
Qed.

(** X1. [getSkuName] answers the name of the first entry of the catalog
    that carries the id, and the id itself when no entry carries it.  Two
    entries carry the id 1010020028: the second one, 'Business Standard',
    is never answered for a catalog id. *)
Theorem getSkuName_first_entry (skuId : string) :
  let skus := concat (map snd SKU_CATALOG) in
  ((skuId ∉ map snd skus) -> getSkuName skuId = skuId)
  /\ ((skuId ∈ map snd skus) ->
      exists before after,
        skus = before ++ (getSkuName skuId, skuId) :: after
        /\ (skuId ∉ map snd before)
        /\ getSkuName skuId <> "Business Standard").
Proof.
  intros skus. unfold getSkuName. cbn [SKU_CATALOG getSkuName_in].
  assert (Hskus : skus = snd (List.hd (EmptyString, []) SKU_CATALOG)) by reflexivity.
  pose proof (findSkuName_spec skus skuId) as Hfind.
  rewrite Hskus in *. cbn [SKU_CATALOG List.hd snd] in *.
  match goal with |- context [findSkuName ?l skuId] => set (catalog := l) in * end.
  destruct (findSkuName catalog skuId) as [name|] eqn:Hname.
  - split.
    + intros Hnot. destruct Hfind as (before & after & Heq & _).
      exfalso. apply Hnot. rewrite Heq, map_app. apply elem_of_app. right. left.
    + intros _. destruct Hfind as (before & after & Heq & Hbefore).
      exists before, after. split; [exact Heq |]. split; [exact Hbefore |].
      intros ->. revert Hname. unfold catalog. cbn [findSkuName].
      repeat match goal with
             | |- context [String.eqb ?a skuId] =>
                 destruct (String.eqb_spec a skuId); [discriminate |]
             end.
      discriminate.
  - split; [reflexivity |]. intros Hin. contradiction.
Qed.

Module LicensingFacts.

Import Licensing.

Lemma collectLicenses_items (pages : Listing Assignment)
      (licenseMap : gmap string (list License)) :
  collectLicenses pages licenseMap = fold_left recordAssignment (itemsRead pages) licenseMap.
Proof.
  revert licenseMap.
  induction pages as [m | items | items next IH]; intros licenseMap; simpl.
  - reflexivity.
  - destruct items; reflexivity.
  - rewrite IH, fold_left_app. destruct items; reflexivity.
Qed.

Lemma recordAssignment_lookup (licenseMap : gmap string (list License))
      (item : Assignment) (e : string) :
  recordAssignment licenseMap item !! e
  = if decide (toLowerCase (userId item) = e)
    then Some (default [] (licenseMap !! e) ++ [toLicense item])
    else licenseMap !! e.
Proof.
  unfold recordAssignment.
  destruct (decide (toLowerCase (userId item) = e)) as [<- | Hne].
  - destruct (licenseMap !! toLowerCase (userId item)) as [ls|] eqn:Hl.
    + rewrite lookup_alter_eq, Hl. reflexivity.
    + rewrite lookup_alter_eq, lookup_insert_eq. reflexivity.
  - destruct (licenseMap !! toLowerCase (userId item)) as [ls|] eqn:Hl.
    + rewrite lookup_alter_ne by exact Hne. reflexivity.
    + rewrite lookup_alter_ne by exact Hne. rewrite lookup_insert_ne by exact Hne.
      reflexivity.
Qed.

Lemma recordAssignments_lookup (items : list Assignment)
      (licenseMap : gmap string (list License)) (e : string) :
  fold_left recordAssignment items licenseMap !! e
  = match filter (fun item => toLowerCase (userId item) = e) items with
    | [] => licenseMap !! e
    | own => Some (default [] (licenseMap !! e) ++ map toLicense own)
    end.
Proof.
  revert licenseMap.
  induction items as [|item rest IH]; intros licenseMap; [reflexivity |].
  cbn [fold_left]. rewrite IH, recordAssignment_lookup, filter_cons.
  destruct (decide (toLowerCase (userId item) = e)) as [Heq | Hne].
  - destruct (filter _ rest) as [|x own]; simpl.
    + reflexivity.
    + rewrite <- app_assoc. reflexivity.
  - reflexivity.
Qed.

End LicensingFacts.

(** X2. [getAllLicenseAssignments] groups the assignments it reads by
    user: the entry of a key holds the licenses of the items whose
    [userId], lower-cased, is the key, in the order of the listing, items
    of later pages included; a key has no entry when no item read is that
    user's.  The items are those of the pages answered before the first
    request that throws. *)
Theorem licenses_grouped_by_user
        (listForProduct : string -> string -> Listing Licensing.Assignment)
        (productId customerId e : string) :
  Licensing.getAllLicenseAssignments listForProduct productId customerId !! e
  = match filter (fun item => toLowerCase (Licensing.userId item) = e)
                 (itemsRead (listForProduct productId customerId)) with
    | [] => None
    | own => Some (map Licensing.toLicense own)
    end.
Proof.
  unfold Licensing.getAllLicenseAssignments.
  rewrite LicensingFacts.collectLicenses_items, LicensingFacts.recordAssignments_lookup.
  rewrite lookup_empty. reflexivity.
Qed.

Module LoginFacts.

Lemma collectLogins_items (pages : Listing Activity) (loginMap : gmap string Z) :
  AutoRun.collectLogins pages loginMap
  = fold_left AutoRun.recordActivity (itemsRead pages) loginMap.
Proof.
  revert loginMap.
  induction pages as [m | items | items next IH]; intros loginMap; simpl.
  - reflexivity.
  - destruct items; reflexivity.
  - rewrite IH, fold_left_app. destruct items; reflexivity.
Qed.

Lemma recordActivity_lookup (loginMap : gmap string Z) (activity : Activity) (e : string) :
  AutoRun.recordActivity loginMap activity !! e
  = fold_left later (loginTimes e [activity]) (loginMap !! e).
Proof.
  unfold AutoRun.recordActivity, loginTimes. cbn [omap list_omap].
  destruct (actor_email activity) as [x|]; [| reflexivity].
  destruct (truthy x); [| reflexivity]. cbn [andb].
  destruct (String.eqb_spec (toLowerCase x) e) as [<- | Hne].
  - destruct (loginMap !! toLowerCase x) as [t0|] eqn:Ht; cbn [fold_left later].
    + destruct (id_time activity >? t0).
      * apply lookup_insert_eq.
      * exact Ht.
    + apply lookup_insert_eq.
  - cbn [fold_left].
    destruct (loginMap !! toLowerCase x) as [t0|].
    + destruct (id_time activity >? t0); [| reflexivity].
      apply lookup_insert_ne. exact Hne.
    + apply lookup_insert_ne. exact Hne.
Qed.

Lemma loginTimes_cons (e : string) (activity : Activity) (rest : list Activity) :
  loginTimes e (activity :: rest) = loginTimes e [activity] ++ loginTimes e rest.
Proof.
  unfold loginTimes. cbn [omap list_omap].
  destruct (match actor_email activity with Some _ => _ | None => _ end); reflexivity.
Qed.

Lemma recordActivities_lookup (activities : list Activity) (loginMap : gmap string Z)
      (e : string) :
  fold_left AutoRun.recordActivity activities loginMap !! e
  = fold_left later (loginTimes e activities) (loginMap !! e).
Proof.
  revert loginMap.
  induction activities as [|a rest IH]; intros loginMap; [reflexivity |].
  rewrite (loginTimes_cons e a rest), fold_left_app.
  cbn [fold_left]. rewrite IH, recordActivity_lookup. reflexivity.
Qed.

Lemma later_latest (times : list Z) (t0 : Z) :
  exists t, fold_left later times (Some t0) = Some t
            /\ (t = t0 \/ t ∈ times) /\ t0 <= t /\ Forall (fun t' => t' <= t) times.
Proof.
  revert t0. induction times as [|t1 rest IH]; intros t0.
  - exists t0. repeat split; [left; reflexivity | lia | constructor].
  - cbn [fold_left later].
    destruct (Z.gtb_spec t1 t0) as [Hgt | Hle].
    + destruct (IH t1) as (t & Heq & Hin & Hle1 & Hall).
      exists t. split; [exact Heq |]. split; [| split; [lia |]].
      * right. destruct Hin as [-> | Hin]; [left | right; exact Hin].
      * constructor; [exact Hle1 | exact Hall].
    + destruct (IH t0) as (t & Heq & Hin & Hle1 & Hall).
      exists t. split; [exact Heq |]. split; [| split; [lia |]].
      * destruct Hin as [-> | Hin]; [left; reflexivity | right; right; exact Hin].
      * constructor; [lia | exact Hall].
Qed.

Lemma latest_from_empty (times : list Z) :
  match fold_left later times None with
  | None => times = []
  | Some t => latestOf times t
  end.
Proof.
  destruct times as [|t1 rest]; [reflexivity |].
  cbn [fold_left later].
  destruct (later_latest rest t1) as (t & -> & Hin & Hle & Hall).
  split.
  - destruct Hin as [-> | Hin]; [left | right; exact Hin].
  - constructor; [exact Hle | exact Hall].
Qed.

Lemma login_map_latest (P : Providers) (now cutoffDate : Z) (e : string) :
  match AutoRun.getLoginActivityFromReports P now cutoffDate !! e with
  | None =>
      loginTimes e (itemsRead (Activities_list P (AutoRun.reportsQuery now cutoffDate))) = []
  | Some t =>
      latestOf (loginTimes e (itemsRead (Activities_list P (AutoRun.reportsQuery now cutoffDate)))) t
  end.
Proof.
  unfold AutoRun.getLoginActivityFromReports.
  rewrite collectLogins_items, recordActivities_lookup, lookup_empty.
  apply latest_from_empty.
Qed.

End LoginFacts.

(** X3. The map of [getLoginActivityFromReports] holds, for a key, the
    latest time among the login events read whose actor email lower-cases
    to the key; a key has no entry when there is no such event.  Events
    without an actor email are skipped, and the events read are those of
    the pages answered before the first request that throws. *)
Theorem login_map_keeps_latest_event (P : Providers) (now cutoffDate : Z) (e : string) :
  let events := itemsRead (Activities_list P (AutoRun.reportsQuery now cutoffDate)) in
  match AutoRun.getLoginActivityFromReports P now cutoffDate !! e with
  | None => loginTimes e events = []
  | Some t => latestOf (loginTimes e events) t
  end.
Proof.
  intros events. apply LoginFacts.login_map_latest.
Qed.

Module ClassifierFacts.

Lemma inactiveFilter_primaryEmail (reportsLoginData : gmap string Z) (cutoffDate : Z)
      (user user' : User) :
  AutoRun.inactiveFilter reportsLoginData cutoffDate user = Some user' ->
  primaryEmail user' = primaryEmail user
  /\ suspended user' = suspended user
  /\ isAdmin user' = isAdmin user
  /\ isDelegatedAdmin user' = isDelegatedAdmin user
  /\ orgUnitPath user' = orgUnitPath user.
Proof.
  unfold AutoRun.inactiveFilter.
  destruct (reportsLoginData !! toLowerCase (primaryEmail user)) as [t|].
  - destruct (t >=? cutoffDate); [discriminate |].
    destruct (lastLoginTime user) as [d|];
      [destruct (d >=? cutoffDate); [discriminate |] |];
      intros [= <-]; repeat split.
  - destruct (lastLoginTime user) as [d|];
      [destruct (d >=? cutoffDate); [discriminate |] |];
      intros [= <-]; repeat split.
Qed.

Lemma inactiveFilter_recorded (reportsLoginData : gmap string Z) (cutoffDate : Z)
      (user user' : User) :
  AutoRun.inactiveFilter reportsLoginData cutoffDate user = Some user' ->
  directoryInactive cutoffDate user' = true.
Proof.
  unfold AutoRun.inactiveFilter, directoryInactive.
  destruct (reportsLoginData !! toLowerCase (primaryEmail user)) as [t|].
  - destruct (Z.geb_spec t cutoffDate); [discriminate |].
    destruct (lastLoginTime user) as [d|];
      [destruct (d >=? cutoffDate); [discriminate |] |];
      intros [= <-]; simpl; lia.
  - destruct (lastLoginTime user) as [d|] eqn:Hd.
    + destruct (Z.geb_spec d cutoffDate); [discriminate |].
      intros [= <-]. rewrite Hd. lia.
    + intros [= <-]. rewrite Hd. reflexivity.
Qed.

Lemma inactiveFilter_no_reports (cutoffDate : Z) (user : User) :
  AutoRun.inactiveFilter ∅ cutoffDate user
  = if directoryInactive cutoffDate user then Some user else None.
Proof.
  unfold AutoRun.inactiveFilter, directoryInactive. rewrite lookup_empty.
  destruct (lastLoginTime user) as [d|]; [| reflexivity].
  destruct (Z.geb_spec d cutoffDate); destruct (Z.ltb_spec d cutoffDate);
    try lia; reflexivity.
Qed.

Lemma getInactiveUsers_listed (P : Providers) (now cutoffDate : Z) :
  AutoRun.getInactiveUsers P now cutoffDate
  = omap (AutoRun.inactiveFilter (AutoRun.getLoginActivityFromReports P now cutoffDate)
                                 cutoffDate)
         (itemsRead (Users_list P)).
Proof.
  unfold AutoRun.getInactiveUsers.
  rewrite collectInactive_spec, listedUsers_itemsRead. reflexivity.
Qed.

Lemma omap_sublist {A B : Type} (f : A -> option A) (key : A -> B) (l : list A) :
  (forall a a', f a = Some a' -> key a' = key a) ->
  map key (omap f l) `sublist_of` map key l.
Proof.
  intros Hkey. induction l as [|a rest IH]; simpl.
  - constructor.
  - destruct (f a) as [a'|] eqn:Ha; simpl.
    + rewrite (Hkey a a' Ha). apply sublist_skip. exact IH.
    + apply sublist_cons. exact IH.
Qed.

End ClassifierFacts.

(** X4. A login event read from the Reports API at or after the cutoff
    keeps its actor out of the inactive users, whatever the letter case of
    the address in the event and in the directory, and whatever the
    directory says of the user's last login: no user returned has that
    address. *)
Theorem recent_login_event_keeps_user_out (P : Providers) (now cutoffDate : Z)
        (activity : Activity) (x : string) :
  activity ∈ itemsRead (Activities_list P (AutoRun.reportsQuery now cutoffDate)) ->
  actor_email activity = Some x ->
  truthy x = true ->
  cutoffDate <= id_time activity ->
  Forall (fun user => toLowerCase (primaryEmail user) <> toLowerCase x)
         (AutoRun.getInactiveUsers P now cutoffDate).
Proof.
  intros Hin Hx Htruthy Hrecent.
  rewrite ClassifierFacts.getInactiveUsers_listed.
  apply Forall_forall. intros user' Hout Hsame.
  apply list_elem_of_omap in Hout. destruct Hout as (user & _ & Hkept).
  destruct (ClassifierFacts.inactiveFilter_primaryEmail _ _ _ _ Hkept) as (Hmail & _).
  rewrite Hmail in Hsame.
  pose proof (LoginFacts.login_map_latest P now cutoffDate (toLowerCase x)) as Hmap.
  assert (Htime : id_time activity
                  ∈ loginTimes (toLowerCase x)
                      (itemsRead (Activities_list P (AutoRun.reportsQuery now cutoffDate)))).
  { unfold loginTimes. apply list_elem_of_omap. exists activity. split; [exact Hin |].
    rewrite Hx, Htruthy, String.eqb_refl. reflexivity. }
  unfold AutoRun.inactiveFilter in Hkept. rewrite Hsame in Hkept.
  destruct (AutoRun.getLoginActivityFromReports P now cutoffDate !! toLowerCase x)
    as [t|].
  - destruct Hmap as [_ Hall].
    rewrite Forall_forall in Hall. specialize (Hall _ Htime).
    destruct (Z.geb_spec t cutoffDate); [discriminate | lia].
  - rewrite Hmap in Htime. apply elem_of_nil in Htime. exact Htime.
Qed.

Lemma recent_login_event_keeps_user_out_sample :
  Forall (fun user => toLowerCase (primaryEmail user) <> toLowerCase "ann@example.com")
         (AutoRun.getInactiveUsers staffProviders (day 1000) (day 820)).
Proof.
  apply (recent_login_event_keeps_user_out staffProviders (day 1000) (day 820)
           {| actor_email := Some "ann@example.com"; id_time := day 990 |}).
  - vm_compute. right. right. left.
  - reflexivity.
  - reflexivity.
  - vm_compute. discriminate.
Defined.

(** X5. When the Reports API refuses the login request, the map of login
    times is empty and the classification falls back to the directory
    alone: the inactive users are the listed users whose directory login
    time is absent or before the cutoff, passed on as they are. *)
Theorem reports_failure_falls_back_to_directory (P : Providers) (now cutoffDate : Z)
        (message : string) :
  Activities_list P (AutoRun.reportsQuery now cutoffDate) = Fails message ->
  AutoRun.getInactiveUsers P now cutoffDate
  = filter (fun user => directoryInactive cutoffDate user = true) (itemsRead (Users_list P)).
Proof.
  intros Hfail. rewrite ClassifierFacts.getInactiveUsers_listed.
  unfold AutoRun.getLoginActivityFromReports. rewrite Hfail. cbn [AutoRun.collectLogins].
  induction (itemsRead (Users_list P)) as [|user rest IH]; [reflexivity |].
  cbn [omap list_omap]. rewrite filter_cons, ClassifierFacts.inactiveFilter_no_reports.
  fold (omap (AutoRun.inactiveFilter ∅ cutoffDate) rest). rewrite IH.
  destruct (directoryInactive cutoffDate user); reflexivity.
Qed.

Lemma reports_failure_falls_back_to_directory_sample :
  AutoRun.getInactiveUsers staffWithoutReports (day 1000) (day 820) = staff.
Proof.
  rewrite (reports_failure_falls_back_to_directory staffWithoutReports _ _
             "Reports API unavailable"); reflexivity.
Defined.

(** X6. The inactive users come in the order of the directory listing, each
    listed user at most once, and none of them carries a last login at or
    after the cutoff: the time left on a returned user is absent or before
    the cutoff. *)
Theorem inactive_users_in_listing_order (P : Providers) (now cutoffDate : Z) :
  map primaryEmail (AutoRun.getInactiveUsers P now cutoffDate)
    `sublist_of` map primaryEmail (itemsRead (Users_list P))
  /\ Forall (fun user => directoryInactive cutoffDate user = true)
            (AutoRun.getInactiveUsers P now cutoffDate).
Proof.
  rewrite ClassifierFacts.getInactiveUsers_listed. split.
  - apply ClassifierFacts.omap_sublist. intros user user' Hkept.
    apply (ClassifierFacts.inactiveFilter_primaryEmail _ _ _ _ Hkept).
  - apply Forall_forall. intros user' Hout.
    apply list_elem_of_omap in Hout. destruct Hout as (user & _ & Hkept).
    apply (ClassifierFacts.inactiveFilter_recorded _ _ _ _ Hkept).
Qed.

(* ================================================================== *)
(** * Further properties: exclusion rules and candidates                *)
(* ================================================================== *)

Module ExclusionFacts.

Import Exclusion.

(** [s.startsWith(p)]: [s] is [p] followed by something. *)
Lemma prefix_startsWith (p s : string) :
  String.prefix p s = true <-> exists rest, s = p +:+ rest.
Proof.
  revert s. induction p as [|c p IH]; intros s.
  - split; [intros _; exists s; reflexivity | intros _; destruct s; reflexivity].
  - destruct s as [|c' s]; simpl.
    + split; [discriminate | intros [rest [=]]].
    + destruct (Ascii.ascii_dec c c') as [<- | Hne].
      * rewrite IH. split; intros [rest Hrest]; exists rest.
        -- rewrite Hrest. reflexivity.
        -- injection Hrest as Hrest. exact Hrest.
      * split; [discriminate |].
        intros [rest Hrest]. injection Hrest as Hc _. exfalso. apply Hne. symmetry. exact Hc.
Qed.

Lemma shouldExcludeUser_eq (R : Rules) (user : User) :
  shouldExcludeUser R user
  = ((EXCLUDE_ADMINS R && administrator user)
     || existsb (fun excludedOU => String.prefix excludedOU (userOU user))
                (EXCLUDED_OU_PATHS R))%bool.
Proof.
  unfold shouldExcludeUser, administrator.
  destruct (EXCLUDE_ADMINS R && _)%bool; [reflexivity |].
  destruct (EXCLUDED_OU_PATHS R) as [|p rest]; [reflexivity |].
  cbn [length Nat.ltb Nat.leb orb].
  destruct (existsb _ (p :: rest)); reflexivity.
Qed.

Lemma find_existsb {A : Type} (f : A -> bool) (l : list A) :
  match find f l with
  | Some a => a ∈ l /\ f a = true /\ existsb f l = true
  | None => existsb f l = false
  end.
Proof.
  induction l as [|a rest IH]; simpl; [reflexivity |].
  destruct (f a) eqn:Ha.
  - split; [left | split; [exact Ha | reflexivity]].
  - destruct (find f rest) as [b|].
    + destruct IH as (Hin & Hb & Hex). split; [right; exact Hin | split; assumption].
    + exact IH.
Qed.

End ExclusionFacts.

(** X7. A user is excluded exactly when administrators are excluded and
    the user is an administrator or a delegated one, or when the user's
    organizational unit path (the root when the user has none) begins with
    the text of one of the excluded paths.  The test is on the text: a
    path is matched by every path that continues it, whether or not the
    continuation starts a new segment. *)
Theorem excluded_iff_admin_or_path_prefix (R : Exclusion.Rules) (user : User) :
  Exclusion.shouldExcludeUser R user = true
  <-> (Exclusion.EXCLUDE_ADMINS R = true /\ administrator user = true)
      \/ exists excludedOU rest,
           excludedOU ∈ Exclusion.EXCLUDED_OU_PATHS R
           /\ or_default (orgUnitPath user) "/" = excludedOU +:+ rest.
Proof.
  rewrite ExclusionFacts.shouldExcludeUser_eq, orb_true_iff, andb_true_iff.
  apply or_iff_compat_l. rewrite existsb_exists. split.
  - intros (p & Hin & Hp). apply ExclusionFacts.prefix_startsWith in Hp.
    destruct Hp as [rest Hrest]. exists p, rest.
    split; [apply list_elem_of_In; exact Hin | exact Hrest].
  - intros (p & rest & Hin & Hrest). exists p.
    split; [apply list_elem_of_In; exact Hin |].
    apply ExclusionFacts.prefix_startsWith. exists rest. exact Hrest.
Qed.

(** X8. When no excluded path is blank, the reason given for a user names
    the rule that excludes the user: 'Admin user' for an administrator
    when administrators are excluded, else the first excluded path the
    user's path begins with; and the reason is 'Unknown' exactly for the
    users that are not excluded. *)
Theorem exclusion_reason_names_the_rule (R : Exclusion.Rules) (user : User) :
  Forall (fun excludedOU => truthy excludedOU = true) (Exclusion.EXCLUDED_OU_PATHS R) ->
  (Exclusion.shouldExcludeUser R user = false
   <-> Exclusion.getExclusionReason R user = "Unknown")
  /\ (Exclusion.shouldExcludeUser R user = true ->
      if (Exclusion.EXCLUDE_ADMINS R && administrator user)%bool
      then Exclusion.getExclusionReason R user = "Admin user"
      else exists before excludedOU after,
          Exclusion.EXCLUDED_OU_PATHS R = before ++ excludedOU :: after
          /\ Forall (fun p => String.prefix p (Exclusion.userOU user) = false) before
          /\ String.prefix excludedOU (Exclusion.userOU user) = true
          /\ Exclusion.getExclusionReason R user = "In excluded OU: " +:+ excludedOU).
Proof.
  intros Hpaths.
  rewrite ExclusionFacts.shouldExcludeUser_eq.
  unfold Exclusion.getExclusionReason. fold (administrator user).
  destruct (Exclusion.EXCLUDE_ADMINS R && administrator user)%bool.
  { split; [split; discriminate | reflexivity]. }
  cbn [orb].
  assert (Hfind : forall paths,
             Forall (fun p => truthy p = true) paths ->
             match find (fun p => String.prefix p (Exclusion.userOU user)) paths with
             | Some p =>
                 truthy p = true
                 /\ existsb (fun p => String.prefix p (Exclusion.userOU user)) paths = true
                 /\ exists before after,
                     paths = before ++ p :: after
                     /\ Forall (fun p => String.prefix p (Exclusion.userOU user) = false) before
                     /\ String.prefix p (Exclusion.userOU user) = true
             | None => existsb (fun p => String.prefix p (Exclusion.userOU user)) paths = false
             end).
  { intros paths Hall. induction Hall as [|p rest Hp Hrest IH]; simpl; [reflexivity |].
    destruct (String.prefix p (Exclusion.userOU user)) eqn:Hpre.
    - split; [exact Hp |]. split; [reflexivity |].
      exists [], rest. split; [reflexivity |]. split; [constructor | exact Hpre].
    - destruct (find _ rest) as [q|].
      + destruct IH as (Hq & Hex & before & after & -> & Hbefore & Hpq).
        split; [exact Hq |]. split; [exact Hex |].
        exists (p :: before), after. split; [reflexivity |].
        split; [constructor; assumption | exact Hpq].
      + exact IH. }
  specialize (Hfind _ Hpaths).
  destruct (Exclusion.EXCLUDED_OU_PATHS R) as [|p0 paths] eqn:Hlist.
  { simpl. split; [split; reflexivity | discriminate]. }
  cbn [length Nat.ltb Nat.leb].
  destruct (find _ (p0 :: paths)) as [p|].
  - destruct Hfind as (Hp & -> & before & after & Heq & Hbefore & Hpre).
    rewrite Hp. split; [split; discriminate |].
    intros _. exists before, p, after. repeat split; assumption.
  - rewrite Hfind. split; [split; reflexivity | discriminate].
Qed.

Lemma exclusion_reason_names_the_rule_sample :
  (Exclusion.shouldExcludeUser ManageLicensesMain.RULES fay = false
   <-> Exclusion.getExclusionReason ManageLicensesMain.RULES fay = "Unknown")
  /\ (Exclusion.shouldExcludeUser ManageLicensesMain.RULES fay = true ->
      exists before excludedOU after,
        Exclusion.EXCLUDED_OU_PATHS ManageLicensesMain.RULES = before ++ excludedOU :: after
        /\ Forall (fun p => String.prefix p (Exclusion.userOU fay) = false) before
        /\ String.prefix excludedOU (Exclusion.userOU fay) = true
        /\ Exclusion.getExclusionReason ManageLicensesMain.RULES fay
           = "In excluded OU: " +:+ excludedOU).
Proof.
  apply (exclusion_reason_names_the_rule ManageLicensesMain.RULES fay).
  repeat constructor.
Defined.

(** X9. A blank entry among the excluded paths excludes every user, since
    every path begins with the empty text; and when the blank entry is the
    first one a user's path begins with, the user is excluded with the
    reason 'Unknown'. *)
Theorem blank_path_excludes_everyone (R : Exclusion.Rules) (user : User) :
  EmptyString ∈ Exclusion.EXCLUDED_OU_PATHS R ->
  Exclusion.shouldExcludeUser R user = true
  /\ (administrator user = false ->
      find (fun p => String.prefix p (Exclusion.userOU user)) (Exclusion.EXCLUDED_OU_PATHS R)
      = Some EmptyString ->
      Exclusion.getExclusionReason R user = "Unknown").
Proof.
  intros Hblank. split.
  - rewrite ExclusionFacts.shouldExcludeUser_eq. apply orb_true_iff. right.
    apply existsb_exists. exists EmptyString.
    split; [apply list_elem_of_In; exact Hblank |].
    apply ExclusionFacts.prefix_startsWith. exists (Exclusion.userOU user). reflexivity.
  - intros Hadmin Hfirst. unfold Exclusion.getExclusionReason.
    fold (administrator user). rewrite Hadmin, andb_false_r, Hfirst.
    destruct (Exclusion.EXCLUDED_OU_PATHS R); reflexivity.
Qed.

Lemma blank_path_excludes_everyone_sample :
  Exclusion.shouldExcludeUser blankPathRules gil = true
  /\ Exclusion.getExclusionReason blankPathRules gil = "Unknown".
Proof.
  destruct (blank_path_excludes_everyone blankPathRules gil) as [Hex Hreason].
  - right. left.
  - split; [exact Hex | apply Hreason; reflexivity].
Defined.

Module SelectionFacts.

Import Licensing Exclusion Selection.

Lemma attachLicenses_candidate (T : string) (R : Rules)
      (licenseMap : gmap string (list License)) (u u' : User) :
  snd (attachLicenses T R licenseMap u) = Some u' ->
  primaryEmail u' = primaryEmail u
  /\ exists licenses,
      licenseMap !! toLowerCase (primaryEmail u) = Some licenses
      /\ hasTarget T licenses = true
      /\ suspended u = false
      /\ shouldExcludeUser R u = false.
Proof.
  unfold attachLicenses.
  destruct (licenseMap !! toLowerCase (primaryEmail u)) as [ls|]; [| discriminate].
  cbn [suspended set_licenseString].
  destruct (hasTarget T ls) eqn:Ht; [| discriminate].
  destruct (suspended u) eqn:Hs; [discriminate |]. cbn [andb negb].
  change (shouldExcludeUser R (set_licenseString (Some (licenseNames ls)) u))
    with (shouldExcludeUser R u).
  destruct (shouldExcludeUser R u) eqn:He; [discriminate |].
  intros [= <-]. split; [reflexivity |]. exists ls. repeat split; assumption.
Qed.

Lemma attachLicenses_row (T : string) (R : Rules)
      (licenseMap : gmap string (list License)) (u : User) :
  s1_email (sheet1Row (fst (attachLicenses T R licenseMap u))) = primaryEmail u
  /\ (candidateRow (sheet1Row (fst (attachLicenses T R licenseMap u)))
      <-> is_Some (snd (attachLicenses T R licenseMap u))).
Proof.
  unfold attachLicenses, candidateRow.
  destruct (licenseMap !! toLowerCase (primaryEmail u)) as [ls|].
  - cbn [suspended set_licenseString].
    change (shouldExcludeUser R (set_licenseString (Some (licenseNames ls)) u))
      with (shouldExcludeUser R u).
    destruct (hasTarget T ls), (suspended u) eqn:Hs, (shouldExcludeUser R u);
      cbn [andb negb fst snd sheet1Row s1_email s1_hasTargetLicense s1_suspended
           s1_excluded inactiveUser hasTargetLicense excluded primaryEmail
           set_licenseString suspended yesNo];
      rewrite ?Hs; cbn [yesNo];
      (split; [reflexivity |]);
      (split; [intros (H1 & H2 & H3); try discriminate; eexists; reflexivity
              | intros [x Hx]; try discriminate; repeat split]).
  - cbn. split; [reflexivity |].
    split; [intros (H1 & _); discriminate | intros [x Hx]; discriminate].
Qed.

(** The candidates are the users of the rows that show one. *)
Lemma candidates_rows (T : string) (R : Rules)
      (licenseMap : gmap string (list License)) (inactiveUsers : list User) :
  map primaryEmail (snd (selectCandidates T R licenseMap inactiveUsers))
  = map s1_email
      (filter candidateRow
              (map sheet1Row (fst (selectCandidates T R licenseMap inactiveUsers)))).
Proof.
  unfold selectCandidates. cbn [fst snd].
  induction inactiveUsers as [|u rest IH]; [reflexivity |].
  cbn [map omap list_omap]. rewrite filter_cons.
  destruct (attachLicenses_row T R licenseMap u) as [Hmail Hrow].
  destruct (snd (attachLicenses T R licenseMap u)) as [u'|] eqn:Hc.
  - destruct (attachLicenses_candidate T R licenseMap u u' Hc) as [Hmail' _].
    destruct (decide (candidateRow _)) as [Hyes | Hno].
    + cbn [map]. rewrite Hmail, Hmail'. f_equal. exact IH.
    + exfalso. apply Hno, Hrow. eexists; reflexivity.
  - destruct (decide (candidateRow _)) as [Hyes | Hno].
    + apply Hrow in Hyes. destruct Hyes as [x Hx]. discriminate.
    + exact IH.
Qed.

Lemma rows_emails (T : string) (R : Rules)
      (licenseMap : gmap string (list License)) (inactiveUsers : list User) :
  map s1_email (map sheet1Row (fst (selectCandidates T R licenseMap inactiveUsers)))
  = map primaryEmail inactiveUsers.
Proof.
  unfold selectCandidates. cbn [fst].
  induction inactiveUsers as [|u rest IH]; [reflexivity |].
  cbn [map]. rewrite IH.
  destruct (attachLicenses_row T R licenseMap u) as [-> _]. reflexivity.
Qed.

Lemma candidates_eligible (T : string) (R : Rules)
      (licenseMap : gmap string (list License)) (inactiveUsers : list User) :
  Forall (fun u' => eligible T R licenseMap inactiveUsers (primaryEmail u'))
         (snd (selectCandidates T R licenseMap inactiveUsers)).
Proof.
  unfold selectCandidates. cbn [snd].
  apply Forall_forall. intros u' Hin.
  apply list_elem_of_omap in Hin. destruct Hin as (u & Hu & Hc).
  destruct (attachLicenses_candidate T R licenseMap u u' Hc)
    as (Hmail & ls & Hl & Ht & Hs & He).
  exists u, ls. repeat split; try assumption. symmetry. exact Hmail.
Qed.

Lemma take_cap {A : Type} (cap : nat) (l : list A) :
  (if (cap <? length l)%nat then take cap l else l) = take cap l.
Proof.
  destruct (Nat.ltb_spec cap (length l)); [reflexivity |].
  symmetry. apply take_ge. lia.
Qed.

(** Calls that each act on a user of a list with a property act on users
    with the property. *)
Lemma calls_on (Q : string -> Prop) (f : User -> list Call) (users : list User) :
  (forall u, Forall (fun c => callUser c = primaryEmail u) (f u)) ->
  Forall (fun u => Q (primaryEmail u)) users ->
  Forall (fun c => Q (callUser c)) (concat (map f users)).
Proof.
  intros Hf HQ. induction HQ as [|u rest Hu Hrest IH]; simpl.
  - constructor.
  - apply Forall_app. split; [| exact IH].
    eapply Forall_impl; [apply Hf |]. simpl. intros c ->. exact Hu.
Qed.

End SelectionFacts.

(** X10. Every mutating call of a run of either suspension script acts on
    an inactive user who holds the target license, is not suspended
    according to the directory, and is not excluded by the rules: no call
    touches an excluded user, a suspended one, or one without the target
    license. *)
Theorem calls_only_on_eligible_users
        (cfg : ManageLicenses.Config) (cfg' : SuspendEplus.Config)
        (T : SuspendEplusMain.Target) (R : Exclusion.Rules)
        (S : Services) (M : Mutators) (now inactiveDate : Z) :
  let inactiveUsers := AutoRun.getInactiveUsers (providers S) now inactiveDate in
  let licenses productId :=
    Licensing.getAllLicenseAssignments (listForProduct S) productId
      (canonicalCustomerId (Customers_get S)) in
  Forall (fun c => eligible (ManageLicenses.TARGET_SKU_ID cfg) R
                     (licenses (ManageLicenses.PRODUCT_ID cfg)) inactiveUsers (callUser c))
         (snd (ManageLicensesMain.suspendAndManageLicenses cfg R S M now inactiveDate))
  /\ Forall (fun c => eligible (SuspendEplusMain.TARGET_SKU_ID T) R
                        (licenses (SuspendEplusMain.PRODUCT_ID T)) inactiveUsers (callUser c))
            (snd (SuspendEplusMain.suspendInactiveEnterpriseUsers cfg' T R S M
                    now inactiveDate)).
Proof.
  intros inactiveUsers licenses. split.
  - unfold ManageLicensesMain.suspendAndManageLicenses.
    fold inactiveUsers. fold (licenses (ManageLicenses.PRODUCT_ID cfg)).
    destruct (length inactiveUsers =? 0)%nat; [constructor |].
    pose proof (SelectionFacts.candidates_eligible (ManageLicenses.TARGET_SKU_ID cfg) R
                  (licenses (ManageLicenses.PRODUCT_ID cfg)) inactiveUsers) as Hc.
    destruct (Selection.selectCandidates _ _ _ _) as [annotated candidates].
    cbn [snd] in Hc.
    unfold ManageLicenses.processCandidates, ManageLicenses.applySafetyLimit.
    rewrite SelectionFacts.take_cap, ManageLicensesFacts.suspendAndChangeLicenses_map.
    cbn [snd].
    apply SelectionFacts.calls_on.
    + intros u. apply ManageLicensesFacts.processUser_frame.
    + apply Forall_take. exact Hc.
  - unfold SuspendEplusMain.suspendInactiveEnterpriseUsers.
    fold inactiveUsers. fold (licenses (SuspendEplusMain.PRODUCT_ID T)).
    destruct (length inactiveUsers =? 0)%nat; [constructor |].
    pose proof (SelectionFacts.candidates_eligible (SuspendEplusMain.TARGET_SKU_ID T) R
                  (licenses (SuspendEplusMain.PRODUCT_ID T)) inactiveUsers) as Hc.
    destruct (Selection.selectCandidates _ _ _ _) as [annotated candidates].
    cbn [snd] in Hc.
    unfold SuspendEplus.processCandidates, SuspendEplus.applySafetyLimit.
    rewrite SelectionFacts.take_cap, SuspendEplusFacts.suspendUsers_map.
    cbn [snd].
    apply SelectionFacts.calls_on.
    + intros u. apply SuspendEplusFacts.suspendUser_frame.
    + apply Forall_take. exact Hc.
Qed.

(** X11. The two sheets of a run of the license management script agree.
    The run writes no report exactly when there is no inactive user.
    Otherwise the first sheet has one row per inactive user, in order,
    licensed or not; and the second sheet has the records of the first
    [MAX_SUSPEND_COUNT] users whose row of the first sheet shows the target
    license, no suspension and no exclusion, in that order. *)
Theorem license_report_sheets_agree
        (cfg : ManageLicenses.Config) (R : Exclusion.Rules)
        (S : Services) (M : Mutators) (now inactiveDate : Z) :
  let inactiveUsers := AutoRun.getInactiveUsers (providers S) now inactiveDate in
  match fst (ManageLicensesMain.suspendAndManageLicenses cfg R S M now inactiveDate) with
  | None => inactiveUsers = []
  | Some report =>
      inactiveUsers <> []
      /\ map Selection.s1_email (ManageLicensesMain.sheet1 report)
         = map primaryEmail inactiveUsers
      /\ map ManageLicenses.email (ManageLicensesMain.sheet2 report)
         = take (ManageLicenses.MAX_SUSPEND_COUNT cfg)
                (map Selection.s1_email
                     (filter candidateRow (ManageLicensesMain.sheet1 report)))
  end.
Proof.
  intros inactiveUsers.
  unfold ManageLicensesMain.suspendAndManageLicenses. fold inactiveUsers.
  destruct inactiveUsers as [|u0 rest] eqn:Husers; [reflexivity |].
  rewrite <- Husers. replace (length inactiveUsers =? 0)%nat with false
    by (rewrite Husers; reflexivity).
  match goal with |- context [Selection.selectCandidates ?T ?R ?lm ?l] =>
    pose proof (SelectionFacts.candidates_rows T R lm l) as Hrows;
    pose proof (SelectionFacts.rows_emails T R lm l) as Hmails;
    destruct (Selection.selectCandidates T R lm l) as [annotated candidates]
  end.
  cbn [fst snd] in Hrows, Hmails.
  unfold ManageLicenses.processCandidates, ManageLicenses.applySafetyLimit.
  rewrite SelectionFacts.take_cap, ManageLicensesFacts.suspendAndChangeLicenses_map.
  cbn [fst ManageLicensesMain.sheet1 ManageLicensesMain.sheet2].
  split; [rewrite Husers; discriminate |]. split; [exact Hmails |].
  rewrite <- Hrows, firstn_map, map_map.
  apply map_ext. intros u. apply ManageLicensesFacts.processUser_frame.
Qed.

(* ================================================================== *)
(** * Further properties: what the executors report                     *)
(* ================================================================== *)

Module ExecutorFacts.

Lemma filter_length_le {A : Type} (P Q : A -> Prop)
      `{!forall x, Decision (P x)} `{!forall x, Decision (Q x)} (l : list A) :
  Forall (fun x => P x -> Q x) l ->
  (length (filter P l) <= length (filter Q l))%nat.
Proof.
  induction 1 as [|x rest Hx Hrest IH]; [reflexivity |].
  rewrite !filter_cons.
  destruct (decide (P x)) as [HP | HP], (decide (Q x)) as [HQ | HQ]; simpl; try lia.
  exfalso. apply HQ, Hx, HP.
Qed.

Lemma filter_length_map {A B : Type} (f : A -> B) (P : B -> Prop) (Q : A -> Prop)
      `{!forall x, Decision (P x)} `{!forall x, Decision (Q x)} (l : list A) :
  (forall x, P (f x) <-> Q x) ->
  length (filter P (map f l)) = length (filter Q l).
Proof.
  intros HPQ. induction l as [|x rest IH]; [reflexivity |].
  cbn [map]. rewrite !filter_cons.
  destruct (decide (P (f x))) as [HP | HP], (decide (Q x)) as [HQ | HQ]; simpl;
    try (rewrite IH; reflexivity).
  - exfalso. apply HQ, HPQ, HP.
  - exfalso. apply HP, HPQ, HQ.
Qed.

Lemma filter_length_none {A : Type} (P : A -> Prop)
      `{!forall x, Decision (P x)} (l : list A) :
  Forall (fun x => ~ P x) l -> length (filter P l) = 0%nat.
Proof.
  induction 1 as [|x rest Hx Hrest IH]; [reflexivity |].
  rewrite filter_cons. destruct (decide (P x)); [contradiction | exact IH].
Qed.

(** What the license executor leaves for one user. *)
Lemma processUser_flags (cfg : ManageLicenses.Config) (M : Mutators) (user : User) :
  let r := fst (ManageLicenses.processUser cfg M user) in
  ManageLicenses.suspended r = (negb (ManageLicenses.DRY_RUN cfg) && accepted M user)%bool
  /\ (ManageLicenses.licenseRemoved r = true -> ManageLicenses.suspended r = true)
  /\ (ManageLicenses.licenseAssigned r = true ->
      ManageLicenses.suspended r = true
      /\ ManageLicenses.ASSIGN_CLOUD_IDENTITY_FREE cfg = true)
  /\ (ManageLicenses.DRY_RUN cfg = true -> noError (ManageLicenses.error r) = true)
  /\ snd (ManageLicenses.processUser cfg M user)
     = if ManageLicenses.DRY_RUN cfg then [] else licenseCalls cfg M user.
Proof.
  unfold ManageLicenses.processUser, licenseCalls, accepted.
  destruct (ManageLicenses.DRY_RUN cfg).
  { unfold ManageLicenses.dryRunResult.
    destruct (ManageLicenses.ASSIGN_CLOUD_IDENTITY_FREE cfg); simpl;
      repeat split; try reflexivity; discriminate. }
  destruct (Users_update M (primaryEmail user)) as [[]|m]; simpl.
  2: { repeat split; try reflexivity; discriminate. }
  unfold ManageLicenses.removeStep, ManageLicenses.assignStep,
    ManageLicenses.keepFirstError.
  destruct (LicenseAssignments_remove M _ _ _) as [[]|m2];
    destruct (ManageLicenses.ASSIGN_CLOUD_IDENTITY_FREE cfg);
    try (destruct (LicenseAssignments_insert M _ _ _) as [[]|m3]);
    simpl; unfold noError;
    repeat match goal with
           | |- context [truthy ?m] => destruct (truthy m) eqn:?; simpl
           end;
    repeat split; try reflexivity; try discriminate; try congruence.
Qed.

Lemma suspendUser_flags (cfg : SuspendEplus.Config) (M : Mutators) (user : User) :
  let r := fst (SuspendEplus.suspendUser cfg M user) in
  SuspendEplus.suspended r = (negb (SuspendEplus.DRY_RUN cfg) && accepted M user)%bool
  /\ SuspendEplus.error r
     = (if SuspendEplus.DRY_RUN cfg then None
        else match Users_update M (primaryEmail user) with
             | Returns _ => None
             | Throws message => Some message
             end)
  /\ snd (SuspendEplus.suspendUser cfg M user)
     = if SuspendEplus.DRY_RUN cfg then [] else [CallUpdate (primaryEmail user)].
Proof.
  unfold SuspendEplus.suspendUser, accepted.
  destruct (SuspendEplus.DRY_RUN cfg); [repeat split |].
  destruct (Users_update M (primaryEmail user)); repeat split.
Qed.

End ExecutorFacts.

(** X12. The counts the license management mail reports.  A license is
    counted as removed or as assigned only for a user counted as
    suspended, so neither count exceeds the number of suspensions, which
    is the number of users whose suspension the directory accepted, and
    none in a dry run; no assignment is counted when the assignment is
    disabled; and a dry run counts no failure. *)
Theorem license_summary_counts (cfg : ManageLicenses.Config) (M : Mutators)
        (users : list User) (totalInactiveCount : nat) :
  let s := ManageLicensesMain.summary totalInactiveCount
             (fst (ManageLicenses.suspendAndChangeLicenses cfg M users)) in
  (ManageLicensesMain.successfulRemovals s <= ManageLicensesMain.successfulSuspensions s)%nat
  /\ (ManageLicensesMain.successfulAssignments s
      <= ManageLicensesMain.successfulSuspensions s)%nat
  /\ ManageLicensesMain.successfulSuspensions s
     = (if ManageLicenses.DRY_RUN cfg then 0
        else length (filter (fun u => accepted M u = true) users))%nat
  /\ (if ManageLicenses.ASSIGN_CLOUD_IDENTITY_FREE cfg then True
      else ManageLicensesMain.successfulAssignments s = 0%nat)
  /\ (if ManageLicenses.DRY_RUN cfg then ManageLicensesMain.failCount s = 0%nat else True).
Proof.
  intros s. unfold s, ManageLicensesMain.summary.
  rewrite ManageLicensesFacts.suspendAndChangeLicenses_map.
  cbn [fst ManageLicensesMain.successfulRemovals ManageLicensesMain.successfulSuspensions
       ManageLicensesMain.successfulAssignments ManageLicensesMain.failCount].
  assert (Hall : forall Q : ManageLicenses.Result -> Prop,
             (forall u, Q (fst (ManageLicenses.processUser cfg M u))) ->
             Forall Q (map (fun u => fst (ManageLicenses.processUser cfg M u)) users)).
  { intros Q HQ. apply Forall_forall. intros r Hr.
    apply list_elem_of_fmap in Hr. destruct Hr as (u & -> & _). apply HQ. }
  split; [| split; [| split; [| split]]].
  - apply ExecutorFacts.filter_length_le, Hall. intros u.
    apply (ExecutorFacts.processUser_flags cfg M u).
  - apply ExecutorFacts.filter_length_le, Hall. intros u.
    apply (ExecutorFacts.processUser_flags cfg M u).
  - destruct (ManageLicenses.DRY_RUN cfg) eqn:Hdry.
    + apply ExecutorFacts.filter_length_none, Hall. intros u.
      destruct (ExecutorFacts.processUser_flags cfg M u) as (-> & _).
      rewrite Hdry. discriminate.
    + apply ExecutorFacts.filter_length_map. intros u.
      destruct (ExecutorFacts.processUser_flags cfg M u) as (-> & _).
      rewrite Hdry. reflexivity.
  - destruct (ManageLicenses.ASSIGN_CLOUD_IDENTITY_FREE cfg) eqn:Hassign; [exact I |].
    apply ExecutorFacts.filter_length_none, Hall. intros u Hu.
    destruct (ExecutorFacts.processUser_flags cfg M u) as (_ & _ & Ha & _).
    destruct (Ha Hu) as [_ Hon]. congruence.
  - destruct (ManageLicenses.DRY_RUN cfg) eqn:Hdry; [| exact I].
    apply ExecutorFacts.filter_length_none, Hall. intros u Hu.
    destruct (ExecutorFacts.processUser_flags cfg M u) as (_ & _ & _ & He & _).
    rewrite (He Hdry) in Hu. discriminate.
Qed.

(** X13. In live mode the suspension executor makes one update call per
    user, in order, whichever of them fail: a refused suspension does not
    stop the run.  The mail counts as suspended the users whose call
    returned.  When every error carries a message, the users not counted
    as suspended are those counted as failed; an error with an empty
    message is counted under neither. *)
Theorem suspension_run_in_live_mode (cfg : SuspendEplus.Config) (M : Mutators)
        (users : list User) :
  SuspendEplus.DRY_RUN cfg = false ->
  let run := SuspendEplus.suspendUsers cfg M users in
  snd run = map (fun u => CallUpdate (primaryEmail u)) users
  /\ SuspendEplusMain.successCount (fst run)
     = length (filter (fun u => accepted M u = true) users)
  /\ SuspendEplusMain.failCount (fst run)
     = length (filter (fun u => refusedWithMessage M u = true) users)
  /\ ((forall e message, Users_update M e = Throws message -> truthy message = true) ->
      (SuspendEplusMain.successCount (fst run) + SuspendEplusMain.failCount (fst run))%nat
      = length users).
Proof.
  intros Hlive run. unfold run.
  rewrite SuspendEplusFacts.suspendUsers_map. cbn [fst snd].
  unfold SuspendEplusMain.successCount, SuspendEplusMain.failCount.
  assert (Hs : length (filter (fun r => SuspendEplus.suspended r = true)
                         (map (fun u => fst (SuspendEplus.suspendUser cfg M u)) users))
               = length (filter (fun u => accepted M u = true) users)).
  { apply ExecutorFacts.filter_length_map. intros u.
    destruct (ExecutorFacts.suspendUser_flags cfg M u) as (-> & _).
    rewrite Hlive. reflexivity. }
  assert (Hf : length (filter (fun r => noError (SuspendEplus.error r) = false)
                         (map (fun u => fst (SuspendEplus.suspendUser cfg M u)) users))
               = length (filter (fun u => refusedWithMessage M u = true) users)).
  { apply ExecutorFacts.filter_length_map. intros u.
    destruct (ExecutorFacts.suspendUser_flags cfg M u) as (_ & -> & _).
    rewrite Hlive. unfold noError, refusedWithMessage.
    destruct (Users_update M (primaryEmail u)) as [[]|m]; [split; discriminate |].
    destruct (truthy m); split; try discriminate; reflexivity. }
  split; [| split; [exact Hs | split; [exact Hf |]]].
  - clear Hs Hf run. induction users as [|u rest IH]; [reflexivity |].
    cbn [map concat]. rewrite IH.
    destruct (ExecutorFacts.suspendUser_flags cfg M u) as (_ & _ & ->).
    rewrite Hlive. reflexivity.
  - intros Hmsg. rewrite Hs, Hf. clear Hs Hf run.
    induction users as [|u rest IH]; [reflexivity |].
    rewrite !filter_cons.
    assert (Hu : accepted M u = negb (refusedWithMessage M u)).
    { unfold accepted, refusedWithMessage.
      destruct (Users_update M (primaryEmail u)) as [[]|m] eqn:Hu; [reflexivity |].
      rewrite (Hmsg _ _ Hu). reflexivity. }
    rewrite Hu. destruct (refusedWithMessage M u); simpl.
    + destruct (decide (false = true)) as [Hn | _]; [discriminate |].
      destruct (decide (true = true)) as [_ | Hn]; [| contradiction]. simpl. lia.
    + destruct (decide (true = true)) as [_ | Hn]; [| contradiction].
      destruct (decide (false = true)) as [Hn | _]; [discriminate |]. simpl. lia.
Qed.

Lemma suspension_run_in_live_mode_sample :
  snd (SuspendEplus.suspendUsers live suspendRefusedForAnn [ann; bob])
  = [CallUpdate "ann@example.com"; CallUpdate "bob@example.com"]
  /\ SuspendEplusMain.successCount
       (fst (SuspendEplus.suspendUsers live suspendRefusedForAnn [ann; bob])) = 1%nat
  /\ (SuspendEplusMain.successCount
        (fst (SuspendEplus.suspendUsers live suspendRefusedForAnn [ann; bob]))
      + SuspendEplusMain.failCount
          (fst (SuspendEplus.suspendUsers live suspendRefusedForAnn [ann; bob])))%nat
     = 2%nat.
Proof.
  destruct (suspension_run_in_live_mode live suspendRefusedForAnn [ann; bob] eq_refl)
    as (Htrace & Hsuccess & _ & Hsum).
  split; [exact Htrace |]. split; [exact Hsuccess |].
  apply Hsum. intros e message. unfold suspendRefusedForAnn. cbn [Users_update].
  destruct (String.eqb e "ann@example.com"); [| discriminate].
  intros [= <-]. reflexivity.
Defined.

(** A refusal with an empty message is counted under neither heading. *)
Example silent_refusal_is_not_counted :
  let results := fst (SuspendEplus.suspendUsers live silentlyRefusing [ann]) in
  length results = 1%nat
  /\ SuspendEplusMain.successCount results = 0%nat
  /\ SuspendEplusMain.failCount results = 0%nat.
Proof. vm_compute. repeat split. Qed.

(** X14. In live mode the license executor makes, for each user in order,
    the update call; then, only if the update returned, the removal call
    and, when the assignment is enabled, the insertion call.  No license
    of a user is touched unless the suspension of that user was accepted,
    and the calls for a user do not depend on what happened for the
    others. *)
Theorem license_calls_follow_accepted_suspension (cfg : ManageLicenses.Config)
        (M : Mutators) (users : list User) :
  ManageLicenses.DRY_RUN cfg = false ->
  snd (ManageLicenses.suspendAndChangeLicenses cfg M users)
  = concat (map (licenseCalls cfg M) users).
Proof.
  intros Hlive. rewrite ManageLicensesFacts.suspendAndChangeLicenses_map. cbn [snd].
  f_equal. apply map_ext. intros u.
  destruct (ExecutorFacts.processUser_flags cfg M u) as (_ & _ & _ & _ & ->).
  rewrite Hlive. reflexivity.
Qed.

Lemma license_calls_follow_accepted_suspension_sample :
  snd (ManageLicenses.suspendAndChangeLicenses assigning suspendRefusedForAnn [ann; bob])
  = [ CallUpdate "ann@example.com";
      CallUpdate "bob@example.com";
      CallRemove "Google-Apps" "1010020020" "bob@example.com";
      CallInsert "bob@example.com" "Google-Apps" "1010010001" ].
Proof.
  rewrite (license_calls_follow_accepted_suspension assigning suspendRefusedForAnn
             [ann; bob] eq_refl).
  reflexivity.
Defined.

(* ================================================================== *)
(** * Further properties: triggers                                      *)
(* ================================================================== *)

Module TriggerFacts.

Import Triggers.

Lemma deleteAll_spec (functionName : string) (triggers : list Trigger) :
  deleteAll functionName triggers
  = (filter (fun t => handles functionName t = false) triggers,
     length (filter (fun t => handles functionName t = true) triggers)).
Proof.
  induction triggers as [|t rest IH]; [reflexivity |].
  cbn [deleteAll]. rewrite IH, !filter_cons.
  destruct (handles functionName t); reflexivity.
Qed.

Lemma existsb_handles (functionName : string) (triggers : list Trigger) :
  existsb (handles functionName) triggers = false
  <-> filter (fun t => handles functionName t = true) triggers = [].
Proof.
  induction triggers as [|t rest IH]; [split; reflexivity |].
  cbn [existsb]. rewrite filter_cons.
  destruct (handles functionName t); simpl; [split; discriminate | exact IH].
Qed.

Lemma none_left (f : string) (triggers : list Trigger) :
  filter (fun t => handles f t = true) (filter (fun t => handles f t = false) triggers) = [].
Proof.
  induction triggers as [|t rest IH]; [reflexivity |].
  rewrite filter_cons.
  destruct (handles f t) eqn:Ht; simpl; [exact IH |].
  rewrite filter_cons, Ht. simpl. exact IH.
Qed.

Lemma others_kept (f : string) (triggers : list Trigger) :
  filter (fun t => handles f t = false) (filter (fun t => handles f t = false) triggers)
  = filter (fun t => handles f t = false) triggers.
Proof.
  induction triggers as [|t rest IH]; [reflexivity |].
  rewrite filter_cons.
  destruct (handles f t) eqn:Ht; simpl; [exact IH |].
  rewrite filter_cons, Ht. simpl. rewrite IH. reflexivity.
Qed.

End TriggerFacts.

(** X15. Setting up the monthly trigger of a script creates a trigger for
    the script's function, every 30 days, only when the project has none
    for that function: afterwards there is at least one, setting up again
    changes nothing, and no other trigger of the project is touched. *)
Theorem monthly_trigger_setup_is_idempotent (functionName : string)
        (triggers : list Triggers.Trigger) :
  let installed := Triggers.setupMonthly functionName triggers in
  let own l := filter (fun t => Triggers.handles functionName t = true) l in
  let others l := filter (fun t => Triggers.handles functionName t = false) l in
  Triggers.setupMonthly functionName installed = installed
  /\ own installed
     = (if decide (own triggers = [])
        then [ {| Triggers.handlerFunction := functionName;
                  Triggers.schedule := Triggers.EveryDays 30 |} ]
        else own triggers)
  /\ others installed = others triggers.
Proof.
  intros installed own others. unfold installed, own, others, Triggers.setupMonthly.
  pose proof (TriggerFacts.existsb_handles functionName triggers) as Hnone.
  destruct (existsb (Triggers.handles functionName) triggers) eqn:Hex.
  - rewrite Hex. split; [reflexivity |]. split; [| reflexivity].
    destruct (decide _) as [Hempty | _]; [| reflexivity].
    apply Hnone in Hempty. discriminate.
  - assert (Hown : Triggers.handles functionName
                     {| Triggers.handlerFunction := functionName;
                        Triggers.schedule := Triggers.EveryDays 30 |} = true)
      by apply String.eqb_refl.
    rewrite existsb_app. cbn [existsb]. rewrite Hown, orb_true_r.
    split; [reflexivity |].
    rewrite !filter_app, !filter_cons, !filter_nil, Hown.
    rewrite (proj1 Hnone eq_refl).
    destruct (decide ([] = [])) as [_ | Hn]; [| contradiction].
    split; [reflexivity |]. apply app_nil_r.
Qed.

(** X16. Creating the trigger of the batch audit first deletes every
    trigger of the audit function: however many were installed, exactly
    one is left, the new one that fires every 10 minutes, and the other
    triggers of the project are kept.  Deleting the triggers of a function
    leaves none for it, keeps the others, and counts what it deleted. *)
Theorem batch_trigger_is_replaced (triggers : list Triggers.Trigger) (functionName : string) :
  let own f l := filter (fun t => Triggers.handles f t = true) l in
  let others f l := filter (fun t => Triggers.handles f t = false) l in
  own "auditGroupsWithoutOwners" (Triggers.createAutoBatchTrigger triggers)
  = [ {| Triggers.handlerFunction := "auditGroupsWithoutOwners";
         Triggers.schedule := Triggers.EveryMinutes 10 |} ]
  /\ others "auditGroupsWithoutOwners" (Triggers.createAutoBatchTrigger triggers)
     = others "auditGroupsWithoutOwners" triggers
  /\ Triggers.deleteAll functionName triggers
     = (others functionName triggers, length (own functionName triggers))
  /\ own functionName (fst (Triggers.deleteAll functionName triggers)) = [].
Proof.
  intros own others. unfold own, others, Triggers.createAutoBatchTrigger.
  rewrite !TriggerFacts.deleteAll_spec. cbn [fst].
  split; [| split; [| split; [reflexivity | apply TriggerFacts.none_left]]].
  - rewrite filter_app, TriggerFacts.none_left. reflexivity.
  - rewrite filter_app, TriggerFacts.others_kept. apply app_nil_r.
Qed.

(* ================================================================== *)
(** * Further properties: the batches of the groups audit               *)
(* ================================================================== *)

Module AuditFacts.

Import GroupsBatch GroupsReport.

Lemma collectGroups_items (pages : Listing Group) (groups : list Group) :
  collectGroups pages groups = groups ++ itemsRead pages.
Proof.
  revert groups. induction pages as [m | gs | gs next IH]; intros groups; simpl.
  - rewrite app_nil_r. reflexivity.
  - reflexivity.
  - rewrite IH, app_assoc. reflexivity.
Qed.

(** The batch loop stops at the first iteration that reads the clock
    beyond the limit, and not before. *)
Lemma batch_time_box (cfg : Config) (E : Env) (batchGroups : list Group)
      (i : nat) (batchResults : list AuditResult) :
  exists k : nat,
    (k <= length batchGroups)%nat
    /\ processBatch cfg E batchGroups i batchResults i
       = (batchResults ++ omap (checkGroup E) (take k batchGroups), (i + k)%nat)
    /\ (forall j, (j < k)%nat -> elapsed_ms E (i + j) <= 1000 * MAX_EXECUTION_TIME cfg)
    /\ ((k < length batchGroups)%nat ->
        elapsed_ms E (i + k) > 1000 * MAX_EXECUTION_TIME cfg).
Proof.
  revert i batchResults.
  induction batchGroups as [|g rest IH]; intros i batchResults; simpl.
  - exists 0%nat. rewrite app_nil_r, Nat.add_0_r.
    split; [lia |]. split; [reflexivity |]. split; intros; lia.
  - destruct (Z.gtb_spec (elapsed_ms E i) (1000 * MAX_EXECUTION_TIME cfg)) as [Hover | Hin].
    + exists 0%nat. simpl. rewrite app_nil_r, Nat.add_0_r.
      split; [lia |]. split; [reflexivity |]. split; [intros; lia |].
      intros _. lia.
    + destruct (IH (S i) (match checkGroup E g with
                          | Some entry => batchResults ++ [entry]
                          | None => batchResults
                          end)) as (k & Hk & Heq & Hbefore & Hstop).
      exists (S k). split; [lia |]. split; [| split].
      * rewrite Heq. simpl. f_equal; [| lia].
        destruct (checkGroup E g); [rewrite <- app_assoc |]; reflexivity.
      * intros j Hj. destruct j as [|j].
        -- rewrite Nat.add_0_r. exact Hin.
        -- replace (i + S j)%nat with (S i + j)%nat by lia. apply Hbefore. lia.
      * intros Hlt. replace (i + S k)%nat with (S i + k)%nat by lia.
        apply Hstop. lia.
Qed.

Section Timed.

Variables (JG : Codec (list Group)) (JR : Codec (list AuditResult)).
Hypothesis JG_lawful : Lawful JG.
Hypothesis JR_lawful : Lawful JR.
Hypothesis JR_empty : ParsesEmpty JR.

(** A run from a checkpoint, with the number of groups it gets through. *)
Lemma timed_step (cfg : Config) (E : Env) (props : gmap string string)
      (G : list Group) (n : nat) (rs : list AuditResult) :
  props !! "groupsCache" = Some (stringify JG G) ->
  loadProcessedIndex props = Num (Z.of_nat n) ->
  (n <= length G)%nat ->
  loadAuditResults JR props = Some rs ->
  exists k : nat,
    (k <= Nat.min (BATCH_SIZE cfg) (length G - n))%nat
    /\ (forall j, (j < k)%nat -> elapsed_ms E j <= 1000 * MAX_EXECUTION_TIME cfg)
    /\ ((k < Nat.min (BATCH_SIZE cfg) (length G - n))%nat ->
        elapsed_ms E k > 1000 * MAX_EXECUTION_TIME cfg)
    /\ auditGroupsWithoutOwners cfg JG JR E props
       = let allResults := rs ++ omap (checkGroup E) (take k (drop n G)) in
         let saved :=
           <["auditResults" := stringify JR allResults]>
             (<["processedIndex" := natToString (n + k)]> props) in
         if (length G <=? n + k)%nat
         then Finished (delete "auditResults" (delete "processedIndex" saved))
                       (Some {| report_groups := allResults;
                                totalGroupsScanned := length G |})
         else Finished saved None.
Proof.
  intros Hc Hi Hn Hr.
  unfold auditGroupsWithoutOwners.
  rewrite (GroupsBatchFacts.getAllGroups_cached JG JG_lawful E props G Hc), Hi, Hr.
  rewrite GroupsBatchFacts.slice_batch by exact Hn.
  destruct (batch_time_box cfg E (take (BATCH_SIZE cfg) (drop n G)) 0 [])
    as (k & Hk & -> & Hbefore & Hstop).
  rewrite length_take, length_drop in Hk, Hstop.
  exists k. split; [lia |]. split; [exact Hbefore |]. split; [exact Hstop |].
  rewrite take_take. replace (k `min` BATCH_SIZE cfg)%nat with k by lia.
  cbn [add]. rewrite <- Nat2Z.inj_add, GroupsBatchFacts.toString_nat. cbn [ge].
  simpl app. cbv zeta.
  destruct (Nat.leb_spec (length G) (0 + k)%nat) as [H1|H1];
    destruct (Nat.leb_spec (length G) (n + k)%nat) as [H2|H2].
  all: destruct (Z.geb_spec (Z.of_nat (n + (0 + k))) (Z.of_nat (length G))) as [H3|H3];
    try lia; simpl; reflexivity.
Qed.

(** The state a run leaves, by whether it generated the report. *)
Lemma timed_run (cfg : Config) (E : Env) (props : gmap string string)
      (G : list Group) (n : nat) (rs : list AuditResult) :
  props !! "groupsCache" = Some (stringify JG G) ->
  loadProcessedIndex props = Num (Z.of_nat n) ->
  (n <= length G)%nat ->
  loadAuditResults JR props = Some rs ->
  exists (k : nat) (props' : gmap string string),
    (k <= Nat.min (BATCH_SIZE cfg) (length G - n))%nat
    /\ (forall j, (j < k)%nat -> elapsed_ms E j <= 1000 * MAX_EXECUTION_TIME cfg)
    /\ ((k < Nat.min (BATCH_SIZE cfg) (length G - n))%nat ->
        elapsed_ms E k > 1000 * MAX_EXECUTION_TIME cfg)
    /\ props' !! "groupsCache" = Some (stringify JG G)
    /\ (forall key, key <> "processedIndex" -> key <> "auditResults" ->
        props' !! key = props !! key)
    /\ auditGroupsWithoutOwners cfg JG JR E props
       = Finished props'
           (if (length G <=? n + k)%nat
            then Some {| report_groups := rs ++ omap (checkGroup E) (take k (drop n G));
                         totalGroupsScanned := length G |}
            else None)
    /\ (if (length G <=? n + k)%nat
        then loadProcessedIndex props' = Num 0 /\ loadAuditResults JR props' = Some []
        else loadProcessedIndex props' = Num (Z.of_nat (n + k))
             /\ loadAuditResults JR props'
                = Some (rs ++ omap (checkGroup E) (take k (drop n G)))).
Proof.
  intros Hc Hi Hn Hr.
  destruct (timed_step cfg E props G n rs Hc Hi Hn Hr) as (k & Hk & Hbefore & Hstop & Hrun).
  cbv zeta in Hrun.
  pose proof (GroupsBatchFacts.load_saved JR JR_lawful props (n + k)
                (rs ++ omap (checkGroup E) (take k (drop n G)))) as Hsaved.
  cbv zeta in Hsaved. destruct Hsaved as (Hs1 & Hs2 & Hs3).
  exists k.
  destruct (length G <=? n + k)%nat.
  - pose proof (GroupsBatchFacts.load_cleared JR JR_empty
                  (<["auditResults" := stringify JR
                       (rs ++ omap (checkGroup E) (take k (drop n G)))]>
                     (<["processedIndex" := natToString (n + k)]> props))) as Hcl.
    cbv zeta in Hcl. destruct Hcl as (_ & _ & Hc3 & Hc4 & Hc5).
    eexists. split; [exact Hk |]. split; [exact Hbefore |]. split; [exact Hstop |].
    split; [rewrite Hc3, Hs3; exact Hc |].
    split; [| split; [exact Hrun | split; assumption]].
    intros key H1 H2.
    rewrite lookup_delete_ne by congruence. rewrite lookup_delete_ne by congruence.
    rewrite lookup_insert_ne by congruence. rewrite lookup_insert_ne by congruence.
    reflexivity.
  - eexists. split; [exact Hk |]. split; [exact Hbefore |]. split; [exact Hstop |].
    split; [rewrite Hs3; exact Hc |].
    split; [| split; [exact Hrun | split; assumption]].
    intros key H1 H2.
    rewrite lookup_insert_ne by congruence. rewrite lookup_insert_ne by congruence.
    reflexivity.
Qed.

(** A property of index and results that every run preserves holds of
    every report, whatever the batch size and the clocks. *)
Lemma reports_invariant (cfg : Config) (G : list Group)
      (Q : nat -> list AuditResult -> Prop) (envs : list Env) :
  Q 0%nat [] ->
  (forall E n k rs,
      E ∈ envs -> Q n rs -> (n + k <= length G)%nat ->
      Q (n + k)%nat (rs ++ omap (checkGroup E) (take k (drop n G)))) ->
  forall (props : gmap string string) (n : nat) (rs : list AuditResult),
    props !! "groupsCache" = Some (stringify JG G) ->
    loadProcessedIndex props = Num (Z.of_nat n) ->
    (n <= length G)%nat ->
    loadAuditResults JR props = Some rs ->
    Q n rs ->
    Forall (fun report => Q (length G) (report_groups report)
                          /\ totalGroupsScanned report = length G)
           (reports (auditRuns cfg JG JR envs props)).
Proof.
  intros Hstart. induction envs as [|E rest IH]; intros Hstep props n rs Hc Hi Hn Hr HQ.
  - constructor.
  - cbn [auditRuns].
    destruct (timed_run cfg E props G n rs Hc Hi Hn Hr)
      as (k & props' & Hk & _ & _ & Hc' & _ & Hrun & Hnext).
    rewrite Hrun. unfold reports. cbn [omap list_omap].
    fold (reports (auditRuns cfg JG JR rest props')).
    assert (Hstep' : forall E n k rs,
               E ∈ rest -> Q n rs -> (n + k <= length G)%nat ->
               Q (n + k)%nat (rs ++ omap (checkGroup E) (take k (drop n G)))).
    { intros E' n' k' rs' HE'. apply Hstep. right. exact HE'. }
    assert (HQ' : Q (n + k)%nat (rs ++ omap (checkGroup E) (take k (drop n G)))).
    { apply Hstep; [left | exact HQ | lia]. }
    destruct (Nat.leb_spec (length G) (n + k)) as [Hfull | Hpart].
    + destruct Hnext as [Hi' Hr']. constructor.
      * cbn [report_groups totalGroupsScanned]. split; [| reflexivity].
        replace (length G) with (n + k)%nat at 1 by lia. exact HQ'.
      * apply (IH Hstep' props' 0%nat []); [exact Hc' | exact Hi' | lia | exact Hr' | exact Hstart].
    + destruct Hnext as [Hi' Hr'].
      eapply (IH Hstep' props' (n + k)%nat); [exact Hc' | exact Hi' | lia | exact Hr' | exact HQ'].
Qed.

(** A sequence of runs that starts without a cached list works on the list
    its first run fetches. *)
Lemma auditRuns_fresh (cfg : Config) (E : Env) (rest : list Env)
      (props : gmap string string) :
  missing (props !! "groupsCache") ->
  auditRuns cfg JG JR (E :: rest) props
  = auditRuns cfg JG JR (E :: rest)
      (<["groupsCache" := stringify JG (itemsRead (Groups_list E))]> props).
Proof.
  intros Hc. cbn [auditRuns].
  rewrite (GroupsBatchFacts.audit_fresh_start JG JR JG_lawful cfg E props Hc).
  rewrite collectGroups_items. reflexivity.
Qed.

Lemma fresh_loads (props : gmap string string) (cache : string) :
  missing (props !! "processedIndex") ->
  missing (props !! "auditResults") ->
  let props' := <["groupsCache" := cache]> props in
  props' !! "groupsCache" = Some cache
  /\ loadProcessedIndex props' = Num (Z.of_nat 0)
  /\ loadAuditResults JR props' = Some [].
Proof.
  intros Hi Hr props'. unfold props', loadProcessedIndex, loadAuditResults.
  rewrite lookup_insert_eq.
  rewrite lookup_insert_ne by discriminate. rewrite lookup_insert_ne by discriminate.
  rewrite !GroupsBatchFacts.or_default_missing by assumption.
  split; [reflexivity |]. split; [reflexivity | exact JR_empty].
Qed.

End Timed.

End AuditFacts.

(** X17. The batch loop is cut by the clock and by nothing else: it goes
    through the groups of the batch in order, checks each one it reaches,
    and stops at the first iteration at which the time elapsed exceeds the
    limit, or at the end of the batch.  The index it yields counts the
    groups it has checked, and the results are the entries of exactly
    those groups. *)
Theorem batch_loop_stops_at_time_limit (cfg : GroupsBatch.Config) (E : GroupsBatch.Env)
        (batchGroups : list GroupsBatch.Group) (batchResults : list GroupsBatch.AuditResult) :
  exists k : nat,
    (k <= length batchGroups)%nat
    /\ GroupsBatch.processBatch cfg E batchGroups 0 batchResults 0
       = (batchResults ++ omap (GroupsBatch.checkGroup E) (take k batchGroups), k)
    /\ (forall j, (j < k)%nat ->
        GroupsBatch.elapsed_ms E j <= 1000 * GroupsBatch.MAX_EXECUTION_TIME cfg)
    /\ ((k < length batchGroups)%nat ->
        GroupsBatch.elapsed_ms E k > 1000 * GroupsBatch.MAX_EXECUTION_TIME cfg).
Proof.
  destruct (AuditFacts.batch_time_box cfg E batchGroups 0 batchResults)
    as (k & Hk & Heq & Hbefore & Hstop).
  exists k. split; [exact Hk |]. split; [exact Heq |]. split; assumption.
Qed.

Module ReportFacts.

Import GroupsBatch GroupsReport.

Lemma checkGroup_members (E E' : Env) :
  (forall g r, Members_list E' g r = Members_list E g r) ->
  forall group, checkGroup E' group = checkGroup E group.
Proof.
  intros Hsame. apply GroupsBatchFacts.checkGroup_ext.
  intros g r. unfold checkGroupHasRole. rewrite Hsame. reflexivity.
Qed.

Lemma checkGroup_entry (E : Env) (group : Group) (entry : AuditResult) :
  checkGroup E group = Some entry ->
  groupEmail entry = email group /\ missesRole entry.
Proof.
  unfold checkGroup, missesRole.
  destruct (checkGroupHasRole E (email group) "OWNER") eqn:Ho;
    destruct (checkGroupHasRole E (email group) "MANAGER") eqn:Hm;
    cbn [negb orb]; [discriminate | | |]; intros [= <-]; cbn; auto.
Qed.

Lemma checked_sublist (E : Env) (groups : list Group) :
  map groupEmail (omap (checkGroup E) groups) `sublist_of` map email groups.
Proof.
  induction groups as [|g rest IH]; simpl; [constructor |].
  destruct (checkGroup E g) as [entry|] eqn:Hentry; simpl.
  - destruct (checkGroup_entry E g entry Hentry) as [-> _].
    apply sublist_skip. exact IH.
  - apply sublist_cons. exact IH.
Qed.

Lemma checked_miss (E : Env) (groups : list Group) :
  Forall missesRole (omap (checkGroup E) groups)
  /\ (length (omap (checkGroup E) groups) <= length groups)%nat.
Proof.
  induction groups as [|g rest [IH1 IH2]]; [split; [constructor | reflexivity] |].
  cbn [omap list_omap]. fold (omap (checkGroup E) rest).
  destruct (checkGroup E g) as [entry|] eqn:Hentry; cbn [length].
  - destruct (checkGroup_entry E g entry Hentry) as [_ Hmiss].
    split; [constructor; assumption | lia].
  - split; [exact IH1 | lia].
Qed.

(** Entries that each miss a role are counted once under each role they
    miss. *)
Lemma counts_add_up (groups : list AuditResult) :
  Forall missesRole groups ->
  (length (filter (fun g => hasOwner g = false) groups)
   + length (filter (fun g => hasManager g = false) groups)
   = length groups
     + length (filter (fun g => hasOwner g = false /\ hasManager g = false) groups))%nat.
Proof.
  induction 1 as [|g rest Hg Hrest IH]; [reflexivity |].
  rewrite !filter_cons. unfold missesRole in Hg.
  destruct (hasOwner g), (hasManager g);
    repeat match goal with
           | |- context [decide ?P] => destruct (decide P)
           end;
    simpl; try lia; try congruence; try tauto.
  all: exfalso; intuition congruence.
Qed.

End ReportFacts.

(** X18. When no run is cut short by the clock and the batch size is
    positive, an audit of a cached list completes in as many runs as there
    are batches: if the groups left from the checkpoint fill more than
    m - 1 batches and at most m, the first m - 1 runs generate no report
    and the run after them generates it. *)
Theorem audit_completes_in_as_many_runs_as_batches
        (JG : Codec (list GroupsBatch.Group)) (JR : Codec (list GroupsBatch.AuditResult))
        (cfg : GroupsBatch.Config) (G : list GroupsBatch.Group) (m : nat) :
  Lawful JG -> Lawful JR -> ParsesEmpty JR ->
  forall (envs : list GroupsBatch.Env) (props : gmap string string) (n : nat)
         (rs : list GroupsBatch.AuditResult),
    props !! "groupsCache" = Some (stringify JG G) ->
    GroupsBatch.loadProcessedIndex props = Num (Z.of_nat n) ->
    GroupsBatch.loadAuditResults JR props = Some rs ->
    Forall (inTime cfg) envs ->
    ((m - 1) * GroupsBatch.BATCH_SIZE cfg < length G - n
     <= m * GroupsBatch.BATCH_SIZE cfg)%nat ->
    (m <= length envs)%nat ->
    GroupsReport.reports (GroupsBatch.auditRuns cfg JG JR (take (m - 1) envs) props) = []
    /\ exists report,
        GroupsReport.reports (GroupsBatch.auditRuns cfg JG JR (take m envs) props)
        = [report].
Proof.
  intros HJG HJR Hempty.
  induction m as [|m IH]; intros envs props n rs Hc Hi Hr Htime Hm Hlen; [lia |].
  destruct envs as [|E rest]; [simpl in Hlen; lia |].
  apply Forall_cons in Htime. destruct Htime as [HE Hrest].
  assert (Hn : (n <= length G)%nat) by lia.
  destruct (AuditFacts.timed_run JG JR HJG HJR Hempty cfg E props G n rs Hc Hi Hn Hr)
    as (k & props' & Hk & _ & Hstop & Hc' & _ & Hrun & Hnext).
  assert (Hk' : k = Nat.min (GroupsBatch.BATCH_SIZE cfg) (length G - n)).
  { destruct (Nat.eq_dec k (Nat.min (GroupsBatch.BATCH_SIZE cfg) (length G - n)))
      as [Heq | Hne]; [exact Heq |].
    assert (Hlt : (k < Nat.min (GroupsBatch.BATCH_SIZE cfg) (length G - n))%nat) by lia.
    specialize (Hstop Hlt). specialize (HE k ltac:(lia)). lia. }
  destruct m as [|m].
  - (* one batch is left *)
    replace (1 - 1)%nat with 0%nat in * by lia.
    cbn [take GroupsBatch.auditRuns]. rewrite Hrun.
    split; [reflexivity |].
    destruct (Nat.leb_spec (length G) (n + k)) as [_ | Hpart]; [| lia].
    eexists. reflexivity.
  - (* more than one *)
    replace (S (S m) - 1)%nat with (S m) in * by lia.
    simpl in Hlen.
    assert (HkB : k = GroupsBatch.BATCH_SIZE cfg) by nia.
    destruct (Nat.leb_spec (length G) (n + k)) as [Hfull | Hpart]; [nia |].
    destruct Hnext as [Hi' Hr'].
    destruct (IH rest props' (n + k)%nat _ Hc' Hi' Hr' Hrest) as [Hnone Hsome];
      [replace (S m - 1)%nat with m by lia; nia | lia |].
    replace (S m - 1)%nat with m in Hnone by lia.
    cbn [take GroupsBatch.auditRuns]. rewrite Hrun.
    unfold GroupsReport.reports in *. cbn [omap list_omap].
    split; [exact Hnone | exact Hsome].
Qed.

Lemma audit_completes_in_as_many_runs_as_batches_sample :
  GroupsReport.reports
    (GroupsBatch.auditRuns batchesOfTwo RefCodec.JG RefCodec.JR
       (take (3 - 1) [domain; domain; domain; domain]) cachedFive) = []
  /\ exists report,
      GroupsReport.reports
        (GroupsBatch.auditRuns batchesOfTwo RefCodec.JG RefCodec.JR
           (take 3 [domain; domain; domain; domain]) cachedFive) = [report].
Proof.
  apply (audit_completes_in_as_many_runs_as_batches RefCodec.JG RefCodec.JR batchesOfTwo
           fiveGroups 3 GroupsBatchFacts.JG_lawful GroupsBatchFacts.JR_lawful
           GroupsBatchFacts.JR_parses_empty [domain; domain; domain; domain] cachedFive
           0%nat []).
  - reflexivity.
  - reflexivity.
  - reflexivity.
  - repeat constructor; intros j Hj; unfold domain, batchesOfTwo in *;
      cbn [GroupsBatch.elapsed_ms GroupsBatch.MAX_EXECUTION_TIME GroupsBatch.BATCH_SIZE] in *;
      lia.
  - vm_compute. split; lia.
  - simpl. lia.
Defined.

(** X19. Batching is transparent.  Take properties that hold no cached
    list, no index and no results, and a sequence of runs that all get the
    same answers about the members of the groups.  Whatever the batch size
    and the clocks of the runs, however many runs an audit takes, and
    whatever the directory lists to the later runs, every final report is
    the one a single pass over the groups fetched by the first run would
    give: the entry of each such group that misses a role, in the order of
    the listing, and the number of groups fetched. *)
Theorem batching_is_transparent
        (JG : Codec (list GroupsBatch.Group)) (JR : Codec (list GroupsBatch.AuditResult))
        (cfg : GroupsBatch.Config) (E : GroupsBatch.Env) (rest : list GroupsBatch.Env)
        (props : gmap string string) :
  Lawful JG -> Lawful JR -> ParsesEmpty JR ->
  missing (props !! "groupsCache") ->
  missing (props !! "processedIndex") ->
  missing (props !! "auditResults") ->
  Forall (fun E' => forall g r,
              GroupsBatch.Members_list E' g r = GroupsBatch.Members_list E g r) rest ->
  Forall (fun report => report = singlePass E (itemsRead (GroupsBatch.Groups_list E)))
         (GroupsReport.reports (GroupsBatch.auditRuns cfg JG JR (E :: rest) props)).
Proof.
  intros HJG HJR Hempty Hc Hi Hr Hsame.
  rewrite (AuditFacts.auditRuns_fresh JG JR HJG cfg E rest props Hc).
  set (G := itemsRead (GroupsBatch.Groups_list E)).
  destruct (AuditFacts.fresh_loads JR Hempty props (stringify JG G) Hi Hr)
    as (Hc' & Hi' & Hr').
  pose proof (AuditFacts.reports_invariant JG JR HJG HJR Hempty cfg G
                (fun n rs => rs = omap (GroupsBatch.checkGroup E) (take n G))
                (E :: rest)) as Hinv.
  eapply Forall_impl.
  - eapply (Hinv eq_refl); [| exact Hc' | exact Hi' | apply Nat.le_0_l | exact Hr' | reflexivity].
    intros E' n k rs HE' -> Hnk.
    assert (Hchk : forall group,
               GroupsBatch.checkGroup E' group = GroupsBatch.checkGroup E group).
    { apply ReportFacts.checkGroup_members.
      apply elem_of_cons in HE'. destruct HE' as [-> | HE']; [reflexivity |].
      rewrite Forall_forall in Hsame. apply Hsame. exact HE'. }
    rewrite <- take_take_drop, omap_app. f_equal.
    clear -Hchk. induction (take k (drop n G)) as [|g l IH]; [reflexivity |].
    cbn [omap list_omap]. rewrite Hchk.
    fold (omap (GroupsBatch.checkGroup E') l). fold (omap (GroupsBatch.checkGroup E) l).
    rewrite IH. reflexivity.
  - intros [groups total] [Hgroups Htotal]. cbn in Hgroups, Htotal.
    unfold singlePass. rewrite Hgroups, Htotal, firstn_all. reflexivity.
Qed.

Lemma batching_is_transparent_sample :
  Forall (fun report => report = singlePass domain (itemsRead (GroupsBatch.Groups_list domain)))
         (GroupsReport.reports
            (GroupsBatch.auditRuns batchesOfTwo RefCodec.JG RefCodec.JR
               [domain; laterDomain; domain; domain; laterDomain; domain] ∅)).
Proof.
  apply (batching_is_transparent RefCodec.JG RefCodec.JR batchesOfTwo domain
           [laterDomain; domain; domain; laterDomain; domain] ∅
           GroupsBatchFacts.JG_lawful GroupsBatchFacts.JR_lawful
           GroupsBatchFacts.JR_parses_empty).
  - left. reflexivity.
  - left. reflexivity.
  - left. reflexivity.
  - repeat constructor.
Defined.

(** The sample sequence goes through two audits, of three runs each: the
    runs cut short by the clock delay the report, they do not change it. *)
Example transparent_sample_reports :
  GroupsReport.reports
    (GroupsBatch.auditRuns batchesOfTwo RefCodec.JG RefCodec.JR
       [domain; laterDomain; domain; domain; laterDomain; domain] ∅)
  = [singlePass domain fiveGroups; singlePass domain fiveGroups].
Proof. vm_compute. reflexivity. Qed.

(** X20. The list of groups is fetched once.  From properties that hold no
    cached list, no index and no results, every final report of a sequence
    of runs is about the groups the first run read from the directory, up
    to the first request that threw: the number of groups scanned is their
    number, and the entries come in their order, at most one per group
    read.  What the directory lists to the later runs, and what the clocks
    and the membership answers are, makes no difference to that. *)
Theorem report_is_about_the_list_first_fetched
        (JG : Codec (list GroupsBatch.Group)) (JR : Codec (list GroupsBatch.AuditResult))
        (cfg : GroupsBatch.Config) (E : GroupsBatch.Env) (rest : list GroupsBatch.Env)
        (props : gmap string string) :
  Lawful JG -> Lawful JR -> ParsesEmpty JR ->
  missing (props !! "groupsCache") ->
  missing (props !! "processedIndex") ->
  missing (props !! "auditResults") ->
  Forall (fun report =>
            map GroupsBatch.groupEmail (GroupsBatch.report_groups report)
              `sublist_of` map GroupsBatch.email (itemsRead (GroupsBatch.Groups_list E))
            /\ GroupsBatch.totalGroupsScanned report
               = length (itemsRead (GroupsBatch.Groups_list E)))
         (GroupsReport.reports (GroupsBatch.auditRuns cfg JG JR (E :: rest) props)).
Proof.
  intros HJG HJR Hempty Hc Hi Hr.
  rewrite (AuditFacts.auditRuns_fresh JG JR HJG cfg E rest props Hc).
  set (G := itemsRead (GroupsBatch.Groups_list E)).
  destruct (AuditFacts.fresh_loads JR Hempty props (stringify JG G) Hi Hr)
    as (Hc' & Hi' & Hr').
  pose proof (AuditFacts.reports_invariant JG JR HJG HJR Hempty cfg G
                (fun n rs => map GroupsBatch.groupEmail rs
                               `sublist_of` map GroupsBatch.email (take n G))
                (E :: rest)) as Hinv.
  eapply Forall_impl.
  - eapply Hinv; [constructor | | exact Hc' | exact Hi' | apply Nat.le_0_l | exact Hr'
                  | constructor].
    intros E' n k rs _ Hrs Hnk.
    rewrite <- take_take_drop, !map_app.
    apply sublist_app; [exact Hrs | apply ReportFacts.checked_sublist].
  - intros report [Hgroups Htotal]. rewrite firstn_all in Hgroups. split; assumption.
Qed.

Lemma report_is_about_the_list_first_fetched_sample :
  Forall (fun report =>
            map GroupsBatch.groupEmail (GroupsBatch.report_groups report)
              `sublist_of` map GroupsBatch.email (itemsRead (GroupsBatch.Groups_list domain))
            /\ GroupsBatch.totalGroupsScanned report
               = length (itemsRead (GroupsBatch.Groups_list domain)))
         (GroupsReport.reports
            (GroupsBatch.auditRuns batchesOfTwo RefCodec.JG RefCodec.JR
               [domain; laterDomain; laterDomain; laterDomain; laterDomain] ∅)).
Proof.
  apply (report_is_about_the_list_first_fetched RefCodec.JG RefCodec.JR batchesOfTwo domain
           [laterDomain; laterDomain; laterDomain; laterDomain] ∅
           GroupsBatchFacts.JG_lawful GroupsBatchFacts.JR_lawful
           GroupsBatchFacts.JR_parses_empty).
  - left. reflexivity.
  - left. reflexivity.
  - left. reflexivity.
Defined.

(** X21. The summary of a final report adds up.  Every entry of a report
    misses a role, so the groups without owner and the groups without
    manager, counted together, are the groups with issues plus those that
    miss both; and the groups with issues are at most the groups
    scanned. *)
Theorem report_summary_adds_up
        (JG : Codec (list GroupsBatch.Group)) (JR : Codec (list GroupsBatch.AuditResult))
        (cfg : GroupsBatch.Config) (E : GroupsBatch.Env) (rest : list GroupsBatch.Env)
        (props : gmap string string) :
  Lawful JG -> Lawful JR -> ParsesEmpty JR ->
  missing (props !! "groupsCache") ->
  missing (props !! "processedIndex") ->
  missing (props !! "auditResults") ->
  Forall (fun report =>
            let s := GroupsReport.summary report in
            (GroupsReport.noOwners s + GroupsReport.noManagers s
             = GroupsReport.withIssues s + GroupsReport.noBoth s)%nat
            /\ (GroupsReport.withIssues s <= GroupsReport.scanned s)%nat
            /\ Forall missesRole (GroupsBatch.report_groups report))
         (GroupsReport.reports (GroupsBatch.auditRuns cfg JG JR (E :: rest) props)).
Proof.
  intros HJG HJR Hempty Hc Hi Hr.
  rewrite (AuditFacts.auditRuns_fresh JG JR HJG cfg E rest props Hc).
  set (G := itemsRead (GroupsBatch.Groups_list E)).
  destruct (AuditFacts.fresh_loads JR Hempty props (stringify JG G) Hi Hr)
    as (Hc' & Hi' & Hr').
  pose proof (AuditFacts.reports_invariant JG JR HJG HJR Hempty cfg G
                (fun n rs => Forall missesRole rs /\ (length rs <= n)%nat)
                (E :: rest)) as Hinv.
  eapply Forall_impl.
  - eapply Hinv; [split; [constructor | reflexivity] | | exact Hc' | exact Hi'
                  | apply Nat.le_0_l | exact Hr' | split; [constructor | reflexivity]].
    intros E' n k rs _ [Hrs Hlen] Hnk.
    destruct (ReportFacts.checked_miss E' (take k (drop n G))) as [Hmiss Hle].
    rewrite length_take, length_drop in Hle.
    split; [apply Forall_app; split; assumption |].
    rewrite length_app. lia.
  - intros [groups total] [[Hmiss Hlen] Htotal]. cbn in Hmiss, Hlen, Htotal.
    cbv zeta. unfold GroupsReport.summary.
    cbn [GroupsReport.noOwners GroupsReport.noManagers GroupsReport.withIssues
         GroupsReport.noBoth GroupsReport.scanned GroupsBatch.report_groups
         GroupsBatch.totalGroupsScanned].
    split; [apply ReportFacts.counts_add_up; exact Hmiss |].
    split; [lia | exact Hmiss].
Qed.

Lemma report_summary_adds_up_sample :
  Forall (fun report =>
            let s := GroupsReport.summary report in
            (GroupsReport.noOwners s + GroupsReport.noManagers s
             = GroupsReport.withIssues s + GroupsReport.noBoth s)%nat
            /\ (GroupsReport.withIssues s <= GroupsReport.scanned s)%nat
            /\ Forall missesRole (GroupsBatch.report_groups report))
         (GroupsReport.reports
            (GroupsBatch.auditRuns batchesOfTwo RefCodec.JG RefCodec.JR
               [domain; domain; domain] ∅)).
Proof.
  apply (report_summary_adds_up RefCodec.JG RefCodec.JR batchesOfTwo domain
           [domain; domain] ∅
           GroupsBatchFacts.JG_lawful GroupsBatchFacts.JR_lawful
           GroupsBatchFacts.JR_parses_empty).
  - left. reflexivity.
  - left. reflexivity.
  - left. reflexivity.
Defined.

(** X22. [resetAudit] makes the next run start afresh, whatever the
    properties held: a stale or unreadable list, an index, results.  It
    deletes the three properties of the audit and no other.  The run after
    it fetches the groups from the directory, caches them, and works from
    the first group with no earlier results: it gets through some number
    of groups of the first batch, and generates the report when these are
    all the groups. *)
Theorem reset_makes_the_next_run_start_afresh
        (JG : Codec (list GroupsBatch.Group)) (JR : Codec (list GroupsBatch.AuditResult))
        (cfg : GroupsBatch.Config) (E : GroupsBatch.Env) (props : gmap string string) :
  Lawful JG -> Lawful JR -> ParsesEmpty JR ->
  let G := itemsRead (GroupsBatch.Groups_list E) in
  (forall key, key <> "processedIndex" -> key <> "auditResults" -> key <> "groupsCache" ->
               GroupsBatch.resetAudit props !! key = props !! key)
  /\ exists (k : nat) (props' : gmap string string),
      (k <= Nat.min (GroupsBatch.BATCH_SIZE cfg) (length G))%nat
      /\ GroupsBatch.auditGroupsWithoutOwners cfg JG JR E (GroupsBatch.resetAudit props)
         = GroupsBatch.Finished props'
             (if (length G <=? k)%nat then Some (singlePass E G) else None)
      /\ props' !! "groupsCache" = Some (stringify JG G)
      /\ (if (length G <=? k)%nat
          then GroupsBatch.loadProcessedIndex props' = Num 0
               /\ GroupsBatch.loadAuditResults JR props' = Some []
          else GroupsBatch.loadProcessedIndex props' = Num (Z.of_nat k)
               /\ GroupsBatch.loadAuditResults JR props'
                  = Some (omap (GroupsBatch.checkGroup E) (take k G))).
Proof.
  intros HJG HJR Hempty G. split.
  { intros key H1 H2 H3. unfold GroupsBatch.resetAudit.
    rewrite !lookup_delete_ne by congruence. reflexivity. }
  assert (Hc : missing (GroupsBatch.resetAudit props !! "groupsCache")).
  { left. apply lookup_delete_eq. }
  assert (Hi : missing (GroupsBatch.resetAudit props !! "processedIndex")).
  { left. unfold GroupsBatch.resetAudit.
    rewrite lookup_delete_ne by discriminate. rewrite lookup_delete_ne by discriminate.
    apply lookup_delete_eq. }
  assert (Hr : missing (GroupsBatch.resetAudit props !! "auditResults")).
  { left. unfold GroupsBatch.resetAudit.
    rewrite lookup_delete_ne by discriminate. apply lookup_delete_eq. }
  rewrite (GroupsBatchFacts.audit_fresh_start JG JR HJG cfg E _ Hc).
  rewrite AuditFacts.collectGroups_items. cbn [app]. fold G.
  destruct (AuditFacts.fresh_loads JR Hempty (GroupsBatch.resetAudit props)
              (stringify JG G) Hi Hr) as (Hc' & Hi' & Hr').
  destruct (AuditFacts.timed_run JG JR HJG HJR Hempty cfg E _ G 0%nat [] Hc' Hi'
              ltac:(lia) Hr')
    as (k & props' & Hk & _ & _ & Hcache & _ & Hrun & Hnext).
  rewrite Nat.sub_0_r in Hk. cbn [app drop Nat.add] in Hrun, Hnext.
  exists k, props'. split; [exact Hk |]. split; [| split; [exact Hcache | exact Hnext]].
  rewrite Hrun. destruct (Nat.leb_spec (length G) k) as [Hfull | _]; [| reflexivity].
  unfold singlePass. rewrite take_ge by exact Hfull. reflexivity.
Qed.

Lemma reset_makes_the_next_run_start_afresh_sample :
  let G := itemsRead (GroupsBatch.Groups_list domain) in
  (forall key, key <> "processedIndex" -> key <> "auditResults" -> key <> "groupsCache" ->
               GroupsBatch.resetAudit leftOver !! key = leftOver !! key)
  /\ exists (k : nat) (props' : gmap string string),
      (k <= Nat.min (GroupsBatch.BATCH_SIZE batchesOfTwo) (length G))%nat
      /\ GroupsBatch.auditGroupsWithoutOwners batchesOfTwo RefCodec.JG RefCodec.JR domain
           (GroupsBatch.resetAudit leftOver)
         = GroupsBatch.Finished props'
             (if (length G <=? k)%nat then Some (singlePass domain G) else None)
      /\ props' !! "groupsCache" = Some (stringify RefCodec.JG G)
      /\ (if (length G <=? k)%nat
          then GroupsBatch.loadProcessedIndex props' = Num 0
               /\ GroupsBatch.loadAuditResults RefCodec.JR props' = Some []
          else GroupsBatch.loadProcessedIndex props' = Num (Z.of_nat k)
               /\ GroupsBatch.loadAuditResults RefCodec.JR props'
                  = Some (omap (GroupsBatch.checkGroup domain) (take k G))).
Proof.
  apply (reset_makes_the_next_run_start_afresh RefCodec.JG RefCodec.JR batchesOfTwo domain
           leftOver GroupsBatchFacts.JG_lawful GroupsBatchFacts.JR_lawful
           GroupsBatchFacts.JR_parses_empty).
Defined.

(* ================================================================== *)
(** * Further properties: the Reports-only and license-first audits     *)
(* ================================================================== *)

Module ReportsOnlyFacts.

Lemma collectLogins_until_throw (pages : Listing Activity) (loginMap : gmap string Z) :
  ReportsOnly.collectLogins pages loginMap
  = fst (ReportsOnly.recordItems loginMap (itemsRead pages)).
Proof.
  assert (Happ : forall l l' m,
             ReportsOnly.recordItems m (l ++ l')
             = if snd (ReportsOnly.recordItems m l)
               then ReportsOnly.recordItems (fst (ReportsOnly.recordItems m l)) l'
               else ReportsOnly.recordItems m l).
  { induction l as [|a l IH]; intros l' m; simpl; [reflexivity |].
    destruct (ReportsOnly.recordActivity m a) as [m'|]; [apply IH | reflexivity]. }
  revert loginMap.
  induction pages as [msg | items | items next IH]; intros loginMap; simpl.
  - reflexivity.
  - reflexivity.
  - rewrite Happ.
    destruct (ReportsOnly.recordItems loginMap (default [] items)) as [m ok].
    cbn [fst snd]. destruct ok; [apply IH | reflexivity].
Qed.

(** On events that name their actor the two callbacks do the same. *)
Lemma recordActivity_named (loginMap : gmap string Z) (activity : Activity) :
  namesActor activity = true ->
  ReportsOnly.recordActivity loginMap activity
  = Some (AutoRun.recordActivity loginMap activity).
Proof.
  unfold namesActor, ReportsOnly.recordActivity, AutoRun.recordActivity.
  destruct (actor_email activity) as [e|]; [| discriminate].
  intros ->. reflexivity.
Qed.

Lemma recordItems_named (activities : list Activity) (loginMap : gmap string Z) :
  Forall (fun a => namesActor a = true) activities ->
  ReportsOnly.recordItems loginMap activities
  = (fold_left AutoRun.recordActivity activities loginMap, true).
Proof.
  intros Hall. revert loginMap.
  induction Hall as [|a rest Ha Hrest IH]; intros loginMap; [reflexivity |].
  cbn [ReportsOnly.recordItems fold_left]. rewrite (recordActivity_named _ _ Ha).
  apply IH.
Qed.

Lemma recordActivity_unnamed (loginMap : gmap string Z) (activity : Activity) :
  namesActor activity = false ->
  AutoRun.recordActivity loginMap activity = loginMap.
Proof.
  unfold namesActor, AutoRun.recordActivity.
  destruct (actor_email activity) as [e|]; [| reflexivity].
  intros ->. reflexivity.
Qed.

Lemma auditUser_no_reports (T : string) (licenseMap : gmap string (list Licensing.License))
      (inactiveDate : Z) (user : User) :
  if holdsTarget T licenseMap user
  then exists user', ReportsOnly.auditUser T licenseMap ∅ inactiveDate user = Some user'
                     /\ primaryEmail user' = primaryEmail user
                     /\ lastLoginTime user' = None
  else ReportsOnly.auditUser T licenseMap ∅ inactiveDate user = None.
Proof.
  unfold holdsTarget, ReportsOnly.auditUser. rewrite lookup_empty.
  destruct (licenseMap !! toLowerCase (primaryEmail user)) as [ls|]; [| reflexivity].
  destruct (Licensing.hasTarget T ls); [| reflexivity].
  eexists. repeat split.
Qed.

End ReportsOnlyFacts.

(** X23. The Reports-only audit flags at least the users the hybrid
    classifier flags: a user who holds the target license and whom the
    hybrid classifier finds inactive, from the same map of login times, is
    in the Reports-only result. *)
Theorem hybrid_inactive_is_reports_only_inactive
        (TARGET_SKU_ID : string) (licenseMap : gmap string (list Licensing.License))
        (loginActivity : gmap string Z) (inactiveDate : Z) (user : User) :
  holdsTarget TARGET_SKU_ID licenseMap user = true ->
  LicenseFirst.checkIfUserInactive user loginActivity inactiveDate = true ->
  is_Some (ReportsOnly.auditUser TARGET_SKU_ID licenseMap loginActivity inactiveDate user).
Proof.
  unfold holdsTarget, LicenseFirst.checkIfUserInactive, ReportsOnly.auditUser.
  destruct (licenseMap !! toLowerCase (primaryEmail user)) as [ls|]; [| discriminate].
  intros ->.
  destruct (loginActivity !! toLowerCase (primaryEmail user)) as [t|].
  - destruct (Z.geb_spec t inactiveDate) as [Hge | Hlt]; [discriminate |].
    intros _. destruct (Z.ltb_spec t inactiveDate); [| lia]. eexists; reflexivity.
  - intros _. eexists; reflexivity.
Qed.

Lemma hybrid_inactive_is_reports_only_inactive_sample :
  is_Some (ReportsOnly.auditUser "1010020020"
             (Licensing.getAllLicenseAssignments (listForProduct staffServices)
                "Google-Apps" "C01abc")
             (AutoRun.getLoginActivityFromReports staffProviders (day 1000) (day 820))
             (day 820) (person "bob@example.com" None None false false)).
Proof.
  apply hybrid_inactive_is_reports_only_inactive; vm_compute; reflexivity.
Defined.

(** X24. Where the two audits part.  On a user who holds the target
    license, and from the same map of login times, the Reports-only audit
    flags the user while the hybrid classifier finds the user active
    exactly when the directory holds a login of the user at or after the
    cutoff and the map holds none at or after it.  The login the directory
    holds is then not exported either: a flagged user carries the login
    time of the map, or none. *)
Theorem audits_part_on_directory_login
        (TARGET_SKU_ID : string) (licenseMap : gmap string (list Licensing.License))
        (loginActivity : gmap string Z) (inactiveDate : Z) (user : User) :
  holdsTarget TARGET_SKU_ID licenseMap user = true ->
  ((is_Some (ReportsOnly.auditUser TARGET_SKU_ID licenseMap loginActivity inactiveDate user)
    /\ LicenseFirst.checkIfUserInactive user loginActivity inactiveDate = false)
   <-> (exists t, lastLoginTime user = Some t /\ inactiveDate <= t)
       /\ match loginActivity !! toLowerCase (primaryEmail user) with
          | Some lastLogin => lastLogin < inactiveDate
          | None => True
          end)
  /\ (forall flagged,
        ReportsOnly.auditUser TARGET_SKU_ID licenseMap loginActivity inactiveDate user
        = Some flagged ->
        lastLoginTime flagged = loginActivity !! toLowerCase (primaryEmail user)
        /\ primaryEmail flagged = primaryEmail user).
Proof.
  unfold holdsTarget, LicenseFirst.checkIfUserInactive, ReportsOnly.auditUser.
  destruct (licenseMap !! toLowerCase (primaryEmail user)) as [ls|]; [| discriminate].
  intros ->. split.
  - destruct (loginActivity !! toLowerCase (primaryEmail user)) as [l|].
    + destruct (Z.geb_spec l inactiveDate) as [Hge | Hlt];
        destruct (Z.ltb_spec l inactiveDate) as [Hlt' | Hge']; try lia.
      * split; [intros [[x Hx] _]; discriminate | intros [_ H]; lia].
      * destruct (lastLoginTime user) as [t|].
        -- destruct (Z.geb_spec t inactiveDate) as [Ht | Ht].
           ++ split; [intros _; split; [exists t; split; [reflexivity | exact Ht] | exact Hlt]
                     | intros _; split; [eexists; reflexivity | reflexivity]].
           ++ split; [intros [_ H]; discriminate | intros [(t' & [= <-] & Ht') _]; lia].
        -- split; [intros [_ H]; discriminate | intros [(t' & Hnone & _) _]; discriminate].
    + destruct (lastLoginTime user) as [t|].
      * destruct (Z.geb_spec t inactiveDate) as [Ht | Ht].
        -- split; [intros _; split; [exists t; split; [reflexivity | exact Ht] | exact I]
                  | intros _; split; [eexists; reflexivity | reflexivity]].
        -- split; [intros [_ H]; discriminate | intros [(t' & [= <-] & Ht') _]; lia].
      * split; [intros [_ H]; discriminate | intros [(t' & Hnone & _) _]; discriminate].
  - intros flagged.
    destruct (loginActivity !! toLowerCase (primaryEmail user)) as [l|].
    + destruct (l <? inactiveDate); [| discriminate]. intros [= <-]. split; reflexivity.
    + intros [= <-]. split; reflexivity.
Qed.

Lemma audits_part_on_directory_login_sample :
  is_Some (ReportsOnly.auditUser "1010020020" halLicenses
             (AutoRun.getLoginActivityFromReports staffProviders (day 1000) (day 820))
             (day 820) hal)
  /\ LicenseFirst.checkIfUserInactive hal
       (AutoRun.getLoginActivityFromReports staffProviders (day 1000) (day 820))
       (day 820) = false.
Proof.
  destruct (audits_part_on_directory_login "1010020020" halLicenses
              (AutoRun.getLoginActivityFromReports staffProviders (day 1000) (day 820))
              (day 820) hal) as [Hpart _].
  - vm_compute. reflexivity.
  - apply Hpart. split.
    + exists (day 900). split; [reflexivity | vm_compute; discriminate].
    + vm_compute. exact I.
Defined.

(** X25. When the Reports API refuses the login request, the Reports-only
    audit reports every listed user who holds the target license as
    inactive, with no login time, whatever login time the directory holds
    for the user. *)
Theorem reports_only_failure_flags_every_licensed_user
        (TARGET_SKU_ID PRODUCT_ID : string) (S : Services) (now inactiveDate : Z)
        (message : string) :
  Activities_list (providers S) (ReportsOnly.reportsQuery now inactiveDate) = Fails message ->
  let licenseMap :=
    Licensing.getAllLicenseAssignments (listForProduct S) PRODUCT_ID
      (canonicalCustomerId (Customers_get S)) in
  let flagged :=
    ReportsOnly.auditInactiveEnterpriseUsers TARGET_SKU_ID PRODUCT_ID S now inactiveDate in
  map primaryEmail flagged
  = map primaryEmail
        (filter (fun user => holdsTarget TARGET_SKU_ID licenseMap user = true)
                (itemsRead (Users_list (providers S))))
  /\ Forall (fun user => lastLoginTime user = None) flagged.
Proof.
  intros Hfail licenseMap flagged. unfold flagged, ReportsOnly.auditInactiveEnterpriseUsers.
  fold licenseMap.
  unfold ReportsOnly.getLoginActivityFromReports. rewrite Hfail.
  cbn [ReportsOnly.collectLogins].
  assert (Husers : ReportsOnly.getAllUsers (providers S)
                   = itemsRead (Users_list (providers S))).
  { unfold ReportsOnly.getAllUsers.
    assert (Hgen : forall pages users,
               ReportsOnly.collectUsers pages users = users ++ itemsRead pages).
    { induction pages as [m | us | us next IH]; intros users; simpl.
      - rewrite app_nil_r. reflexivity.
      - reflexivity.
      - rewrite IH, app_assoc. reflexivity. }
    apply Hgen. }
  rewrite Husers. clear Husers flagged.
  induction (itemsRead (Users_list (providers S))) as [|u rest [IH1 IH2]];
    [split; [reflexivity | simpl; constructor] |].
  cbn [omap list_omap]. rewrite filter_cons.
  fold (omap (ReportsOnly.auditUser TARGET_SKU_ID licenseMap ∅ inactiveDate) rest).
  pose proof (ReportsOnlyFacts.auditUser_no_reports TARGET_SKU_ID licenseMap
                inactiveDate u) as Hu.
  destruct (holdsTarget TARGET_SKU_ID licenseMap u).
  - destruct Hu as (u' & -> & Hmail & Hlogin).
    destruct (decide (true = true)) as [_ | Hn]; [| contradiction].
    split; [cbn [map]; rewrite Hmail, IH1; reflexivity |].
    constructor; [exact Hlogin | exact IH2].
  - rewrite Hu. destruct (decide (false = true)) as [Hn | _]; [discriminate |].
    split; assumption.
Qed.

Lemma reports_only_failure_flags_every_licensed_user_sample :
  map primaryEmail
      (ReportsOnly.auditInactiveEnterpriseUsers "1010020020" "Google-Apps"
         staffServicesWithoutReports (day 1000) (day 820))
  = [ "Ann@Example.com"; "bob@example.com"; "cat@example.com"; "eve@example.com";
      "fay@example.com" ].
Proof.
  destruct (reports_only_failure_flags_every_licensed_user "1010020020" "Google-Apps"
              staffServicesWithoutReports (day 1000) (day 820) "Reports API unavailable"
              eq_refl) as [Hflagged _].
  rewrite Hflagged. reflexivity.
Defined.

(** X26. A login event without actor email ends the collection of the
    Reports-only audit: the events read before it are recorded, the events
    after it are lost, those of the same page and of later pages alike.
    The hybrid scripts skip such an event and record the others. *)
Theorem event_without_actor_ends_reports_only_collection
        (pages : Listing Activity) (before after : list Activity) (activity : Activity) :
  itemsRead pages = before ++ activity :: after ->
  Forall (fun a => namesActor a = true) before ->
  actor_email activity = None ->
  ReportsOnly.collectLogins pages ∅ = AutoRun.collectLogins (LastPage (Some before)) ∅
  /\ AutoRun.collectLogins pages ∅
     = AutoRun.collectLogins (LastPage (Some (before ++ after))) ∅.
Proof.
  intros Hitems Hbefore Hnone. split.
  - rewrite ReportsOnlyFacts.collectLogins_until_throw, Hitems.
    cbn [AutoRun.collectLogins AutoRun.recordPage]. clear Hitems.
    generalize (∅ : gmap string Z) as loginMap.
    induction Hbefore as [|a rest Ha Hrest IH]; intros loginMap.
    + cbn [app ReportsOnly.recordItems]. unfold ReportsOnly.recordActivity.
      rewrite Hnone. reflexivity.
    + cbn [app ReportsOnly.recordItems fold_left].
      rewrite (ReportsOnlyFacts.recordActivity_named _ _ Ha). apply IH.
  - rewrite LoginFacts.collectLogins_items, Hitems.
    cbn [AutoRun.collectLogins AutoRun.recordPage].
    rewrite !fold_left_app. cbn [fold_left].
    rewrite ReportsOnlyFacts.recordActivity_unnamed; [reflexivity |].
    unfold namesActor. rewrite Hnone. reflexivity.
Qed.

Lemma event_without_actor_ends_reports_only_collection_sample :
  ReportsOnly.collectLogins (Activities_list staffProviders (mkQuery 0 0)) ∅
  = {[ "ann@example.com" := day 985 ]}
  /\ AutoRun.collectLogins (Activities_list staffProviders (mkQuery 0 0)) ∅
     = {[ "ann@example.com" := day 990; "bob@example.com" := day 700 ]}.
Proof.
  destruct (event_without_actor_ends_reports_only_collection
              (Activities_list staffProviders (mkQuery 0 0))
              (take 1 staffEvents) (drop 2 staffEvents)
              {| actor_email := None; id_time := day 986 |}
              eq_refl ltac:(repeat constructor) eq_refl) as [-> ->].
  split; vm_compute; reflexivity.
Defined.

(** X27. On a listing whose events all name their actor the two
    collectors build the same map of login times. *)
Theorem collectors_agree_on_named_events (pages : Listing Activity) :
  Forall (fun a => namesActor a = true) (itemsRead pages) ->
  ReportsOnly.collectLogins pages ∅ = AutoRun.collectLogins pages ∅.
Proof.
  intros Hall.
  rewrite ReportsOnlyFacts.collectLogins_until_throw, LoginFacts.collectLogins_items.
  rewrite (ReportsOnlyFacts.recordItems_named _ _ Hall). reflexivity.
Qed.

Lemma collectors_agree_on_named_events_sample :
  ReportsOnly.collectLogins (LastPage (Some (drop 2 staffEvents))) ∅
  = AutoRun.collectLogins (LastPage (Some (drop 2 staffEvents))) ∅.
Proof.
  apply collectors_agree_on_named_events. repeat constructor.
Defined.

Module LicenseFirstFacts.

Import Licensing LicenseFirstMain.

Lemma collectLicensed_items (targetSkuId : string) (pages : Listing Assignment)
      (licensedUsers : list string) :
  collectLicensed targetSkuId pages licensedUsers
  = licensedUsers
    ++ map userId (filter (fun item => skuId item = targetSkuId) (itemsRead pages)).
Proof.
  assert (Hfold : forall items users,
             fold_left (recordLicensed targetSkuId) items users
             = users ++ map userId (filter (fun item => skuId item = targetSkuId) items)).
  { induction items as [|item rest IH]; intros users.
    - simpl. rewrite app_nil_r. reflexivity.
    - cbn [fold_left]. rewrite IH, filter_cons. unfold recordLicensed.
      destruct (String.eqb_spec (skuId item) targetSkuId) as [Heq | Hne];
        destruct (decide (skuId item = targetSkuId)) as [Heq' | Hne']; try contradiction.
      + cbn [map]. rewrite <- app_assoc. reflexivity.
      + reflexivity. }
  revert licensedUsers.
  induction pages as [m | items | items next IH]; intros licensedUsers; simpl.
  - rewrite app_nil_r. reflexivity.
  - destruct items as [items|]; simpl; [apply Hfold | rewrite app_nil_r; reflexivity].
  - rewrite IH. destruct items as [items|]; simpl.
    + rewrite Hfold, filter_app, map_app, app_assoc. reflexivity.
    + reflexivity.
Qed.

Lemma hasTarget_items (targetSkuId : string) (items : list Assignment) :
  hasTarget targetSkuId (map toLicense items) = true
  <-> exists item, item ∈ items /\ skuId item = targetSkuId.
Proof.
  unfold hasTarget. rewrite existsb_exists. split.
  - intros (l & Hl & Heq). apply in_map_iff in Hl. destruct Hl as (item & <- & Hitem).
    exists item. split; [apply list_elem_of_In; exact Hitem |].
    apply String.eqb_eq. exact Heq.
  - intros (item & Hitem & Heq). exists (toLicense item). split.
    + apply in_map. apply list_elem_of_In. exact Hitem.
    + apply String.eqb_eq. exact Heq.
Qed.

End LicenseFirstFacts.

(** X28. The two ways of reading the license assignments agree.  An
    address, in lower case, is among the users [getLicensedUsers] returns
    for the target license exactly when [getAllLicenseAssignments] gives
    the address an entry that holds the target license.  [getLicensedUsers]
    keeps the addresses as the listing writes them, one per assignment of
    the target license, in the order of the listing. *)
Theorem licensed_users_agree_with_license_map
        (listForProduct : string -> string -> Listing Licensing.Assignment)
        (productId targetSkuId customerId e : string) :
  LicenseFirstMain.getLicensedUsers listForProduct productId targetSkuId customerId
  = map Licensing.userId
        (filter (fun item => Licensing.skuId item = targetSkuId)
                (itemsRead (listForProduct productId customerId)))
  /\ (e ∈ map toLowerCase
            (LicenseFirstMain.getLicensedUsers listForProduct productId targetSkuId
                                               customerId)
      <-> exists licenses,
          Licensing.getAllLicenseAssignments listForProduct productId customerId !! e
          = Some licenses
          /\ Licensing.hasTarget targetSkuId licenses = true).
Proof.
  unfold LicenseFirstMain.getLicensedUsers, Licensing.getAllLicenseAssignments.
  rewrite LicenseFirstFacts.collectLicensed_items. cbn [app].
  split; [reflexivity |].
  rewrite LicensingFacts.collectLicenses_items, LicensingFacts.recordAssignments_lookup.
  rewrite lookup_empty.
  set (items := itemsRead (listForProduct productId customerId)).
  split.
  - intros Hin. apply list_elem_of_fmap in Hin. destruct Hin as (x & -> & Hx).
    apply list_elem_of_fmap in Hx. destruct Hx as (item & -> & Hitem).
    apply list_elem_of_filter in Hitem. destruct Hitem as [Hsku Hitem].
    assert (Hown : item ∈ filter (fun i => toLowerCase (Licensing.userId i)
                                           = toLowerCase (Licensing.userId item)) items).
    { apply list_elem_of_filter. split; [reflexivity | exact Hitem]. }
    destruct (filter _ items) as [|i own] eqn:Hf; [apply elem_of_nil in Hown; contradiction |].
    eexists. split; [reflexivity |].
    change (Licensing.hasTarget targetSkuId (map Licensing.toLicense (i :: own)) = true).
    apply LicenseFirstFacts.hasTarget_items. exists item. split; assumption.
  - intros (licenses & Hl & Ht).
    destruct (filter (fun i => toLowerCase (Licensing.userId i) = e) items)
      as [|i own] eqn:Hf; [discriminate |].
    injection Hl as <-.
    change (Licensing.hasTarget targetSkuId (map Licensing.toLicense (i :: own)) = true) in Ht.
    apply LicenseFirstFacts.hasTarget_items in Ht. destruct Ht as (item & Hitem & Hsku).
    rewrite <- Hf in Hitem. apply list_elem_of_filter in Hitem.
    destruct Hitem as [He Hitem].
    apply list_elem_of_fmap. exists (Licensing.userId item). split; [symmetry; exact He |].
    apply list_elem_of_fmap. exists item. split; [reflexivity |].
    apply list_elem_of_filter. split; assumption.
Qed.

Module LicenseFirstAuditFacts.

Import LicenseFirstMain.

Lemma getManager_cell (L : Lookup) (userEmail : string) :
  or_default (getManager L userEmail) "N/A" = managerCell L userEmail.
Proof.
  unfold getManager, managerCell, or_default.
  destruct (Users_get_manager L userEmail) as [[m|]|msg]; reflexivity.
Qed.

(** What the body of the loop does for one licensed address. *)
Lemma auditUser_cases (T : string) (L : Lookup) (reportsLoginData : gmap string Z)
      (inactiveDate : Z) (e : string) :
  match auditUser T L reportsLoginData inactiveDate e with
  | Some entry =>
      exists user,
        Users_get L e = Returns user
        /\ LicenseFirst.checkIfUserInactive user reportsLoginData inactiveDate = true
        /\ primaryEmail (entry_user entry) = primaryEmail user
        /\ licenseString (entry_user entry) = Some (getSkuName T)
        /\ managerEmail entry = managerCell L e
  | None => exportable L reportsLoginData inactiveDate e = false
  end.
Proof.
  unfold auditUser, exportable, LicenseFirst.auditStep.
  destruct (Users_get L e) as [user | msg]; [| reflexivity].
  change (LicenseFirst.checkIfUserInactive
            (set_licenseString (Some (getSkuName T)) user) reportsLoginData inactiveDate)
    with (LicenseFirst.checkIfUserInactive user reportsLoginData inactiveDate).
  destruct (LicenseFirst.checkIfUserInactive user reportsLoginData inactiveDate)
    eqn:Hinactive; [| reflexivity].
  exists user. cbn [entry_user managerEmail].
  split; [reflexivity |]. split; [exact Hinactive |].
  split; [destruct (reportsLoginData !! toLowerCase e); reflexivity |].
  split; [destruct (reportsLoginData !! toLowerCase e); reflexivity |].
  apply getManager_cell.
Qed.

Lemma managerCell_truthy (L : Lookup) (e : string) : truthy (managerCell L e) = true.
Proof.
  unfold managerCell.
  destruct (Users_get_manager L e) as [[m|]|msg]; try reflexivity.
  destruct (truthy m) eqn:Hm; [exact Hm | reflexivity].
Qed.

Lemma audited_count (T : string) (L : Lookup) (reportsLoginData : gmap string Z)
      (inactiveDate : Z) (emails : list string) :
  length (omap (auditUser T L reportsLoginData inactiveDate) emails)
  = length (filter (fun e => exportable L reportsLoginData inactiveDate e = true) emails).
Proof.
  induction emails as [|e rest IH]; [reflexivity |].
  cbn [omap list_omap]. rewrite filter_cons.
  fold (omap (auditUser T L reportsLoginData inactiveDate) rest).
  pose proof (auditUser_cases T L reportsLoginData inactiveDate e) as He.
  destruct (auditUser T L reportsLoginData inactiveDate e) as [entry|].
  - destruct He as (user & Hget & Hinactive & _).
    assert (Hex : exportable L reportsLoginData inactiveDate e = true).
    { unfold exportable. rewrite Hget. exact Hinactive. }
    destruct (decide (exportable L reportsLoginData inactiveDate e = true))
      as [_ | Hn]; [| contradiction].
    cbn [length]. rewrite IH. reflexivity.
  - destruct (decide (exportable L reportsLoginData inactiveDate e = true))
      as [Hyes | _]; [congruence | exact IH].
Qed.

End LicenseFirstAuditFacts.

(** X29. In the license-first audit a user whose directory record cannot
    be fetched is left out and the audit goes on with the next user; a
    manager that cannot be read drops nobody and is shown as 'N/A'.
    Every licensed address whose record is fetched and whom the hybrid
    classifier finds inactive gets an entry, wherever the fetches that
    throw fall in the list; every entry comes from such an address; and
    there are as many entries as such addresses in the list.  The manager
    cell of an entry is the manager read for the address, and 'N/A' when
    none can be read.  The users exported, and what is exported of them,
    the manager apart, are the same whatever the manager lookups answer;
    each of them carries the name of the target license. *)
Theorem manager_lookup_never_drops_a_user
        (TARGET_SKU_ID PRODUCT_ID : string) (S : Services)
        (L L' : LicenseFirstMain.Lookup) (now inactiveDate : Z) :
  (forall e, LicenseFirstMain.Users_get L e = LicenseFirstMain.Users_get L' e) ->
  let audit L :=
    LicenseFirstMain.auditInactiveLicensedUsers TARGET_SKU_ID PRODUCT_ID S L
      now inactiveDate in
  let licensed :=
    LicenseFirstMain.getLicensedUsers (listForProduct S) PRODUCT_ID TARGET_SKU_ID
      (canonicalCustomerId (Customers_get S)) in
  let reportsLoginData :=
    LicenseFirstMain.getLoginActivityFromReports (providers S) now inactiveDate in
  map LicenseFirstMain.entry_user (audit L) = map LicenseFirstMain.entry_user (audit L')
  /\ Forall (fun entry =>
               licenseString (LicenseFirstMain.entry_user entry)
               = Some (getSkuName TARGET_SKU_ID)
               /\ truthy (LicenseFirstMain.managerEmail entry) = true)
            (audit L)
  (* a fetched, inactive user is exported, whatever fails around *)
  /\ (forall e user,
        e ∈ licensed ->
        LicenseFirstMain.Users_get L e = Returns user ->
        LicenseFirst.checkIfUserInactive user reportsLoginData inactiveDate = true ->
        exists entry,
          entry ∈ audit L
          /\ primaryEmail (LicenseFirstMain.entry_user entry) = primaryEmail user
          /\ LicenseFirstMain.managerEmail entry = managerCell L e)
  (* an entry comes from a fetched, inactive user only *)
  /\ (forall entry,
        entry ∈ audit L ->
        exists e user,
          e ∈ licensed
          /\ LicenseFirstMain.Users_get L e = Returns user
          /\ LicenseFirst.checkIfUserInactive user reportsLoginData inactiveDate = true
          /\ primaryEmail (LicenseFirstMain.entry_user entry) = primaryEmail user
          /\ LicenseFirstMain.managerEmail entry = managerCell L e)
  (* an address whose fetch throws is skipped, and nothing else is *)
  /\ length (audit L)
     = length (filter (fun e => exportable L reportsLoginData inactiveDate e = true) licensed)
  (* the manager cell when no manager can be read *)
  /\ (forall e message,
        LicenseFirstMain.Users_get_manager L e = Throws message -> managerCell L e = "N/A")
  /\ (forall e, LicenseFirstMain.Users_get_manager L e = Returns None ->
                managerCell L e = "N/A").
Proof.
  intros Hget audit licensed reportsLoginData.
  assert (Haudit : forall L0,
             audit L0
             = omap (LicenseFirstMain.auditUser TARGET_SKU_ID L0 reportsLoginData inactiveDate)
                    licensed).
  { intros L0. unfold audit, LicenseFirstMain.auditInactiveLicensedUsers.
    fold licensed. fold reportsLoginData.
    destruct licensed as [|e rest]; reflexivity. }
  rewrite !Haudit. clearbody licensed reportsLoginData. clear Haudit audit.
  split; [| split; [| split; [| split; [| split; [| split]]]]].
  - assert (Hone : forall e,
               option_map LicenseFirstMain.entry_user
                 (LicenseFirstMain.auditUser TARGET_SKU_ID L reportsLoginData inactiveDate e)
               = option_map LicenseFirstMain.entry_user
                   (LicenseFirstMain.auditUser TARGET_SKU_ID L' reportsLoginData
                      inactiveDate e)).
    { intros e. unfold LicenseFirstMain.auditUser. rewrite <- Hget.
      destruct (LicenseFirstMain.Users_get L e) as [user | msg]; [| reflexivity].
      destruct (LicenseFirst.auditStep _ _ _ _) as [user'|]; reflexivity. }
    induction licensed as [|e rest IH]; [reflexivity |].
    cbn [omap list_omap].
    fold (omap (LicenseFirstMain.auditUser TARGET_SKU_ID L reportsLoginData inactiveDate) rest).
    fold (omap (LicenseFirstMain.auditUser TARGET_SKU_ID L' reportsLoginData inactiveDate) rest).
    specialize (Hone e).
    destruct (LicenseFirstMain.auditUser TARGET_SKU_ID L reportsLoginData inactiveDate e)
      as [entry|];
      destruct (LicenseFirstMain.auditUser TARGET_SKU_ID L' reportsLoginData inactiveDate e)
      as [entry'|]; try discriminate.
    + injection Hone as Hone. cbn [map]. rewrite Hone, IH. reflexivity.
    + exact IH.
  - apply Forall_forall. intros entry Hin.
    apply list_elem_of_omap in Hin. destruct Hin as (e & _ & He).
    pose proof (LicenseFirstAuditFacts.auditUser_cases TARGET_SKU_ID L reportsLoginData
                  inactiveDate e) as Hcases.
    rewrite He in Hcases. destruct Hcases as (user & _ & _ & _ & Hlicense & Hcell).
    split; [exact Hlicense |]. rewrite Hcell.
    apply LicenseFirstAuditFacts.managerCell_truthy.
  - intros e user Hin Huser Hinactive.
    pose proof (LicenseFirstAuditFacts.auditUser_cases TARGET_SKU_ID L reportsLoginData
                  inactiveDate e) as Hcases.
    destruct (LicenseFirstMain.auditUser TARGET_SKU_ID L reportsLoginData inactiveDate e)
      as [entry|] eqn:He.
    + destruct Hcases as (user' & Huser' & _ & Hmail & _ & Hcell).
      rewrite Huser in Huser'. injection Huser' as <-.
      exists entry. split; [| split; assumption].
      apply list_elem_of_omap. exists e. split; assumption.
    + unfold exportable in Hcases. rewrite Huser, Hinactive in Hcases. discriminate.
  - intros entry Hin.
    apply list_elem_of_omap in Hin. destruct Hin as (e & Hin & He).
    pose proof (LicenseFirstAuditFacts.auditUser_cases TARGET_SKU_ID L reportsLoginData
                  inactiveDate e) as Hcases.
    rewrite He in Hcases. destruct Hcases as (user & Huser & Hinactive & Hmail & _ & Hcell).
    exists e, user. repeat split; assumption.
  - apply LicenseFirstAuditFacts.audited_count.
  - intros e message Hthrow. unfold managerCell. rewrite Hthrow. reflexivity.
  - intros e Hnone. unfold managerCell. rewrite Hnone. reflexivity.
Qed.

Lemma manager_lookup_never_drops_a_user_sample :
  LicenseFirstMain.Users_get staffLookupPartial "cat@example.com" = Throws "Service unavailable"
  /\ (exists entry,
         entry ∈ LicenseFirstMain.auditInactiveLicensedUsers "1010020020" "Google-Apps"
                   staffServices staffLookupPartial (day 1000) (day 820)
         /\ primaryEmail (LicenseFirstMain.entry_user entry) = "eve@example.com"
         /\ LicenseFirstMain.managerEmail entry = "N/A")
  /\ length (LicenseFirstMain.auditInactiveLicensedUsers "1010020020" "Google-Apps"
               staffServices staffLookupPartial (day 1000) (day 820)) = 3%nat.
Proof.
  destruct (manager_lookup_never_drops_a_user "1010020020" "Google-Apps" staffServices
              staffLookupPartial staffLookupPartial (day 1000) (day 820)
              (fun e => eq_refl)) as (_ & _ & Hkept & _ & Hcount & _ & _).
  split; [reflexivity |]. split.
  - destruct (Hkept "eve@example.com" (person "eve@example.com" None None true false))
      as (entry & Hin & Hmail & Hcell).
    + vm_compute. do 3 right. left.
    + reflexivity.
    + vm_compute. reflexivity.
    + exists entry. split; [exact Hin |]. split; [exact Hmail |].
      rewrite Hcell. reflexivity.
  - rewrite Hcount. vm_compute. reflexivity.
Defined.

(** The run on that sample: the record of cat cannot be fetched, and the
    users listed after her are exported all the same. *)
Example partial_lookup_run :
  map (fun entry => (primaryEmail (LicenseFirstMain.entry_user entry),
                     LicenseFirstMain.managerEmail entry))
      (LicenseFirstMain.auditInactiveLicensedUsers "1010020020" "Google-Apps"
         staffServices staffLookupPartial (day 1000) (day 820))
  = [ ("bob@example.com", "boss@example.com"); ("eve@example.com", "N/A");
      ("fay@example.com", "N/A") ].
Proof. vm_compute. reflexivity. Qed.

(* ================================================================== *)
(** * Further properties: the audit script and the suspension scripts   *)
(* ================================================================== *)

(** X30. The audit script previews the first sheet of the license
    management script.  Run on the same answers of the providers, either
    both write nothing, when there is no inactive user, or the rows the
    audit exports and the rows of the first sheet are about the same
    users in the same order, with the same organizational unit, last
    login and license text; the audit lists the inactive users whether
    or not they hold a license. *)
Theorem audit_previews_first_sheet
        (cfg : ManageLicenses.Config) (R : Exclusion.Rules)
        (S : Services) (M : Mutators) (now inactiveDate : Z) :
  match AutoRunMain.auditInactiveEnterpriseUsers (ManageLicenses.TARGET_SKU_ID cfg)
          (ManageLicenses.PRODUCT_ID cfg) S now inactiveDate,
        fst (ManageLicensesMain.suspendAndManageLicenses cfg R S M now inactiveDate) with
  | None, None => AutoRun.getInactiveUsers (providers S) now inactiveDate = []
  | Some rows, Some report =>
      map (fun row => (AutoRun.row_email row, AutoRun.row_orgUnitPath row,
                       AutoRun.row_lastLogin row,
                       or_default (AutoRun.row_licenses row) "No licenses")) rows
      = map (fun row => (Selection.s1_email row, Selection.s1_orgUnitPath row,
                         Selection.s1_lastLogin row, Selection.s1_licenses row))
            (ManageLicensesMain.sheet1 report)
      /\ map AutoRun.row_email rows
         = map primaryEmail (AutoRun.getInactiveUsers (providers S) now inactiveDate)
  | _, _ => False
  end.
Proof.
  unfold AutoRunMain.auditInactiveEnterpriseUsers,
    ManageLicensesMain.suspendAndManageLicenses.
  set (licenseMap := Licensing.getAllLicenseAssignments _ _ _).
  set (inactiveUsers := AutoRun.getInactiveUsers _ _ _).
  destruct inactiveUsers as [|u0 rest] eqn:Husers; [reflexivity |].
  rewrite <- Husers. replace (length inactiveUsers =? 0)%nat with false
    by (rewrite Husers; reflexivity).
  unfold Selection.selectCandidates.
  destruct (ManageLicenses.processCandidates _ _ _) as [results calls].
  cbn [fst ManageLicensesMain.sheet1]. unfold AutoRun.exportRows.
  rewrite !map_map. clearbody inactiveUsers licenseMap. clear Husers.
  assert (Hone : forall u,
             let row := AutoRun.exportRow
                          (fst (AutoRunMain.attachLicenses (ManageLicenses.TARGET_SKU_ID cfg)
                                  licenseMap u)) in
             let row' := Selection.sheet1Row
                           (fst (Selection.attachLicenses (ManageLicenses.TARGET_SKU_ID cfg)
                                   R licenseMap u)) in
             (AutoRun.row_email row, AutoRun.row_orgUnitPath row, AutoRun.row_lastLogin row,
              or_default (AutoRun.row_licenses row) "No licenses")
             = (Selection.s1_email row', Selection.s1_orgUnitPath row',
                Selection.s1_lastLogin row', Selection.s1_licenses row')
             /\ AutoRun.row_email row = primaryEmail u).
  { intros u. cbv zeta.
    unfold AutoRunMain.attachLicenses, Selection.attachLicenses.
    destruct (licenseMap !! toLowerCase (primaryEmail u)) as [ls|]; [| split; reflexivity].
    cbn [suspended set_licenseString].
    destruct (Licensing.hasTarget _ ls), (suspended u); cbn [andb negb];
      try (split; reflexivity).
    destruct (Exclusion.shouldExcludeUser R _); split; reflexivity. }
  split.
  - apply map_ext. intros u. apply Hone.
  - apply map_ext. intros u. apply Hone.
Qed.
